(** * Firewall converter: the IR, the pre-migration analyzer, the Fortinet and
    ASA parsers and the Fortinet and Palo Alto generators, embedded in Rocq.

    Conventions of the embedding.
    - A Python [str] is a [string]; the alphabet is ASCII, and [lower] is
      [str.lower] on it.
    - A Python [set] is the [list] of its members in iteration order.  Two
      Python sets that compare equal have the same members but may iterate
      in different orders, so equality of sets is [Permutation] (or mutual
      inclusion) of the lists, never [eq].
    - A Python [dict] is an association list in insertion order.
    - [Optional[str]] and fields defaulting to [None] are [option string].
    - Integers are [Z] (or [nat] for list positions). *)

From Stdlib Require Import String Ascii List ZArith QArith Qround Qabs Bool Lia Arith.
From Stdlib Require Import Permutation Sorted DecimalString.
Import ListNotations.
Open Scope list_scope.
Open Scope string_scope.

Set Implicit Arguments.

(* ================================================================== *)
(** ** Python strings and containers *)
(* ================================================================== *)

Module Py.

(** [str.lower] on the ASCII alphabet. *)
Definition lower_ascii (c : ascii) : ascii :=
  let n := nat_of_ascii c in
  if (65 <=? n)%nat && (n <=? 90)%nat then ascii_of_nat (n + 32) else c.

Fixpoint lower (s : string) : string :=
  match s with
  | EmptyString => EmptyString
  | String c r => String (lower_ascii c) (lower r)
  end.

(** Truthiness of a string and of a container. *)
Definition truthy (s : string) : bool :=
  match s with EmptyString => false | _ => true end.

Definition nonempty {A} (l : list A) : bool :=
  match l with [] => false | _ => true end.

(** [x in l] for a container of strings. *)
Definition mem (x : string) (l : list string) : bool :=
  existsb (String.eqb x) l.

(** [{str(x).lower() for x in s} if s else set()] *)
Definition lower_set (s : list string) : list string := map lower s.

(** [str(n)] for a non-negative integer. *)
Definition str_of_nat (n : nat) : string :=
  NilEmpty.string_of_uint (Nat.to_uint n).

(** [enumerate(l)] *)
Definition enumerate {A} (l : list A) : list (nat * A) :=
  combine (seq 0 (length l)) l.

(** [s.startswith(p)] *)
Definition startswith (p s : string) : bool := String.prefix p s.

(** White space as [str.isspace], [str.strip] and the pattern [\s] see it. *)
Definition is_space (c : ascii) : bool :=
  let n := nat_of_ascii c in
  ((9 <=? n)%nat && (n <=? 13)%nat) || ((28 <=? n)%nat && (n <=? 32)%nat).

(** [s.strip() == ''] *)
Fixpoint all_space (s : string) : bool :=
  match s with
  | EmptyString => true
  | String c r => is_space c && all_space r
  end.

(** The newline character and ["\n".join(lines)]. *)
Definition nl : string := String (ascii_of_nat 10) EmptyString.

Definition join_lines (lines : list string) : string := String.concat nl lines.

Definition string_rev (s : string) : string :=
  string_of_list_ascii (rev (list_ascii_of_string s)).

(** [s.lstrip(chars)] for the characters accepted by [p]. *)
Fixpoint lstrip_by (p : ascii -> bool) (s : string) : string :=
  match s with
  | EmptyString => EmptyString
  | String c r => if p c then lstrip_by p r else s
  end.

Definition rstrip_by (p : ascii -> bool) (s : string) : string :=
  string_rev (lstrip_by p (string_rev s)).

(** [s.strip()] *)
Definition strip (s : string) : string := rstrip_by is_space (lstrip_by is_space s).

(** [c in s] for a character. *)
Fixpoint has_char (c : ascii) (s : string) : bool :=
  match s with
  | EmptyString => false
  | String a r => Ascii.eqb a c || has_char c r
  end.

(** [s.replace(c, d)] for single characters, and [s.replace(c, '')]. *)
Fixpoint replace_char (c d : ascii) (s : string) : string :=
  match s with
  | EmptyString => EmptyString
  | String a r => String (if Ascii.eqb a c then d else a) (replace_char c d r)
  end.

Fixpoint remove_char (c : ascii) (s : string) : string :=
  match s with
  | EmptyString => EmptyString
  | String a r => if Ascii.eqb a c then remove_char c r else String a (remove_char c r)
  end.

(** The text before and after the first occurrence of [c]. *)
Fixpoint break_at (c : ascii) (s : string) : option (string * string) :=
  match s with
  | EmptyString => None
  | String a r =>
      if Ascii.eqb a c then Some (EmptyString, r)
      else match break_at c r with
           | Some (x, y) => Some (String a x, y)
           | None => None
           end
  end.

(** [s.split(c, n)] for a one-character separator. *)
Fixpoint split_max (c : ascii) (n : nat) (s : string) : list string :=
  match n with
  | O => [s]
  | S n' =>
      match break_at c s with
      | None => [s]
      | Some (x, y) => x :: split_max c n' y
      end
  end.

(** [s.endswith(c)] for a character. *)
Definition ends_with_char (c : ascii) (s : string) : bool :=
  match string_rev s with
  | String a _ => Ascii.eqb a c
  | EmptyString => false
  end.

(** [s[1:-1]] *)
Definition drop_first_last (s : string) : string :=
  match s with
  | EmptyString => EmptyString
  | String _ r =>
      match string_rev r with
      | EmptyString => EmptyString
      | String _ m => string_rev m
      end
  end.

(** [value[1:-1]] when [value] starts and ends with a double quote, else
    [value]. *)
Definition unquote (value : string) : string :=
  if startswith (String (ascii_of_nat 34) EmptyString) value
     && ends_with_char (ascii_of_nat 34) value
  then drop_first_last value else value.

(** [s.add(x)] and [s.update(xs)] on a set of strings; a new member is put
    last in the iteration order of the model. *)
Definition set_add (x : string) (s : list string) : list string :=
  if mem x s then s else (s ++ [x])%list.

Definition set_update (xs : list string) (s : list string) : list string :=
  fold_left (fun acc x => set_add x acc) xs s.

(** [d.get(k)], [k in d] and [d[k] = v] on a dictionary. *)
Fixpoint dict_get {V} (k : string) (d : list (string * V)) : option V :=
  match d with
  | [] => None
  | (k', v) :: d' => if k =? k' then Some v else dict_get k d'
  end.

Definition dict_has {V} (k : string) (d : list (string * V)) : bool :=
  match dict_get k d with Some _ => true | None => false end.

Fixpoint dict_set {V} (k : string) (v : V) (d : list (string * V)) : list (string * V) :=
  match d with
  | [] => [(k, v)]
  | (k', v') :: d' => if k =? k' then (k', v) :: d' else (k', v') :: dict_set k v d'
  end.

(** [s[n:]] *)
Fixpoint drop (n : nat) (s : string) : string :=
  match n, s with
  | O, _ => s
  | S n', String _ r => drop n' r
  | S _, EmptyString => EmptyString
  end.

(** [s.replace(pat, repl)] for a non-empty [pat]; [fuel] bounds the scan. *)
Fixpoint replace_fuel (fuel : nat) (pat repl s : string) : string :=
  match fuel with
  | O => s
  | S fuel' =>
      match s with
      | EmptyString => EmptyString
      | String c r =>
          if String.prefix pat s
          then repl ++ replace_fuel fuel' pat repl (drop (String.length pat) s)
          else String c (replace_fuel fuel' pat repl r)
      end
  end.

Definition replace (pat repl s : string) : string :=
  replace_fuel (S (String.length s)) pat repl s.

(** Truthiness of an [Optional[str]]. *)
Definition opt_truthy (o : option string) : bool :=
  match o with Some s => truthy s | None => false end.


(** [pat in s] *)
Fixpoint contains (pat s : string) : bool :=
  String.prefix pat s
  || match s with
     | EmptyString => false
     | String _ r => contains pat r
     end.

(** [str.upper] on the ASCII alphabet. *)
Definition upper_ascii (c : ascii) : ascii :=
  let n := nat_of_ascii c in
  if (97 <=? n)%nat && (n <=? 122)%nat then ascii_of_nat (n - 32) else c.

Fixpoint upper (s : string) : string :=
  match s with
  | EmptyString => EmptyString
  | String c r => String (upper_ascii c) (upper r)
  end.

(** [sorted(l, key=key)]: a stable sort on string keys, compared as Python
    compares strings, character code by character code. *)
Fixpoint insert_by {A} (key : A -> string) (x : A) (l : list A) : list A :=
  match l with
  | [] => [x]
  | y :: l' => if String.leb (key x) (key y) then x :: l else y :: insert_by key x l'
  end.

Definition sorted_by {A} (key : A -> string) (l : list A) : list A :=
  fold_right (insert_by key) [] l.

(** [sorted(l)] on strings. *)
Definition sorted_str (l : list string) : list string := sorted_by (fun x => x) l.

(** [" ".join(l)] *)
Definition join_space (l : list string) : string := String.concat " " l.

(** A name between double quotes, as the f-strings of the generators write
    it. *)
Definition quoted (s : string) : string :=
  String (ascii_of_nat 34) s ++ String (ascii_of_nat 34) EmptyString.

(** The order that [sorted_by] sorts by, and equality of two sets of
    strings held in different iteration orders. *)
Definition key_le {A} (key : A -> string) (x y : A) : Prop :=
  String.leb (key x) (key y) = true.


(** [all(p(c) for c in s)] *)
Fixpoint all_chars (p : ascii -> bool) (s : string) : bool :=
  match s with
  | EmptyString => true
  | String c r => p c && all_chars p r
  end.

End Py.
Import Py.

(* ================================================================== *)
(** ** The IR (models.py) *)
(* ================================================================== *)

Record Interface := mkInterface {
  if_name : string;
  if_zone : option string;
  if_ip_address : option string;
  if_mask_length : option Z;
  if_description : option string;
  if_vlan_id : option Z
}.

Record Address := mkAddress {
  addr_name : string;
  addr_type : string;
  addr_value1 : string;
  addr_value2 : option string;
  addr_original_text : string
}.

Record Service := mkService {
  svc_name : string;
  svc_protocol : string;
  svc_port : string;
  svc_original_text : string
}.

Record Group := mkGroup {
  grp_name : string;
  grp_members : list string;
  grp_original_text : string
}.

Record ServiceGroup := mkServiceGroup {
  sgrp_name : string;
  sgrp_members : list string;
  sgrp_original_text : string
}.

Record TimeRange := mkTimeRange {
  tr_name : string;
  tr_start_time : string;
  tr_start_date : string;
  tr_end_time : string;
  tr_end_date : string;
  tr_original_text : string
}.

Record StaticRoute := mkStaticRoute {
  sr_destination : string;
  sr_next_hop : string;
  sr_interface : option string;
  sr_distance : Z;
  sr_metric : option Z;
  sr_route_type : string;
  sr_comment : option string
}.

Record Rule := mkRule {
  rule_sequence_id : Z;
  rule_name : string;
  rule_action : string;
  rule_remark : option string;
  rule_enabled : bool;
  rule_log : bool;
  rule_hit_count : Z;
  rule_time_range : option string;
  rule_source_interface : list string;
  rule_destination_interface : list string;
  rule_source : list string;
  rule_destination : list string;
  rule_service : list string;
  rule_application : list string;
  rule_security_profiles : list (string * string);
  rule_context : option string;
  rule_vdom : option string;
  rule_original_text : string
}.

Record NatRule := mkNatRule {
  nat_sequence_id : Z;
  nat_name : string;
  nat_original_source : list string;
  nat_translated_source : option string;
  nat_original_destination : list string;
  nat_translated_destination : option string;
  nat_original_service : list string;
  nat_translated_service : option string;
  nat_source_interface : list string;
  nat_destination_interface : list string;
  nat_enabled : bool;
  nat_remark : option string;
  nat_original_text : string
}.

Record SecurityProfile := mkSecurityProfile {
  sp_name : string;
  sp_type : string;
  sp_properties : list (string * string)
}.

Record ConversionWarning := mkConversionWarning {
  cw_category : string;
  cw_message : string;
  cw_rule_id : option string;
  cw_suggestion : option string;
  cw_original_line : option string;
  cw_severity : string;
  cw_details : list string
}.

Record FirewallConfig := mkFirewallConfig {
  addresses : list Address;
  services : list Service;
  address_groups : list Group;
  service_groups : list ServiceGroup;
  time_ranges : list TimeRange;
  rules : list Rule;
  interfaces : list Interface;
  nat_rules : list NatRule;
  security_profiles : list SecurityProfile;
  static_routes : list StaticRoute;
  dynamic_routing_config : string;
  conversion_warnings : list ConversionWarning
}.

(** [FirewallConfig()] *)
Definition empty_config : FirewallConfig :=
  mkFirewallConfig [] [] [] [] [] [] [] [] [] [] "" [].

(** [Rule(sequence_id, name, action)] with every other field at its default. *)
Definition default_rule (seq : Z) (name action : string) : Rule :=
  mkRule seq name action None true false 0 None [] [] [] [] [] [] [] None None "".

(** [NatRule(sequence_id, name)] with every other field at its default. *)
Definition default_nat (seq : Z) (name : string) : NatRule :=
  mkNatRule seq name [] None [] None [] None [] [] true None "".

(** Assignment to one field of a record of the IR. *)
Definition with_services (c : FirewallConfig) (v : list Service) : FirewallConfig :=
  mkFirewallConfig (addresses c) v (address_groups c) (service_groups c)
    (time_ranges c) (rules c) (interfaces c) (nat_rules c) (security_profiles c)
    (static_routes c) (dynamic_routing_config c) (conversion_warnings c).

Definition with_service_groups (c : FirewallConfig) (v : list ServiceGroup)
  : FirewallConfig :=
  mkFirewallConfig (addresses c) (services c) (address_groups c) v
    (time_ranges c) (rules c) (interfaces c) (nat_rules c) (security_profiles c)
    (static_routes c) (dynamic_routing_config c) (conversion_warnings c).

Definition with_rules (c : FirewallConfig) (v : list Rule) : FirewallConfig :=
  mkFirewallConfig (addresses c) (services c) (address_groups c) (service_groups c)
    (time_ranges c) v (interfaces c) (nat_rules c) (security_profiles c)
    (static_routes c) (dynamic_routing_config c) (conversion_warnings c).

Definition with_nat_rules (c : FirewallConfig) (v : list NatRule) : FirewallConfig :=
  mkFirewallConfig (addresses c) (services c) (address_groups c) (service_groups c)
    (time_ranges c) (rules c) (interfaces c) v (security_profiles c)
    (static_routes c) (dynamic_routing_config c) (conversion_warnings c).

Definition with_sgrp_members (g : ServiceGroup) (v : list string) : ServiceGroup :=
  mkServiceGroup (sgrp_name g) v (sgrp_original_text g).

Definition with_rule_service (r : Rule) (v : list string) : Rule :=
  mkRule (rule_sequence_id r) (rule_name r) (rule_action r) (rule_remark r)
    (rule_enabled r) (rule_log r) (rule_hit_count r) (rule_time_range r)
    (rule_source_interface r) (rule_destination_interface r) (rule_source r)
    (rule_destination r) v (rule_application r) (rule_security_profiles r)
    (rule_context r) (rule_vdom r) (rule_original_text r).


(** Two configurations that differ at most in their rules and NAT rules. *)
Definition same_but_rules (c c' : FirewallConfig) : Prop :=
  addresses c' = addresses c
  /\ services c' = services c
  /\ address_groups c' = address_groups c
  /\ service_groups c' = service_groups c
  /\ time_ranges c' = time_ranges c
  /\ interfaces c' = interfaces c
  /\ security_profiles c' = security_profiles c
  /\ static_routes c' = static_routes c
  /\ dynamic_routing_config c' = dynamic_routing_config c
  /\ conversion_warnings c' = conversion_warnings c.





(* ================================================================== *)
(** ** Regular expressions ([re]) *)
(* ================================================================== *)

(** The patterns of the source are written in this syntax and run by a
    backtracking matcher that tries the alternatives in the order of
    Python's [re]: the left branch of [|] first, a greedy repetition longest
    first, a lazy one shortest first. *)
Module Re.

Inductive regex : Type :=
| Any                              (* [.] : any character but a newline *)
| Cls (p : ascii -> bool)          (* a character class *)
| Chr (c : ascii)                  (* a literal character *)
| Eps                              (* the empty pattern *)
| Seq (r1 r2 : regex)
| Alt (r1 r2 : regex)              (* [r1|r2] *)
| Star (r : regex)                 (* [r*] *)
| LazyStar (r : regex)             (* [r*?] *)
| Group (n : nat) (r : regex)      (* the capture group number [n] *)
| Eol.                             (* [$] *)

(** [r+], [r+?], [r?] and a literal text. *)
Definition Plus (r : regex) : regex := Seq r (Star r).
Definition LazyPlus (r : regex) : regex := Seq r (LazyStar r).
Definition Opt (r : regex) : regex := Alt r Eps.

Fixpoint Lit (s : string) : regex :=
  match s with
  | EmptyString => Eps
  | String c r => Seq (Chr c) (Lit r)
  end.

(** [\S], [\d] and [r{1,3}]. *)
Definition NonSpace : regex := Cls (fun c => negb (is_space c)).
Definition Digit : regex :=
  Cls (fun c => let n := nat_of_ascii c in (48 <=? n)%nat && (n <=? 57)%nat).
Definition Rep1to3 (r : regex) : regex := Seq r (Opt (Seq r (Opt r))).

(** The capture groups that took part in the match, by number. *)
Definition captures := list (nat * string).

Fixpoint cap_set (n : nat) (v : string) (c : captures) : captures :=
  match c with
  | [] => [(n, v)]
  | (n', v') :: c' => if (n =? n')%nat then (n', v) :: c' else (n', v') :: cap_set n v c'
  end.

(** [m.group(n)]; [None] for a group that did not take part. *)
Fixpoint group (n : nat) (c : captures) : option string :=
  match c with
  | [] => None
  | (n', v) :: c' => if (n =? n')%nat then Some v else group n c'
  end.

(** The text between the suffix [s] and its suffix [s']. *)
Definition consumed (s s' : string) : string :=
  substring 0 (String.length s - String.length s') s.

Definition is_newline (c : ascii) : bool := Ascii.eqb c (ascii_of_nat 10).

(** The matcher, in continuation-passing style: [k] is what remains to be
    matched after [r].  A repetition only goes on after a turn that consumed
    a character. *)
Fixpoint run (r : regex) (s : string) (c : captures)
         (k : string -> captures -> option captures) {struct r} : option captures :=
  match r with
  | Any =>
      match s with
      | String a s' => if is_newline a then None else k s' c
      | EmptyString => None
      end
  | Cls p =>
      match s with
      | String a s' => if p a then k s' c else None
      | EmptyString => None
      end
  | Chr x =>
      match s with
      | String a s' => if Ascii.eqb a x then k s' c else None
      | EmptyString => None
      end
  | Eps => k s c
  | Seq r1 r2 => run r1 s c (fun s' c' => run r2 s' c' k)
  | Alt r1 r2 =>
      match run r1 s c k with
      | Some res => Some res
      | None => run r2 s c k
      end
  | Star r1 =>
      (fix star (fuel : nat) (s : string) (c : captures) {struct fuel} : option captures :=
         match fuel with
         | O => k s c
         | S fuel' =>
             match run r1 s c
                       (fun s' c' =>
                          if (String.length s' <? String.length s)%nat
                          then star fuel' s' c' else None) with
             | Some res => Some res
             | None => k s c
             end
         end) (String.length s) s c
  | LazyStar r1 =>
      (fix lazy (fuel : nat) (s : string) (c : captures) {struct fuel} : option captures :=
         match k s c with
         | Some res => Some res
         | None =>
             match fuel with
             | O => None
             | S fuel' =>
                 run r1 s c
                     (fun s' c' =>
                        if (String.length s' <? String.length s)%nat
                        then lazy fuel' s' c' else None)
             end
         end) (String.length s) s c
  | Group n r1 => run r1 s c (fun s' c' => k s' (cap_set n (consumed s s') c'))
  | Eol =>
      match s with
      | EmptyString => k s c
      | String a EmptyString => if is_newline a then k s c else None
      | _ => None
      end
  end.

(** [re.match(r, s)] with a pattern that is anchored at the start. *)
Definition rmatch (r : regex) (s : string) : option captures :=
  run r s [] (fun _ c => Some c).

(** [re.search(r, s)]: the match at the leftmost position that has one. *)
Fixpoint search (r : regex) (s : string) : option captures :=
  match rmatch r s with
  | Some c => Some c
  | None =>
      match s with
      | EmptyString => None
      | String _ s' => search r s'
      end
  end.

End Re.

(* ================================================================== *)
(** ** The pre-migration analyzer (analyzers/pre_migration_analyzer.py) *)
(* ================================================================== *)

Record DuplicateObject := mkDuplicateObject {
  dup_type : string;
  dup_original_name : string;
  dup_duplicate_names : list string;
  dup_value : string;
  dup_recommendation : string
}.

Record OverlappingRule := mkOverlappingRule {
  ov_rule_name : string;
  ov_rule_id : nat;
  ov_shadowed_by : string;
  ov_shadowed_by_id : nat;
  ov_reason : string;
  ov_recommendation : string
}.

Record SecurityRisk := mkSecurityRisk {
  risk_severity : string;
  risk_category : string;
  risk_item_name : string;
  risk_description : string;
  risk_recommendation : string
}.

(** The report; its [recommendations] field (free text derived from the
    findings below) is left out. *)
Record AnalysisReport := mkAnalysisReport {
  total_objects : nat;
  total_rules : nat;
  total_nat_rules : nat;
  duplicate_objects : list DuplicateObject;
  overlapping_rules : list OverlappingRule;
  security_risks : list SecurityRisk;
  unused_objects : list string;
  optimization_score : Z;
  security_score : Z;
  complexity_score : Z;
  overall_score : Z
}.

Module Analyzer.

(** [_find_unused_objects] *)
Definition _find_unused_objects (config : FirewallConfig) : list string :=
  let has_hit_data := existsb (fun r => (0 <? rule_hit_count r)%Z) (rules config) in
  if has_hit_data then
    flat_map (fun rule =>
                if rule_enabled rule && (rule_hit_count rule =? 0)%Z
                then ["Rule '" ++ rule_name rule ++ "' (0 hits) - Consider removing"]
                else [])
             (rules config)
  else [].

(** An f-string field holding an [Optional[str]]. *)
Definition fmt_opt (o : option string) : string :=
  match o with Some s => s | None => "None" end.

(** [_get_address_key] *)
Definition _get_address_key (addr : Address) : string :=
  if addr_type addr =? "host" then "host:" ++ addr_value1 addr
  else if addr_type addr =? "network"
       then "network:" ++ addr_value1 addr ++ "/" ++ fmt_opt (addr_value2 addr)
  else if addr_type addr =? "range"
       then "range:" ++ addr_value1 addr ++ "-" ++ fmt_opt (addr_value2 addr)
  else if addr_type addr =? "fqdn" then "fqdn:" ++ lower (addr_value1 addr)
  else "unknown:" ++ addr_value1 addr.

(** [_get_service_key] *)
Definition _get_service_key (svc : Service) : string :=
  let protocol := if truthy (svc_protocol svc) then lower (svc_protocol svc) else "tcp" in
  let port := if truthy (svc_port svc) then svc_port svc else "any" in
  protocol ++ ":" ++ port.

(** [if key not in m: m[key] = []] followed by [m[key].append(x)] *)
Fixpoint dict_append {V} (key : string) (x : V) (m : list (string * list V))
  : list (string * list V) :=
  match m with
  | [] => [(key, [x])]
  | (k, xs) :: m' =>
      if key =? k then (k, (xs ++ [x])%list) :: m' else (k, xs) :: dict_append key x m'
  end.

Definition group_by_key {V} (key : V -> string) (l : list V)
  : list (string * list V) :=
  fold_left (fun m x => dict_append (key x) x m) l [].

(** The loop over [value_map.items()] that reports the keys held by more
    than one object. *)
Definition report_duplicates {V} (ty : string) (name : V -> string)
           (m : list (string * list V)) : list DuplicateObject :=
  flat_map (fun '(key, xs) =>
              match xs with
              | x0 :: rest =>
                  if (1 <? length xs)%nat
                  then [mkDuplicateObject ty (name x0) (map name rest) key
                          ("Keep '" ++ name x0 ++ "', replace "
                             ++ str_of_nat (length xs - 1) ++ " duplicate reference(s)")]
                  else []
              | [] => []
              end) m.

(** [_find_duplicate_objects] *)
Definition _find_duplicate_objects (config : FirewallConfig) : list DuplicateObject :=
  (report_duplicates "address" addr_name (group_by_key _get_address_key (addresses config))
   ++ report_duplicates "service" svc_name
        (group_by_key _get_service_key (services config)))%list.

(** [_is_subset_or_any] *)
Definition _is_subset_or_any (specific broader : list string) : bool :=
  let broader_lower := lower_set broader in
  let specific_lower := lower_set specific in
  if mem "any" broader_lower || mem "all" broader_lower then true
  else if negb (nonempty specific_lower) then false
  else forallb (fun x => mem x broader_lower) specific_lower.

(** [_is_shadowing] *)
Definition _is_shadowing (broader_rule specific_rule : Rule) : bool :=
  if negb (rule_action broader_rule =? rule_action specific_rule) then false
  else if negb (_is_subset_or_any (rule_source specific_rule) (rule_source broader_rule))
  then false
  else if negb (_is_subset_or_any (rule_destination specific_rule)
                                  (rule_destination broader_rule))
  then false
  else if negb (_is_subset_or_any (rule_service specific_rule) (rule_service broader_rule))
  then false
  else true.

(** The entry appended for the pair at positions [i] and [j]. *)
Definition overlap_entry (i : nat) (rule1 : Rule) (j : nat) (rule2 : Rule)
  : OverlappingRule :=
  mkOverlappingRule
    (rule_name rule2) (j + 1) (rule_name rule1) (i + 1)
    ("Broader rule at position " ++ str_of_nat (i + 1) ++ " will match first")
    ("Move rule '" ++ rule_name rule2 ++ "' above '" ++ rule_name rule1
       ++ "' or consolidate rules").

(** [_find_overlapping_rules] *)
Definition _find_overlapping_rules (config : FirewallConfig) : list OverlappingRule :=
  flat_map (fun '(i, rule1) =>
    flat_map (fun '(j, rule2) =>
      if (j <=? i)%nat then []
      else if _is_shadowing rule1 rule2 then [overlap_entry i rule1 j rule2]
      else [])
      (enumerate (rules config)))
    (enumerate (rules config)).

Definition allow_actions : list string := ["allow"; "permit"; "accept"].

(** [rule.action.lower() if rule.action else ''] *)
Definition action_lower (rule : Rule) : string :=
  if truthy (rule_action rule) then lower (rule_action rule) else "".

(** [not s or 'any' in s_lower or 'all' in s_lower] *)
Definition is_any_field (s : list string) : bool :=
  negb (nonempty s) || mem "any" (lower_set s) || mem "all" (lower_set s).

(** [_is_any_any_any] *)
Definition _is_any_any_any (rule : Rule) : bool :=
  if negb (mem (action_lower rule) allow_actions) then false
  else
    let src_any := is_any_field (rule_source rule) in
    let dst_any := is_any_field (rule_destination rule) in
    let svc_any := is_any_field (rule_service rule) in
    src_any && dst_any && svc_any.

Definition critical_risk (rule : Rule) : SecurityRisk :=
  mkSecurityRisk "critical" "any-any-any" (rule_name rule)
    "Rule allows ANY source ‚Üí ANY destination ‚Üí ANY service (unrestricted access)"
    "Restrict at least one of: source, destination, or service to specific objects".

Definition disabled_risk (rule : Rule) : SecurityRisk :=
  mkSecurityRisk "low" "disabled-rule" (rule_name rule)
    "Rule is disabled and may be obsolete"
    "Review and remove if no longer needed to reduce clutter".

Definition no_logging_risk (rule : Rule) : SecurityRisk :=
  mkSecurityRisk "medium" "no-logging" (rule_name rule)
    "Allow rule has no logging enabled (audit trail gap)"
    "Enable logging for security monitoring and compliance".

Definition any_service_risk (rule : Rule) : SecurityRisk :=
  mkSecurityRisk "high" "any-service" (rule_name rule)
    "Rule allows ANY service/port (potential security gap)"
    "Specify explicit services (HTTP, HTTPS, etc.) instead of 'any'".

Definition no_description_risk (rule : Rule) : SecurityRisk :=
  mkSecurityRisk "low" "no-description" (rule_name rule)
    "Rule has no description (reduces maintainability)"
    "Add description explaining the rule's business purpose".

(** [not rule.remark or rule.remark.strip() == ''] *)
Definition no_remark (rule : Rule) : bool :=
  match rule_remark rule with
  | None => true
  | Some s => negb (truthy s) || all_space s
  end.

(** One [for rule in self.config.rules: if test(rule): risks.append(...)]. *)
Definition risk_loop (test : Rule -> bool) (mk : Rule -> SecurityRisk)
           (rs : list Rule) : list SecurityRisk :=
  map mk (filter test rs).

(** [_find_security_risks]: five loops over the rule list, in this order. *)
Definition _find_security_risks (config : FirewallConfig) : list SecurityRisk :=
  let rs := rules config in
  (risk_loop _is_any_any_any critical_risk rs
  ++ risk_loop (fun rule => negb (rule_enabled rule)) disabled_risk rs
  ++ risk_loop (fun rule => mem (action_lower rule) allow_actions
                            && negb (rule_log rule)) no_logging_risk rs
  ++ risk_loop (fun rule => mem (action_lower rule) allow_actions
                            && (mem "any" (lower_set (rule_service rule))
                                || mem "all" (lower_set (rule_service rule))))
               any_service_risk rs
  ++ risk_loop no_remark no_description_risk rs)%list.

(** [max(0, min(100, x))] *)
Definition clamp (x : Z) : Z := Z.max 0 (Z.min 100 x).

Definition severity_deduction (severity : string) : Z :=
  if severity =? "critical" then 20
  else if severity =? "high" then 10
  else if severity =? "medium" then 5
  else 2.

(** [int(x)] on a float: truncation towards zero. *)
Definition py_int (q : Q) : Z :=
  if Qle_bool 0 q then Qfloor q else Qceiling q.

Record Scores := mkScores {
  sc_optimization : Z;
  sc_security : Z;
  sc_complexity : Z;
  sc_overall : Z
}.

(** [_calculate_scores].  The floating-point products and sums are exact:
    every operand is a multiple of 1/4 of magnitude at most 100, so they are
    computed here in [Q]. *)
Definition _calculate_scores (config : FirewallConfig)
           (duplicates : list DuplicateObject) (overlaps : list OverlappingRule)
           (risks : list SecurityRisk) (unused : list string) : Scores :=
  let optimization_deductions :=
    (Z.of_nat (length duplicates) * 5 + Z.of_nat (length unused) * 2)%Z in
  let optimization_score := clamp (100 - optimization_deductions) in
  let security_deductions :=
    fold_left (fun acc risk => (acc + severity_deduction (risk_severity risk))%Z) risks 0%Z in
  let security_score := clamp (100 - security_deductions) in
  let complexity_deductions0 := (Z.of_nat (length overlaps) * 10)%Z in
  let total_rules := Z.of_nat (length (rules config)) in
  let complexity_deductions :=
    if (500 <? total_rules)%Z then (complexity_deductions0 + 20)%Z
    else if (200 <? total_rules)%Z then (complexity_deductions0 + 10)%Z
    else complexity_deductions0 in
  let complexity_score := clamp (100 - complexity_deductions) in
  let overall_score :=
    py_int (inject_Z optimization_score * (25 # 100)
            + inject_Z security_score * (50 # 100)
            + inject_Z complexity_score * (25 # 100))%Q in
  mkScores optimization_score security_score complexity_score overall_score.

(** [analyze] *)
Definition analyze (config : FirewallConfig) : AnalysisReport :=
  let duplicates := _find_duplicate_objects config in
  let overlaps := _find_overlapping_rules config in
  let risks := _find_security_risks config in
  let unused := _find_unused_objects config in
  let scores := _calculate_scores config duplicates overlaps risks unused in
  mkAnalysisReport
    (length (addresses config) + length (services config))
    (length (rules config))
    (length (nat_rules config))
    duplicates overlaps risks unused
    (sc_optimization scores) (sc_security scores) (sc_complexity scores)
    (sc_overall scores).

(** *** The properties as the specification words them *)

(** "each either empty or contained in {any, all} (case-insensitive)" *)
Definition spec_empty_or_within_any_all (s : list string) : bool :=
  forallb (fun x => mem (lower x) ["any"; "all"]) s.

(** "action is allow and source, destination and service are each either
    empty or contained in {any, all}" *)
Definition spec_any_any_any (r : Rule) : bool :=
  (rule_action r =? "allow")
  && spec_empty_or_within_any_all (rule_source r)
  && spec_empty_or_within_any_all (rule_destination r)
  && spec_empty_or_within_any_all (rule_service r).

(** "a subset of rule i's set, where any or all appearing in rule i's set
    makes that set universal" *)
Definition spec_subset_or_universal (specific broader : list string) : bool :=
  mem "any" (lower_set broader) || mem "all" (lower_set broader)
  || forallb (fun x => mem x broader) specific.

(** "same action and rule j's source, destination and service sets are each
    subsets of rule i's" *)
Definition spec_shadows (rule_i rule_j : Rule) : bool :=
  (rule_action rule_i =? rule_action rule_j)
  && spec_subset_or_universal (rule_source rule_j) (rule_source rule_i)
  && spec_subset_or_universal (rule_destination rule_j) (rule_destination rule_i)
  && spec_subset_or_universal (rule_service rule_j) (rule_service rule_i).

(** "round(0.25 optimization + 0.50 security + 0.25 complexity)": [n] is an
    integer nearest to the weighted sum (either neighbour on a tie). *)
Definition spec_weighted (opt sec cx : Z) : Q :=
  (inject_Z opt * (25 # 100) + inject_Z sec * (50 # 100) + inject_Z cx * (25 # 100))%Q.

Definition spec_is_round (q : Q) (n : Z) : Prop :=
  (Qabs (q - inject_Z n) <= 1 # 2)%Q.

End Analyzer.

(** *** Vocabulary of the statements about the analyzer *)

Module AnalyzerSpec.
Import Analyzer.

(** The critical findings of a report, in report order. *)
Definition critical_risks (report : AnalysisReport) : list SecurityRisk :=
  filter (fun k => risk_severity k =? "critical") (security_risks report).

(** A rule field counts as unrestricted: it is empty or one of its members
    is [any] or [all] in some capitalisation. *)
Definition unrestricted (s : list string) : Prop :=
  s = [] \/ exists x, In x s /\ (lower x = "any" \/ lower x = "all").

(** [broader] covers [specific]: it has a member [any]/[all], or [specific]
    is not empty and each of its members occurs in [broader] up to case. *)
Definition covers (specific broader : list string) : Prop :=
  (exists y, In y broader /\ (lower y = "any" \/ lower y = "all"))
  \/ (specific <> [] /\
      forall x, In x specific -> exists y, In y broader /\ lower y = lower x).

End AnalyzerSpec.

(* ================================================================== *)
(** ** The Fortinet parser (parsers/fortinet_parser.py) *)
(* ================================================================== *)

Module FortinetParser.

Definition ch (n : nat) : ascii := ascii_of_nat n.
Definition space : ascii := ch 32.
Definition dquote : ascii := ch 34.

(** [_get_edit_value] *)
Definition _get_edit_value (line : string) : string :=
  match split_max space 1 line with
  | [_; p1] => unquote (strip p1)
  | _ => ""
  end.

(** [_get_set_value] *)
Definition _get_set_value (line : string) : string :=
  match split_max space 2 line with
  | [_; _; p2] => unquote (strip p2)
  | _ => ""
  end.

(** The first alternative of the pattern of [_extract_multi_values], a
    non-empty run of characters other than the double quote between two
    double quotes, tried at the head of [s]: the quoted text and what
    follows it. *)
Definition quoted_token (s : string) : option (string * string) :=
  match s with
  | String q r =>
      if Ascii.eqb q dquote then
        match break_at dquote r with
        | Some (inside, rest) => if truthy inside then Some (inside, rest) else None
        | None => None
        end
      else None
  | EmptyString => None
  end.

(** The alternative [(\S+)]: the longest run of non-space characters. *)
Fixpoint span_nonspace (s : string) : string * string :=
  match s with
  | EmptyString => (EmptyString, EmptyString)
  | String c r =>
      if is_space c then (EmptyString, s)
      else let (tok, rest) := span_nonspace r in (String c tok, rest)
  end.

(** [re.findall] of the two alternatives over [content], with
    [m[0] or m[1]] taken of each match; [fuel] bounds the scan steps. *)
Fixpoint findall_values (fuel : nat) (s : string) : list string :=
  match fuel with
  | O => []
  | S fuel' =>
      match s with
      | EmptyString => []
      | String _ r =>
          match quoted_token s with
          | Some (tok, rest) => tok :: findall_values fuel' rest
          | None =>
              let (tok, rest) := span_nonspace s in
              if truthy tok then tok :: findall_values fuel' rest
              else findall_values fuel' r
          end
      end
  end.

(** [_extract_multi_values] *)
Definition _extract_multi_values (line : string) : list string :=
  match split_max space 2 line with
  | [_; _; content] => findall_values (S (String.length content)) content
  | _ => []
  end.

(** [re.sub(r'^(TCP/UDP|UDP/TCP)[_\-\s]*', '', name, flags=re.IGNORECASE)] *)
Definition strip_mixed_prefix (name : string) : string :=
  let head := lower (substring 0 7 name) in
  if (head =? "tcp/udp") || (head =? "udp/tcp")
  then lstrip_by (fun c => Ascii.eqb c (ch 95) || Ascii.eqb c (ch 45) || is_space c)
                 (substring 7 (String.length name - 7) name)
  else name.

(** [_clean_service_name] *)
Definition _clean_service_name (name : string) : string :=
  let clean := strip_mixed_prefix name in
  let clean := remove_char (ch 92) (remove_char (ch 47) clean) in
  let clean := lstrip_by (fun c => Ascii.eqb c (ch 95) || Ascii.eqb c (ch 45)
                                   || Ascii.eqb c (ch 46) || Ascii.eqb c space) clean in
  let clean := strip clean in
  if negb (truthy clean)
  then replace_char (ch 92) (ch 95) (replace_char (ch 47) (ch 95) name)
  else clean.

(** [re.match(r'^\d+$', s)]: digits up to the end, or up to a final newline. *)
Definition is_digit (c : ascii) : bool :=
  let n := nat_of_ascii c in (48 <=? n)%nat && (n <=? 57)%nat.



(** [f"eq {p}" if '-' not in p else f"range {p.replace('-', ' ')}"] *)
Definition port_str (p : string) : string :=
  if negb (has_char (ch 45) p) then "eq " ++ p
  else "range " ++ replace_char (ch 45) space p.












(** The [rule] dictionary and the two NAT variables of [_parse_policy_entry]. *)
Record PolicyAcc := mkPolicyAcc {
  p_name : string;
  p_action : string;
  p_enabled : bool;
  p_source_interface : list string;
  p_destination_interface : list string;
  p_source : list string;
  p_destination : list string;
  p_service : list string;
  p_remark : option string;
  p_security_profiles : list (string * string);
  is_nat_enabled : bool;
  nat_pool_name : option string
}.

(** One turn of the loop over [entry_lines[1:]]. *)
Definition scan_policy_line (a : PolicyAcc) (line : string) : PolicyAcc :=
  if startswith "set name" line then
    mkPolicyAcc (_get_set_value line) (p_action a) (p_enabled a) (p_source_interface a)
      (p_destination_interface a) (p_source a) (p_destination a) (p_service a)
      (p_remark a) (p_security_profiles a) (is_nat_enabled a) (nat_pool_name a)
  else if startswith "set srcintf" line then
    mkPolicyAcc (p_name a) (p_action a) (p_enabled a)
      (set_update (_extract_multi_values line) (p_source_interface a))
      (p_destination_interface a) (p_source a) (p_destination a) (p_service a)
      (p_remark a) (p_security_profiles a) (is_nat_enabled a) (nat_pool_name a)
  else if startswith "set dstintf" line then
    mkPolicyAcc (p_name a) (p_action a) (p_enabled a) (p_source_interface a)
      (set_update (_extract_multi_values line) (p_destination_interface a))
      (p_source a) (p_destination a) (p_service a)
      (p_remark a) (p_security_profiles a) (is_nat_enabled a) (nat_pool_name a)
  else if startswith "set srcaddr" line then
    mkPolicyAcc (p_name a) (p_action a) (p_enabled a) (p_source_interface a)
      (p_destination_interface a)
      (set_update (_extract_multi_values line) (p_source a))
      (p_destination a) (p_service a)
      (p_remark a) (p_security_profiles a) (is_nat_enabled a) (nat_pool_name a)
  else if startswith "set dstaddr" line then
    mkPolicyAcc (p_name a) (p_action a) (p_enabled a) (p_source_interface a)
      (p_destination_interface a) (p_source a)
      (set_update (_extract_multi_values line) (p_destination a))
      (p_service a)
      (p_remark a) (p_security_profiles a) (is_nat_enabled a) (nat_pool_name a)
  else if startswith "set service" line then
    mkPolicyAcc (p_name a) (p_action a) (p_enabled a) (p_source_interface a)
      (p_destination_interface a) (p_source a) (p_destination a)
      (set_update (_extract_multi_values line) (p_service a))
      (p_remark a) (p_security_profiles a) (is_nat_enabled a) (nat_pool_name a)
  else if startswith "set action" line then
    mkPolicyAcc (p_name a)
      (if _get_set_value line =? "accept" then "allow" else "deny")
      (p_enabled a) (p_source_interface a)
      (p_destination_interface a) (p_source a) (p_destination a) (p_service a)
      (p_remark a) (p_security_profiles a) (is_nat_enabled a) (nat_pool_name a)
  else if startswith "set status" line then
    mkPolicyAcc (p_name a) (p_action a) (_get_set_value line =? "enable")
      (p_source_interface a)
      (p_destination_interface a) (p_source a) (p_destination a) (p_service a)
      (p_remark a) (p_security_profiles a) (is_nat_enabled a) (nat_pool_name a)
  else if startswith "set comments" line then
    mkPolicyAcc (p_name a) (p_action a) (p_enabled a) (p_source_interface a)
      (p_destination_interface a) (p_source a) (p_destination a) (p_service a)
      (Some (_get_set_value line)) (p_security_profiles a) (is_nat_enabled a)
      (nat_pool_name a)
  else if startswith "set nat enable" line then
    mkPolicyAcc (p_name a) (p_action a) (p_enabled a) (p_source_interface a)
      (p_destination_interface a) (p_source a) (p_destination a) (p_service a)
      (p_remark a) (p_security_profiles a) true (nat_pool_name a)
  else if startswith "set poolname" line then
    mkPolicyAcc (p_name a) (p_action a) (p_enabled a) (p_source_interface a)
      (p_destination_interface a) (p_source a) (p_destination a) (p_service a)
      (p_remark a) (p_security_profiles a) (is_nat_enabled a)
      (Some (_get_set_value line))
  else if startswith "set ips-sensor" line then
    mkPolicyAcc (p_name a) (p_action a) (p_enabled a) (p_source_interface a)
      (p_destination_interface a) (p_source a) (p_destination a) (p_service a)
      (p_remark a) (dict_set "ips" (_get_set_value line) (p_security_profiles a))
      (is_nat_enabled a) (nat_pool_name a)
  else if startswith "set av-profile" line then
    mkPolicyAcc (p_name a) (p_action a) (p_enabled a) (p_source_interface a)
      (p_destination_interface a) (p_source a) (p_destination a) (p_service a)
      (p_remark a) (dict_set "av" (_get_set_value line) (p_security_profiles a))
      (is_nat_enabled a) (nat_pool_name a)
  else a.

(** The state of the loop before its first turn. *)
Definition policy_init (entry_lines : list string) : PolicyAcc :=
  mkPolicyAcc ("Rule_" ++ _get_edit_value (hd "" entry_lines)) "deny" true
              [] [] [] [] [] None [] false None.

Definition scan_policy (entry_lines : list string) : PolicyAcc :=
  fold_left scan_policy_line (tl entry_lines) (policy_init entry_lines).

(** [if not s: s.add(x)] *)
Definition default_to (x : string) (s : list string) : list string :=
  if negb (nonempty s) then set_add x s else s.

(** The [Rule] built from the [rule] dictionary and appended by
    [_parse_policy_entry]. *)
Definition policy_rule (entry_lines : list string) (sequence_id : Z) : Rule :=
  let a := scan_policy entry_lines in
  mkRule sequence_id (p_name a) (p_action a) (p_remark a) (p_enabled a) false 0 None
    (p_source_interface a) (p_destination_interface a)
    (default_to "all" (p_source a)) (default_to "all" (p_destination a))
    (default_to "ALL" (p_service a)) [] (p_security_profiles a) None None
    (join_lines entry_lines).

(** The [NatRule] built when NAT is enabled and a pool is named. *)
Definition policy_nat_rule (entry_lines : list string) (sequence_id : Z) : NatRule :=
  let a := scan_policy entry_lines in
  let rule := policy_rule entry_lines sequence_id in
  mkNatRule sequence_id ("NAT_" ++ rule_name rule) (rule_source rule)
    (nat_pool_name a) (rule_destination rule) None (rule_service rule) None
    (rule_source_interface rule) (rule_destination_interface rule)
    (rule_enabled rule) (rule_remark rule) (join_lines entry_lines).

(** [_parse_policy_entry]; [entry_lines] is never empty when it is called. *)
Definition _parse_policy_entry (entry_lines : list string) (cfg : FirewallConfig)
           (sequence_id : Z) : FirewallConfig :=
  let a := scan_policy entry_lines in
  let cfg := with_rules cfg (rules cfg ++ [policy_rule entry_lines sequence_id])%list in
  if is_nat_enabled a && opt_truthy (nat_pool_name a)
  then with_nat_rules cfg (nat_rules cfg ++ [policy_nat_rule entry_lines sequence_id])%list
  else cfg.


Section ParseBlock.

(** What the entry parsers update, and [entry_parser_func]: called with the
    entry lines, the state and the sequence counter; [None] stands for the
    call without the counter. *)
Variable St : Type.
Variable entry_parser_func : list string -> St -> option Z -> St.

(** [process_entry] of [_parse_block] *)
Definition process_entry (current_entry_lines : list string) (st : St)
           (sequence_counter : option Z) : St * option Z :=
  if negb (nonempty current_entry_lines) then (st, sequence_counter)
  else
    match sequence_counter with
    | Some k => (entry_parser_func current_entry_lines st (Some k), Some (k + 1)%Z)
    | None => (entry_parser_func current_entry_lines st None, None)
    end.

(** The [while] loop of [_parse_block] over [lines[i:]]. *)
Fixpoint block_loop (rest : list string) (i : nat) (current_entry_lines : list string)
         (st : St) (sequence_counter : option Z) : nat * option Z * St :=
  match rest with
  | [] =>
      let (st, sequence_counter) := process_entry current_entry_lines st sequence_counter in
      (i, sequence_counter, st)
  | line :: rest' =>
      if line =? "end" then
        let (st, sequence_counter) :=
          process_entry current_entry_lines st sequence_counter in
        ((i + 1)%nat, sequence_counter, st)
      else if startswith "edit " line then
        let (st, sequence_counter) :=
          process_entry current_entry_lines st sequence_counter in
        block_loop rest' (i + 1)%nat [line] st sequence_counter
      else if startswith "next" line then
        let (st, sequence_counter) :=
          process_entry current_entry_lines st sequence_counter in
        block_loop rest' (i + 1)%nat [] st sequence_counter
      else
        block_loop rest' (i + 1)%nat (current_entry_lines ++ [line])%list st
                   sequence_counter
  end.

(** [_parse_block]: the index after the block, the sequence counter and the
    state afterwards. *)
Definition _parse_block (index : nat) (lines : list string) (st : St)
           (sequence_counter : option Z) : nat * option Z * St :=
  block_loop (skipn (index + 1) lines) (index + 1)%nat [] st sequence_counter.

(** The calls of [entry_parser_func] on a list of entries, each with the
    counter advanced by its position in the list. *)
Definition advance (sequence_counter : option Z) (n : nat) : option Z :=
  option_map (fun k => (k + Z.of_nat n)%Z) sequence_counter.

Definition parse_entries (sequence_counter : option Z) (entries : list (list string))
           (st : St) : St :=
  fold_left (fun s '(n, e) => entry_parser_func e s (advance sequence_counter n))
            (enumerate entries) st.

End ParseBlock.

(** [_parse_policy_entry] as the entry parser of a policy block; it is
    called with the counter only. *)
Definition policy_entry_parser (entry_lines : list string) (cfg : FirewallConfig)
           (sequence_counter : option Z) : FirewallConfig :=
  match sequence_counter with
  | Some k => _parse_policy_entry entry_lines cfg k
  | None => cfg
  end.

(** *** Vocabulary of the statements about [_parse_block] *)

(** A line inside an entry: not the closing [end], and neither the start of
    an entry nor its [next]. *)
Definition inner_line (line : string) : bool :=
  negb (line =? "end") && negb (startswith "edit " line) && negb (startswith "next" line).

(** An entry as a block lists it: its [edit] line, then inner lines. *)
Definition block_entry (entry_lines : list string) : bool :=
  match entry_lines with
  | edit_line :: body => startswith "edit " edit_line && forallb inner_line body
  | [] => false
  end.

(** The lines of a block that lists [entries], each closed by [next], after
    its [config] line [header] and before the closing [end]. *)
Definition block_lines (header : string) (entries : list (list string)) : list string :=
  (header :: flat_map (fun e => e ++ ["next"]) entries ++ ["end"])%list.

(** The NAT rules that [_parse_policy_entry] appends for an entry. *)
Definition policy_nat_rules (entry_lines : list string) (sequence_id : Z) : list NatRule :=
  if is_nat_enabled (scan_policy entry_lines)
     && opt_truthy (nat_pool_name (scan_policy entry_lines))
  then [policy_nat_rule entry_lines sequence_id] else [].

(** *** The two passes of [parse] over the services *)





End FortinetParser.

(* ================================================================== *)
(** ** The Cisco ASA parser (parsers/cisco_asa_parser.py) *)
(* ================================================================== *)

Module CiscoAsaParser.
Import Re.

(** [nat \((.+?),(.+?)\)] followed by [.*], the head of the four manual NAT
    patterns. *)
Definition nat_head : regex :=
  Seq (Lit "nat (")
      (Seq (Group 1 (LazyPlus Any))
           (Seq (Lit ",")
                (Seq (Group 2 (LazyPlus Any))
                     (Seq (Lit ")") (Star Any))))).

(** [_RE_MANUAL_TWICE_NAT]:
    [nat \((.+?),(.+?)\).*source static (\S+) (\S+) destination static (\S+) (\S+)] *)
Definition _RE_MANUAL_TWICE_NAT : regex :=
  Seq nat_head
      (Seq (Lit "source static ")
           (Seq (Group 3 (Plus NonSpace))
                (Seq (Lit " ")
                     (Seq (Group 4 (Plus NonSpace))
                          (Seq (Lit " destination static ")
                               (Seq (Group 5 (Plus NonSpace))
                                    (Seq (Lit " ") (Group 6 (Plus NonSpace))))))))).

(** [_RE_MANUAL_STATIC_NAT]:
    [nat \((.+?),(.+?)\).*source static (\S+) (\S+?)( unidirectional)?$] *)
Definition _RE_MANUAL_STATIC_NAT : regex :=
  Seq nat_head
      (Seq (Lit "source static ")
           (Seq (Group 3 (Plus NonSpace))
                (Seq (Lit " ")
                     (Seq (Group 4 (LazyPlus NonSpace))
                          (Seq (Opt (Group 5 (Lit " unidirectional"))) Eol))))).

(** [_RE_MANUAL_DYNAMIC_PAT]:
    [nat \((.+?),(.+?)\).*source dynamic (\S+) interface] *)
Definition _RE_MANUAL_DYNAMIC_PAT : regex :=
  Seq nat_head
      (Seq (Lit "source dynamic ")
           (Seq (Group 3 (Plus NonSpace)) (Lit " interface"))).

(** [_RE_MANUAL_DYNAMIC_NAT]:
    [nat \((.+?),(.+?)\).*source dynamic (\S+) (\S+)] *)
Definition _RE_MANUAL_DYNAMIC_NAT : regex :=
  Seq nat_head
      (Seq (Lit "source dynamic ")
           (Seq (Group 3 (Plus NonSpace))
                (Seq (Lit " ") (Group 4 (Plus NonSpace))))).

(** [_get_new_name] *)
Definition _get_new_name (original_name context_name : string)
           (duplicates : list string) : string :=
  if mem original_name duplicates && negb (context_name =? "default")
  then original_name ++ "_" ++ context_name
  else original_name.

(** A group of a successful match that always takes part in it. *)
Definition grp (n : nat) (c : captures) : string :=
  match group n c with Some v => v | None => "" end.

(** [_parse_nat_rule_line]: the configuration with the NAT rules appended,
    and the next sequence number. *)
Definition _parse_nat_rule_line (line : string) (cfg : FirewallConfig)
           (context_name : string) (duplicates : list string) (nat_seq_counter : Z)
  : FirewallConfig * Z :=
  let is_enabled := negb (contains "inactive" line) in
  let new_name x := _get_new_name x context_name duplicates in
  match search _RE_MANUAL_TWICE_NAT line with
  | Some m =>
      let src_intf := grp 1 m in let dst_intf := grp 2 m in
      let orig_src := grp 3 m in let mapped_src := grp 4 m in
      let orig_dst := grp 5 m in let mapped_dst := grp 6 m in
      (with_nat_rules cfg
         (nat_rules cfg ++
          [mkNatRule nat_seq_counter ("TwiceNAT_" ++ orig_src ++ "_" ++ orig_dst)
             [new_name orig_src] (Some (new_name mapped_src))
             [new_name orig_dst] (Some (new_name mapped_dst))
             [] None [strip src_intf] [strip dst_intf] is_enabled None line])%list,
       (nat_seq_counter + 1)%Z)
  | None =>
  match search _RE_MANUAL_STATIC_NAT line with
  | Some m =>
      let src_intf := grp 1 m in let dst_intf := grp 2 m in
      let orig_src := grp 3 m in
      let unidirectional := group 5 m in
      let mapped_src := strip (grp 4 m) in
      let cfg := with_nat_rules cfg
         (nat_rules cfg ++
          [mkNatRule nat_seq_counter ("StaticNAT_" ++ orig_src)
             [new_name orig_src] (Some (new_name mapped_src))
             [] None
             [] None [strip src_intf] [strip dst_intf] is_enabled None line])%list in
      let nat_seq_counter := (nat_seq_counter + 1)%Z in
      if negb (opt_truthy unidirectional) then
        (with_nat_rules cfg
           (nat_rules cfg ++
            [mkNatRule nat_seq_counter ("StaticNAT_Reverse_" ++ orig_src)
               [] None
               [new_name mapped_src] (Some (new_name orig_src))
               [] None [strip dst_intf] [strip src_intf] is_enabled None
               ("! Auto-generated reverse NAT for " ++ orig_src)])%list,
         (nat_seq_counter + 1)%Z)
      else (cfg, nat_seq_counter)
  | None =>
  match search _RE_MANUAL_DYNAMIC_PAT line with
  | Some m =>
      let src_intf := grp 1 m in let dst_intf := grp 2 m in
      let orig_src := grp 3 m in
      (with_nat_rules cfg
         (nat_rules cfg ++
          [mkNatRule nat_seq_counter ("DynamicPAT_" ++ orig_src)
             [new_name orig_src] (Some "dynamic-ip-and-port")
             [] None
             [] None [strip src_intf] [strip dst_intf] is_enabled None line])%list,
       (nat_seq_counter + 1)%Z)
  | None =>
  match search _RE_MANUAL_DYNAMIC_NAT line with
  | Some m =>
      let src_intf := grp 1 m in let dst_intf := grp 2 m in
      let orig_src := grp 3 m in let mapped_src := grp 4 m in
      (with_nat_rules cfg
         (nat_rules cfg ++
          [mkNatRule nat_seq_counter ("DynamicNAT_" ++ orig_src)
             [new_name orig_src] (Some (new_name mapped_src))
             [] None
             [] None [strip src_intf] [strip dst_intf] is_enabled None line])%list,
       (nat_seq_counter + 1)%Z)
  | None => (cfg, nat_seq_counter)
  end end end end.

End CiscoAsaParser.

(* ================================================================== *)
(** ** The Fortinet generator (generators/fortinet_generator.py) *)
(* ================================================================== *)

Module FortinetGenerator.

(** [FORTINET_DEFAULTS]: name, protocol and port of the built-in services, in
    the order of the dictionary. *)
Definition FORTINET_DEFAULTS : list (string * (string * option string)) :=
  [("ALL", ("ip", None));
   ("ALL_TCP", ("tcp", Some "1-65535"));
   ("ALL_UDP", ("udp", Some "1-65535"));
   ("ALL_ICMP", ("icmp", None));
   ("PING", ("icmp", None));
   ("IKE", ("udp", Some "500"));
   ("HTTP", ("tcp", Some "80"));
   ("HTTPS", ("tcp", Some "443"));
   ("SSH", ("tcp", Some "22"));
   ("TELNET", ("tcp", Some "23"));
   ("FTP", ("tcp", Some "21"));
   ("SMTP", ("tcp", Some "25"));
   ("DNS", ("udp", Some "53"));
   ("NTP", ("udp", Some "123"));
   ("SNMP", ("udp", Some "161"));
   ("LDAP", ("tcp", Some "389"));
   ("LDAPS", ("tcp", Some "636"));
   ("BGP", ("tcp", Some "179"));
   ("SYSLOG", ("udp", Some "514"));
   ("NFS", ("tcp", Some "2049"));
   ("GRE", ("ip", None));
   ("DHCP", ("udp", Some "67"));
   ("PPTP", ("tcp", Some "1723"));
   ("RDP", ("tcp", Some "3389"));
   ("NETBIOS-SSN", ("tcp", Some "139"));
   ("ONC-RPC", ("tcp", Some "111"))].

(** [PORT_NAME_MAP] *)
Definition PORT_NAME_MAP : list (string * string) :=
  [("isakmp", "500"); ("bootps", "67"); ("bootpc", "68"); ("domain", "53");
   ("www", "80"); ("pop3", "110"); ("imap4", "143"); ("sunrpc", "111");
   ("pptp", "1723"); ("ldaps", "636"); ("ms-wbt-server", "3389"); ("rdp", "3389");
   ("netbios-ssn", "139")].

Definition ch (n : nat) : ascii := ascii_of_nat n.

(** [lo <= n <= hi] *)
Definition between (lo hi n : nat) : bool := (lo <=? n)%nat && (n <=? hi)%nat.

(** [\w] of a [str] pattern compiled without [re.ASCII]: the underscore and
    every alphanumeric character, those beyond ASCII included.  On the code
    points a character of the embedding can hold, 0 to 255, these are the
    ASCII digits and letters, the underscore, and of the upper half the
    ordinal indicators (170, 186), the superscript digits (178, 179, 185),
    the micro sign (181), the vulgar fractions (188 to 190) and the letters
    192 to 255 but for the multiplication and division signs (215, 247). *)
Definition is_word (c : ascii) : bool :=
  let n := nat_of_ascii c in
  between 48 57 n || between 65 90 n || between 97 122 n || (n =? 95)%nat
  || (n =? 170)%nat || between 178 179 n || (n =? 181)%nat || between 185 186 n
  || between 188 190 n || between 192 214 n || between 216 246 n
  || between 248 255 n.

(** [re.sub(r'[^\w.\-]', '_', name)] *)
Fixpoint sub_unsafe (s : string) : string :=
  match s with
  | EmptyString => EmptyString
  | String c r =>
      String (if is_word c || Ascii.eqb c (ch 46) || Ascii.eqb c (ch 45) then c else ch 95)
             (sub_unsafe r)
  end.

(** [while '--' in s: s = s.replace('--', '-')]; every turn shortens [s]. *)
Fixpoint collapse_dashes (fuel : nat) (s : string) : string :=
  match fuel with
  | O => s
  | S fuel' =>
      if contains "--" s then collapse_dashes fuel' (replace "--" "-" s)
      else s
  end.

Definition is_underscore (c : ascii) : bool := Ascii.eqb c (ch 95).

(** [_sanitize_name] *)
Definition _sanitize_name (name : string) : string :=
  if negb (truthy name) then ""
  else
    let safe_name := sub_unsafe name in
    let safe_name := replace "UDP_eq-" "UDP-" (replace "TCP_eq-" "TCP-" safe_name) in
    let safe_name := replace "udp_eq-" "UDP-" (replace "tcp_eq-" "TCP-" safe_name) in
    let safe_name := collapse_dashes (String.length safe_name) safe_name in
    substring 0 79 (rstrip_by is_underscore (lstrip_by is_underscore safe_name)).

(** [_normalize_port] *)
Definition _normalize_port (port_str : string) : option string :=
  if negb (truthy port_str) then None
  else
    let clean := strip (replace "range " "" (replace "eq " "" (lower port_str))) in
    match dict_get clean PORT_NAME_MAP with
    | Some p => Some p
    | None =>
        if has_char (ch 32) clean then Some (replace_char (ch 32) (ch 45) clean)
        else Some clean
    end.

(** [port_norm == str(def_val['port'])] *)
Definition port_matches (port_norm : option string) (def_port : string) : bool :=
  match port_norm with
  | Some p => p =? def_port
  | None => false
  end.

(** The inner loop of [_optimize_configuration] over
    [FORTINET_DEFAULTS.items()]: the first default with the protocol [proto]
    that has no port or the port [port_norm]. *)
Fixpoint find_default (defaults : list (string * (string * option string)))
         (proto : string) (port_norm : option string) : option string :=
  match defaults with
  | [] => None
  | (def_name, (def_proto, def_port)) :: rest =>
      if def_proto =? proto then
        match def_port with
        | None => Some def_name
        | Some p => if port_matches port_norm p then Some def_name
                    else find_default rest proto port_norm
        end
      else find_default rest proto port_norm
  end.

(** The first loop: [replacement_map] and [services_to_remove]. *)
Definition scan_services (svcs : list Service)
  : list (string * string) * list string :=
  fold_left
    (fun '(replacement_map, services_to_remove) svc =>
       if dict_has (svc_name svc) FORTINET_DEFAULTS
       then (replacement_map, services_to_remove)
       else
         let proto := lower (svc_protocol svc) in
         let port_norm := _normalize_port (svc_port svc) in
         match find_default FORTINET_DEFAULTS proto port_norm with
         | Some def_name =>
             (dict_set (svc_name svc) def_name replacement_map,
              set_add (svc_name svc) services_to_remove)
         | None => (replacement_map, services_to_remove)
         end)
    svcs ([], []).

(** [replace_in_collection] *)
Definition replace_in_collection (replacement_map : list (string * string))
           (collection : list string) : list string :=
  fold_left
    (fun new_col item =>
       match dict_get item replacement_map with
       | Some d => set_add d new_col
       | None => set_add item new_col
       end)
    collection [].

Definition with_nat_services (n : NatRule) (orig : list string) (tr : option string)
  : NatRule :=
  mkNatRule (nat_sequence_id n) (nat_name n) (nat_original_source n)
    (nat_translated_source n) (nat_original_destination n)
    (nat_translated_destination n) orig tr
    (nat_source_interface n) (nat_destination_interface n) (nat_enabled n)
    (nat_remark n) (nat_original_text n).

(** [_optimize_configuration]: the configuration it leaves in [self.config]. *)
Definition _optimize_configuration (c : FirewallConfig) : FirewallConfig :=
  let '(replacement_map, services_to_remove) := scan_services (services c) in
  if negb (nonempty replacement_map) then c
  else
    let c := with_rules c
               (map (fun rule =>
                       with_rule_service rule
                         (replace_in_collection replacement_map (rule_service rule)))
                    (rules c)) in
    let c := with_nat_rules c
               (map (fun nat =>
                       with_nat_services nat
                         (replace_in_collection replacement_map (nat_original_service nat))
                         (match nat_translated_service nat with
                          | Some ts =>
                              if truthy ts then
                                match dict_get ts replacement_map with
                                | Some d => Some d
                                | None => Some ts
                                end
                              else Some ts
                          | None => None
                          end))
                    (nat_rules c)) in
    let c := with_service_groups c
               (map (fun grp =>
                       with_sgrp_members grp
                         (replace_in_collection replacement_map (sgrp_members grp)))
                    (service_groups c)) in
    with_services c
      (filter (fun s => negb (mem (svc_name s) services_to_remove)) (services c)).

(** [int(s)] on a string: white space around an optional sign and decimal
    digits, single underscores allowed between digits. *)
Definition is_digit (c : ascii) : bool :=
  let n := nat_of_ascii c in (48 <=? n)%nat && (n <=? 57)%nat.

Fixpoint digits_value (s : string) (acc : Z) (after_digit : bool) : option Z :=
  match s with
  | EmptyString => if after_digit then Some acc else None
  | String c r =>
      if is_digit c
      then digits_value r (acc * 10 + Z.of_nat (nat_of_ascii c - 48))%Z true
      else if is_underscore c && after_digit then digits_value r acc false
      else None
  end.

Definition int_of_string (s : string) : option Z :=
  match strip s with
  | String c r =>
      if Ascii.eqb c (ch 45) then option_map Z.opp (digits_value r 0 false)
      else if Ascii.eqb c (ch 43) then digits_value r 0 false
      else digits_value (String c r) 0 false
  | EmptyString => None
  end.

(** The text written for one address by the loop of [_generate_addresses];
    the [Address] class has no [description], so no comment is written. *)
Definition address_block (addr : Address) : string :=
  let name := _sanitize_name (addr_name addr) in
  let head := "    edit " ++ String (ch 34) name ++ String (ch 34) nl in
  let v1 := addr_value1 addr in
  let v2 := Analyzer.fmt_opt (addr_value2 addr) in
  let body :=
    if addr_type addr =? "host" then
      "        set subnet " ++ v1 ++ " 255.255.255.255" ++ nl
    else if addr_type addr =? "network" then
      match match addr_value2 addr with
            | Some s => int_of_string s
            | None => None
            end with
      | Some n =>
          if (n <=? 32)%Z then "        set subnet " ++ v1 ++ "/" ++ v2 ++ nl
          else "        set subnet " ++ v1 ++ " " ++ v2 ++ nl
      | None => "        set subnet " ++ v1 ++ " " ++ v2 ++ nl
      end
    else if addr_type addr =? "range" then
      if match addr_value2 addr with Some s => v1 =? s | None => false end then
        "        set subnet " ++ v1 ++ " 255.255.255.255" ++ nl
      else
        "        set type iprange" ++ nl
        ++ "        set start-ip " ++ v1 ++ nl
        ++ "        set end-ip " ++ v2 ++ nl
    else if addr_type addr =? "fqdn" then
      "        set type fqdn" ++ nl
      ++ "        set fqdn " ++ String (ch 34) v1 ++ String (ch 34) nl
    else "" in
  head ++ body ++ "    next" ++ nl.

(** [_generate_addresses]: the text written to [f]; the addresses are taken
    in the iteration order of the set. *)
Definition _generate_addresses (c : FirewallConfig) : string :=
  if negb (nonempty (addresses c)) then ""
  else "config firewall address" ++ nl
       ++ String.concat "" (map address_block (addresses c))
       ++ "end" ++ nl ++ nl.

(** The effect of [generate] on the configuration held by the generator:
    [_optimize_configuration] runs first, and nothing after it assigns to
    the configuration or to an object in it. *)
Definition generate_config (c : FirewallConfig) : FirewallConfig :=
  _optimize_configuration c.

(** *** Vocabulary of the statements about [generate] *)






(** No default service stands for the custom service [svc]. *)
Definition not_canonical (svc : Service) : Prop :=
  dict_has (svc_name svc) FORTINET_DEFAULTS = true
  \/ find_default FORTINET_DEFAULTS (lower (svc_protocol svc))
                  (_normalize_port (svc_port svc)) = None.

(** The custom services that [scan_services] marks. *)
Definition canonical_b (svc : Service) : bool :=
  negb (dict_has (svc_name svc) FORTINET_DEFAULTS)
  && match find_default FORTINET_DEFAULTS (lower (svc_protocol svc))
                        (_normalize_port (svc_port svc)) with
     | Some _ => true
     | None => false
     end.

(** The characters that [re.sub(r'[^\w.\-]', '_', name)] keeps. *)
Definition is_safe (c : ascii) : bool :=
  is_word c || Ascii.eqb c (ch 46) || Ascii.eqb c (ch 45).

End FortinetGenerator.

(* ================================================================== *)
(** ** The base classes (generators/base.py, parsers/base.py) *)
(* ================================================================== *)

Module Base.

(** [str(n)] for an integer that is not negative. *)
Definition str_of_Z (n : Z) : string := str_of_nat (Z.to_nat n).

(** [BaseGenerator._cidr_to_mask]; a negative shift count raises
    [ValueError], which the function catches like a failed [int]. *)
Definition _cidr_to_mask (cidr_str : string) : string :=
  match FortinetGenerator.int_of_string cidr_str with
  | Some cidr =>
      if (32 - cidr <? 0)%Z then "255.255.255.255"
      else
        let mask := Z.land (Z.shiftl 4294967295 (32 - cidr)) 4294967295 in
        str_of_Z (Z.land (Z.shiftr mask 24) 255) ++ "."
        ++ str_of_Z (Z.land (Z.shiftr mask 16) 255) ++ "."
        ++ str_of_Z (Z.land (Z.shiftr mask 8) 255) ++ "."
        ++ str_of_Z (Z.land mask 255)
  | None => "255.255.255.255"
  end.

(** [bin(n).count('1')] *)
Fixpoint ones (p : positive) : nat :=
  match p with
  | xH => 1%nat
  | xO q => ones q
  | xI q => S (ones q)
  end.

Definition count_ones (n : Z) : nat :=
  match n with
  | Z0 => 0%nat
  | Zpos p => ones p
  | Zneg p => ones p
  end.

(** [s.split('.')] *)
Definition split_dots (s : string) : list string :=
  split_max (ascii_of_nat 46) (String.length s) s.

(** The sum over the parts of the mask, [None] when [int] fails on one. *)
Fixpoint sum_ones (parts : list string) : option nat :=
  match parts with
  | [] => Some 0%nat
  | x :: rest =>
      match FortinetGenerator.int_of_string x, sum_ones rest with
      | Some n, Some k => Some (count_ones n + k)%nat
      | _, _ => None
      end
  end.

(** [BaseParser._mask_to_cidr] *)
Definition _mask_to_cidr (mask : string) : string :=
  if negb (truthy mask) || negb (has_char (ascii_of_nat 46) mask) then "32"
  else match sum_ones (split_dots mask) with
       | Some k => str_of_nat k
       | None => "32"
       end.

End Base.

(* ================================================================== *)
(** ** The Palo Alto generator (generators/palo_alto_generator.py) *)
(* ================================================================== *)

Module PaloAltoGenerator.
Import Re.

(** The options bound by [__init__]: the output mode, the device group and
    the template (after their defaults), the zone map of the base class and
    the profile names. *)
Record Options := mkOptions {
  output_mode : string;
  device_group : string;
  template : string;
  zone_map : list (string * string);
  av_profile : option string;
  as_profile : option string;
  vp_profile : option string;
  url_profile : option string;
  wf_profile : option string;
  fb_profile : option string;
  log_profile : option string
}.

(** The state of the generator that outlives one [_generate_*] call. *)
Record Gen := mkGen {
  existing_address_names : list string;
  wildcard_fqdns : list (string * string);
  intf_to_zone_map : list (string * string)
}.

(** [_get_cmd_prefix] *)
Definition _get_cmd_prefix (o : Options) (context : string) : string :=
  let firewall_default :=
    if (context =? "rule") || (context =? "nat") then "set rulebase" else "set" in
  if output_mode o =? "panorama" then
    if context =? "network" then
      "set template " ++ quoted (template o)
      ++ " config devices localhost.localdomain vsys vsys1"
    else if (context =? "object") || (context =? "profile") then
      "set device-group " ++ quoted (device_group o)
    else if (context =? "rule") || (context =? "nat") then
      "set device-group " ++ quoted (device_group o) ++ " pre-rulebase"
    else firewall_default
  else firewall_default.

(** [while "--" in s: s = s.replace("--", "-")] *)
Fixpoint collapse_dashes (fuel : nat) (s : string) : string :=
  match fuel with
  | O => s
  | S fuel' =>
      if contains "--" s then collapse_dashes fuel' (replace "--" "-" s) else s
  end.

(** [_sanitize_name] *)
Definition _sanitize_name (name : string) : string :=
  if negb (truthy name) then ""
  else
    let new_name := replace "&" "n" (replace "/" "n" name) in
    let new_name := replace "-eq" "" (replace "_eq" "" new_name) in
    collapse_dashes (String.length new_name) new_name.

(** The generator as [__init__] leaves it. *)
Definition init (c : FirewallConfig) : Gen :=
  mkGen (fold_left (fun s a => set_add (_sanitize_name (addr_name a)) s) (addresses c) [])
        [] [].

(** [addr.type == 'fqdn' and addr.value1.startswith('*')] *)
Definition is_wildcard_fqdn (addr : Address) : bool :=
  (addr_type addr =? "fqdn") && startswith "*" (addr_value1 addr).

(** The command written for an address that is not a wildcard FQDN. *)
Definition address_cmd (pfx : string) (addr : Address) : list string :=
  let name := quoted (_sanitize_name (addr_name addr)) in
  let v1 := addr_value1 addr in
  let v2 := Analyzer.fmt_opt (addr_value2 addr) in
  if addr_type addr =? "host" then
    [pfx ++ " address " ++ name ++ " ip-netmask " ++ v1 ++ "/32" ++ nl]
  else if addr_type addr =? "network" then
    [pfx ++ " address " ++ name ++ " ip-netmask " ++ v1 ++ "/" ++ v2 ++ nl]
  else if addr_type addr =? "range" then
    [pfx ++ " address " ++ name ++ " ip-range " ++ v1 ++ "-" ++ v2 ++ nl]
  else if addr_type addr =? "fqdn" then
    [pfx ++ " address " ++ name ++ " fqdn " ++ v1 ++ nl]
  else [].

(** The loop of [_generate_addresses] over the addresses, already sorted:
    what it writes and the wildcard table it leaves. *)
Fixpoint address_loop (pfx : string) (addrs : list Address)
         (wild : list (string * string)) : list string * list (string * string) :=
  match addrs with
  | [] => ([], wild)
  | addr :: rest =>
      let clean_name := _sanitize_name (addr_name addr) in
      if is_wildcard_fqdn addr
      then address_loop pfx rest (dict_set clean_name (addr_value1 addr) wild)
      else let (out, wild') := address_loop pfx rest wild in
           ((address_cmd pfx addr ++ out)%list, wild')
  end.

(** The three commands written for one entry of the wildcard table. *)
Definition category_cmds (pfx_prof : string) (entry : string * string) : list string :=
  let (name, url) := entry in
  [pfx_prof ++ " profiles custom-url-category " ++ quoted name
     ++ " list [ " ++ quoted url ++ " ]" ++ nl;
   pfx_prof ++ " profiles custom-url-category " ++ quoted name
     ++ " type " ++ quoted "URL List" ++ nl;
   pfx_prof ++ " profiles custom-url-category " ++ quoted name
     ++ " description " ++ quoted "Converted from Wildcard FQDN Address" ++ nl].

(** [\d{1,3}\.\d{1,3}\.\d{1,3}\.\d{1,3}] *)
Definition ip4 : regex :=
  Seq (Rep1to3 Digit)
      (Seq (Lit ".") (Seq (Rep1to3 Digit)
           (Seq (Lit ".") (Seq (Rep1to3 Digit)
                (Seq (Lit ".") (Rep1to3 Digit)))))).

Definition ip_pattern : regex := Seq ip4 Eol.
Definition range_pattern : regex :=
  Seq (Group 1 ip4) (Seq (Lit "-") (Seq (Group 2 ip4) Eol)).
Definition ip_anywhere : regex := Group 1 ip4.

Definition is_match (r : regex) (s : string) : bool :=
  match rmatch r s with Some _ => true | None => false end.

(** The part of the NAT pool loop for the translated source of one rule. *)
Definition pool_source (pfx : string) (nat : NatRule) (existing : list string)
  : list string * list string :=
  match nat_translated_source nat with
  | None => ([], existing)
  | Some ts =>
      if truthy ts && negb (mem (lower ts) ["dynamic-ip-and-port"; "original"]) then
        let clean_ts := _sanitize_name ts in
        if negb (mem clean_ts existing) then
          if is_match ip_pattern ts then
            ([pfx ++ " address " ++ quoted clean_ts ++ " ip-netmask " ++ ts ++ "/32" ++ nl],
             set_add clean_ts existing)
          else if is_match range_pattern ts then
            ([pfx ++ " address " ++ quoted clean_ts ++ " ip-range " ++ ts ++ nl],
             set_add clean_ts existing)
          else
            match search ip_anywhere ts with
            | Some m =>
                ([pfx ++ " address " ++ quoted clean_ts ++ " ip-netmask "
                      ++ CiscoAsaParser.grp 1 m ++ "/32" ++ nl],
                 set_add clean_ts existing)
            | None => ([], existing)
            end
        else ([], existing)
      else ([], existing)
  end.

(** The part for the translated destination. *)
Definition pool_destination (pfx : string) (nat : NatRule) (existing : list string)
  : list string * list string :=
  match nat_translated_destination nat with
  | None => ([], existing)
  | Some td =>
      if truthy td && negb (lower td =? "original") then
        let clean_td := _sanitize_name td in
        if negb (mem clean_td existing) then
          if is_match ip_pattern td then
            ([pfx ++ " address " ++ quoted clean_td ++ " ip-netmask " ++ td ++ "/32" ++ nl],
             set_add clean_td existing)
          else ([], existing)
        else ([], existing)
      else ([], existing)
  end.

(** The loop over the NAT rules that creates the missing pool objects. *)
Fixpoint pool_loop (pfx : string) (nats : list NatRule) (existing : list string)
  : list string * list string :=
  match nats with
  | [] => ([], existing)
  | nat :: rest =>
      let (out1, existing1) := pool_source pfx nat existing in
      let (out2, existing2) := pool_destination pfx nat existing1 in
      let (out3, existing3) := pool_loop pfx rest existing2 in
      ((out1 ++ out2 ++ out3)%list, existing3)
  end.

(** The comment lines of the address section. *)
Definition address_header : string := "# --- Object Address ---" ++ nl.
Definition category_header : string := nl ++ "# --- Custom URL Categories ---" ++ nl.
Definition pool_header : string := nl ++ "# --- NAT Pool Objects ---" ++ nl.

(** [_generate_addresses]: the texts written to [f], one per [f.write], and
    the generator afterwards. *)
Definition _generate_addresses (o : Options) (c : FirewallConfig) (g : Gen)
  : list string * Gen :=
  if negb (nonempty (addresses c)) then ([], g)
  else
    let pfx := _get_cmd_prefix o "object" in
    let (addr_out, wild) :=
      address_loop pfx (sorted_by addr_name (addresses c)) (wildcard_fqdns g) in
    let cat_out :=
      if nonempty wild then
        category_header :: flat_map (category_cmds (_get_cmd_prefix o "profile")) wild
      else [] in
    let (pool_out, existing) :=
      pool_loop pfx (nat_rules c) (existing_address_names g) in
    ((address_header :: addr_out) ++ cat_out ++ (pool_header :: pool_out) ++ [nl],
     mkGen existing wild (intf_to_zone_map g))%list.

(** [get_target_zone] of the base class. *)
Definition get_target_zone (o : Options) (source_zone : string) : string :=
  if negb (truthy source_zone) then "any"
  else
    let mapped := match dict_get source_zone (zone_map o) with
                  | Some z => z
                  | None => source_zone
                  end in
    if truthy (strip mapped) then strip mapped else source_zone.

(** [_resolve_zones] *)
Definition _resolve_zones (o : Options) (g : Gen) (interfaces : list string)
  : list string :=
  let zones :=
    fold_left
      (fun zones i =>
         let i_clean := strip i in
         let candidate :=
           match dict_get i_clean (intf_to_zone_map g) with
           | Some z => z
           | None =>
               match dict_get (lower i_clean) (intf_to_zone_map g) with
               | Some z => z
               | None => i_clean
               end
           end in
         set_add (get_target_zone o (strip candidate)) zones)
      interfaces [] in
  sorted_str zones.

(** The dictionary [dnat_reverse_map] of [_generate_rules]. *)
Definition build_dnat_reverse_map (nats : list NatRule) : list (string * string) :=
  fold_left
    (fun m nat_rule =>
       match nat_translated_destination nat_rule, nat_original_destination nat_rule with
       | Some td, first :: _ => if truthy td then dict_set td first m else m
       | _, _ => m
       end)
    nats [].

Definition icmp_keywords : list string := ["ICMP"; "PING"; "TRACEROUTE"].

(** The loop over [rule.service]: [regular_svcs] and [icmp_apps]. *)
Definition split_services (rule : Rule) : list string * list string :=
  fold_left
    (fun '(regular_svcs, icmp_apps) svc =>
       let svc_upper := upper svc in
       if existsb (fun k => contains k svc_upper) icmp_keywords then
         if contains "TRACEROUTE" svc_upper then (regular_svcs, set_add "traceroute" icmp_apps)
         else if contains "PING" svc_upper then (regular_svcs, set_add "ping" icmp_apps)
         else (regular_svcs, set_add "ping" (set_add "icmp" icmp_apps))
       else ((regular_svcs ++ [svc])%list, icmp_apps))
    (rule_service rule)
    ([], set_update (rule_application rule) []).

(** One entry of [rules_to_generate]. *)
Record RuleConf := mkRuleConf {
  suffix : string;
  rc_services : list string;
  rc_applications : list string;
  service_setting : string
}.

Definition rules_to_generate (rule : Rule) : list RuleConf :=
  let (regular_svcs, icmp_apps) := split_services rule in
  ((if nonempty regular_svcs || (negb (nonempty icmp_apps) && negb (nonempty regular_svcs))
    then [mkRuleConf (if nonempty icmp_apps && nonempty regular_svcs then "_svc" else "")
                     regular_svcs ["any"] "explicit"]
    else [])
   ++ (if nonempty icmp_apps
       then [mkRuleConf (if nonempty regular_svcs then "_app" else "")
                        [] (sorted_str icmp_apps) "app-default"]
       else []))%list.

(** The loop over [rule.destination]: [final_destinations] and
    [custom_url_categories]. *)
Definition split_destinations (g : Gen) (dnat_reverse_map : list (string * string))
           (rule : Rule) : list string * list string :=
  fold_left
    (fun '(final_destinations, custom_url_categories) dest_object =>
       let sanitized_dest := _sanitize_name dest_object in
       if dict_has sanitized_dest (wildcard_fqdns g)
       then (final_destinations, set_add sanitized_dest custom_url_categories)
       else
         match dict_get dest_object dnat_reverse_map with
         | Some ext => (set_add ext final_destinations, custom_url_categories)
         | None => (set_add dest_object final_destinations, custom_url_categories)
         end)
    (rule_destination rule) ([], []).

(** [any(x.lower() in ['any', 'all'] for x in l)] *)
Definition has_any (l : list string) : bool :=
  existsb (fun x => mem (lower x) ["any"; "all"]) l.

(** The members text of a source or destination list, already sorted. *)
Definition members_str (l : list string) : string :=
  if negb (nonempty l) || has_any l then "any"
  else "[ " ++ join_space (map (fun m => quoted (_sanitize_name m)) l) ++ " ]".

(** The text after [destination] and the one after [category] in the
    commands of a rule. *)
Definition destination_str (g : Gen) (dnat_reverse_map : list (string * string))
           (rule : Rule) : string :=
  members_str (sorted_str (fst (split_destinations g dnat_reverse_map rule))).

Definition category_str (g : Gen) (dnat_reverse_map : list (string * string))
           (rule : Rule) : string :=
  let cats := snd (split_destinations g dnat_reverse_map rule) in
  if nonempty cats then "[ " ++ join_space (map quoted (sorted_str cats)) ++ " ]"
  else "any".

Definition zones_str (zones : list string) : string :=
  if nonempty zones then join_space (map quoted zones) else "any".

(** A command written only when the profile name is set. *)
Definition profile_cmd (base_cmd kind : string) (name : option string) : list string :=
  match name with
  | Some p => if truthy p
              then [base_cmd ++ " profile-setting profiles " ++ kind ++ " " ++ quoted p ++ nl]
              else []
  | None => []
  end.

(** The text after [service] for an entry with explicit services. *)
Definition service_str (svc_list : list string) : string :=
  if negb (nonempty svc_list) || has_any svc_list then "any"
  else
    let svc_list_filtered :=
      filter (fun s => negb (lower s =? "application-default")) svc_list in
    if negb (nonempty svc_list_filtered) then "application-default"
    else "[ " ++ join_space (map (fun s => quoted (_sanitize_name s)) svc_list_filtered)
         ++ " ]".

(** The commands written for one entry of [rules_to_generate]. *)
Definition rule_cmds (o : Options) (g : Gen) (dnat_reverse_map : list (string * string))
           (rule : Rule) (r_conf : RuleConf) : list string :=
  let name_suffix := suffix r_conf in
  let base_name_len := (63 - String.length name_suffix)%nat in
  let r_name := substring 0 base_name_len (_sanitize_name (rule_name rule)) ++ name_suffix in
  let base_cmd := _get_cmd_prefix o "rule" ++ " security rules " ++ quoted r_name in
  let is_allow := truthy (rule_action rule)
                  && mem (lower (rule_action rule)) ["allow"; "permit"; "accept"] in
  let from_zones := _resolve_zones o g (rule_source_interface rule) in
  let to_zones := _resolve_zones o g (rule_destination_interface rule) in
  ((if is_allow then
      profile_cmd base_cmd "virus" (av_profile o)
      ++ profile_cmd base_cmd "spyware" (as_profile o)
      ++ profile_cmd base_cmd "vulnerability" (vp_profile o)
      ++ profile_cmd base_cmd "url-filtering" (url_profile o)
      ++ profile_cmd base_cmd "wildfire-analysis" (wf_profile o)
      ++ profile_cmd base_cmd "file-blocking" (fb_profile o)
    else [])
   ++ [(base_cmd ++ " to [ " ++ zones_str to_zones ++ " ]" ++ nl)%string;
       (base_cmd ++ " from [ " ++ zones_str from_zones ++ " ]" ++ nl)%string;
       (base_cmd ++ " source " ++ members_str (sorted_str (rule_source rule)) ++ nl)%string;
       (base_cmd ++ " destination " ++ destination_str g dnat_reverse_map rule ++ nl)%string;
       (base_cmd ++ " source-user any" ++ nl)%string;
       (base_cmd ++ " category " ++ category_str g dnat_reverse_map rule ++ nl)%string;
       (base_cmd ++ " saas-user-list any" ++ nl)%string;
       (base_cmd ++ " saas-tenant-list any" ++ nl)%string;
       (if mem "any" (rc_applications r_conf)
        then base_cmd ++ " application any" ++ nl
        else base_cmd ++ " application [ "
             ++ join_space (map quoted (rc_applications r_conf)) ++ " ]" ++ nl)%string;
       (if service_setting r_conf =? "app-default"
        then base_cmd ++ " service application-default" ++ nl
        else base_cmd ++ " service " ++ service_str (rc_services r_conf) ++ nl)%string;
       (base_cmd ++ " source-hip any" ++ nl)%string;
       (base_cmd ++ " destination-hip any" ++ nl)%string;
       (base_cmd ++ " action " ++ (if is_allow then "allow" else "deny") ++ nl)%string;
       (base_cmd ++ " log-start no" ++ nl)%string;
       (base_cmd ++ " log-end yes" ++ nl)%string;
       (base_cmd ++ " target negate no" ++ nl)%string;
       (base_cmd ++ " rule-type universal" ++ nl)%string]
   ++ match log_profile o with
      | Some p => if truthy p then [(base_cmd ++ " log-setting " ++ quoted p ++ nl)%string]
                  else []
      | None => []
      end
   ++ match rule_remark rule with
      | Some r => if truthy r
                  then [(base_cmd ++ " description "
                           ++ quoted (replace_char (ascii_of_nat 34) (ascii_of_nat 39) r)
                           ++ nl)%string]
                  else []
      | None => []
      end
   ++ (if negb (rule_enabled rule) then [(base_cmd ++ " disabled yes" ++ nl)%string] else [])
   ++ match rule_time_range rule with
      | Some t => if truthy t then [(base_cmd ++ " schedule " ++ quoted t ++ nl)%string]
                  else []
      | None => []
      end)%list.

(** [_generate_rules]: the texts written to [f]. *)
Definition _generate_rules (o : Options) (c : FirewallConfig) (g : Gen) : list string :=
  if negb (nonempty (rules c)) then []
  else
    let dnat_reverse_map := build_dnat_reverse_map (nat_rules c) in
    (("# --- Security Policy ---" ++ nl)%string
       :: flat_map (fun rule =>
                      flat_map (rule_cmds o g dnat_reverse_map rule) (rules_to_generate rule)
                      ++ [nl])
                   (rules c))%list.

(** The interface to zone table that [generate] builds before it writes
    any section. *)
Definition build_intf_to_zone_map (ifaces : list Interface) : list (string * string) :=
  fold_left
    (fun m iface =>
       match if_zone iface with
       | Some zone =>
           if truthy (if_name iface) && truthy zone then
             let clean_name := strip (if_name iface) in
             let clean_zone := strip zone in
             dict_set (lower clean_name) clean_zone (dict_set clean_name clean_zone m)
           else m
       | None => m
       end)
    ifaces [].

(** The address section and the security policy as [generate] writes them
    on a fresh generator; the sections written in between use neither the
    wildcard table nor the set of address names. *)
Definition addresses_then_rules (o : Options) (c : FirewallConfig)
  : list string * list string :=
  let g0 := init c in
  let g1 := mkGen (existing_address_names g0) (wildcard_fqdns g0)
                  (build_intf_to_zone_map (interfaces c)) in
  let (addr_out, g2) := _generate_addresses o c g1 in
  (addr_out, _generate_rules o c g2).

(** *** Vocabulary of the statements about the security policy *)



(** A standalone firewall target without profiles or zone map. *)
Definition plain_options : Options :=
  mkOptions "firewall" "MyDeviceGroup" "MyTemplate" [] None None None None None None None.

(** The name under which [rule_cmds] writes an entry of
    [rules_to_generate], and the head of each of its commands. *)
Definition emitted_rule_name (rule : Rule) (r_conf : RuleConf) : string :=
  substring 0 (63 - String.length (suffix r_conf)) (_sanitize_name (rule_name rule))
  ++ suffix r_conf.

Definition rule_base_cmd (o : Options) (rule : Rule) (r_conf : RuleConf) : string :=
  _get_cmd_prefix o "rule" ++ " security rules " ++ quoted (emitted_rule_name rule r_conf).

(** The test of the loop over [rule.service]: the upper-cased name holds
    one of [icmp_keywords]. *)
Definition is_icmp_like (svc : string) : bool :=
  existsb (fun k => contains k (upper svc)) icmp_keywords.

End PaloAltoGenerator.

(* ================================================================== *)
(** ** Sample configurations *)
(* ================================================================== *)

Module Samples.

(** An allow rule whose source holds [any] next to a host. *)
Definition c9_rule : Rule :=
  mkRule 1 "wide" "allow" (Some "x") true true 0 None [] []
         ["any"; "10.0.0.1"] ["any"] ["any"] [] [] None None "".

Definition c9_config : FirewallConfig :=
  mkFirewallConfig [] [] [] [] [] [c9_rule] [] [] [] [] "" [].

(** Two allow rules; the second has an empty source. *)
Definition c3_rule_i : Rule :=
  mkRule 1 "first" "allow" None true false 0 None [] []
         ["a"] ["b"] ["c"] [] [] None None "".

Definition c3_rule_j : Rule :=
  mkRule 2 "second" "allow" None true false 0 None [] []
         [] ["b"] ["c"] [] [] None None "".

Definition c3_config : FirewallConfig :=
  mkFirewallConfig [] [] [] [] [] [c3_rule_i; c3_rule_j] [] [] [] [] "" [].

(** Two host objects with one value, and no rule. *)
Definition c4_config : FirewallConfig :=
  mkFirewallConfig
    [mkAddress "h1" "host" "10.0.0.1" None ""; mkAddress "h2" "host" "10.0.0.1" None ""]
    [] [] [] [] [] [] [] [] [] "" [].

(** A policy entry with NAT enabled and no pool, and one that names a pool. *)
Definition c10_entry_no_pool : list string :=
  ["edit 1"; "set srcintf port1"; "set dstintf port2"; "set srcaddr lan";
   "set dstaddr all"; "set service HTTP"; "set action accept"; "set nat enable"].

Definition c10_entry_pool : list string :=
  ["edit 7"; "set srcaddr lan"; "set action accept"; "set nat enable";
   "set poolname pool1"].



(** Manual static NAT lines of an ASA configuration. *)
Definition c8_line_plain : string := "nat (inside,outside) source static A B".
Definition c8_line_unidirectional : string :=
  "nat (inside,outside) source static A B unidirectional".
Definition c8_line_inactive : string :=
  "nat (inside,outside) source static A B inactive".
Definition c8_line_twice_inactive : string :=
  "nat (inside,outside) source static A B destination static C D inactive".

(** A custom service equal to the default HTTP and a rule that uses it; and
    a configuration whose only custom service equals no default. *)
Definition c2_config : FirewallConfig :=
  mkFirewallConfig [] [mkService "WEB" "tcp" "eq 80" ""] [] [] []
    [mkRule 1 "r1" "allow" None true false 0 None [] [] ["all"] ["all"]
            ["WEB"] [] [] None None ""]
    [] [] [] [] "" [].


(** A wildcard FQDN that is also the original destination of a NAT rule
    towards the host X, and a rule to both. *)
Definition c5_rule : Rule :=
  mkRule 1 "web" "allow" None true false 0 None [] [] ["all"]
         ["WildSite"; "X"] ["HTTP"] [] [] None None "".

Definition c5_config : FirewallConfig :=
  mkFirewallConfig
    [mkAddress "WildSite" "fqdn" "*.example.com" None "";
     mkAddress "X" "host" "10.0.0.5" None ""]
    [] [] [] [] [c5_rule] []
    [mkNatRule 1 "dnat" [] None ["WildSite"] (Some "X") [] None [] [] true None ""]
    [] [] "" [].

(** The same wildcard FQDN with a rule to it alone and no NAT rule. *)
Definition c5_rule_plain : Rule :=
  mkRule 1 "web" "allow" None true false 0 None [] [] ["all"]
         ["WildSite"] ["HTTP"] [] [] None None "".

Definition c5_config_plain : FirewallConfig :=
  mkFirewallConfig
    [mkAddress "WildSite" "fqdn" "*.example.com" None ""]
    [] [] [] [] [c5_rule_plain] [] [] [] [] "" [].









(** Three rules in a chain, each broader than the next. *)
Definition x_rule_any : Rule :=
  mkRule 1 "wide" "allow" None true false 0 None [] [] ["any"] ["any"] ["any"]
         [] [] None None "".

Definition x_rule_net : Rule :=
  mkRule 2 "net" "allow" None true false 5 None [] [] ["LAN"; "DMZ"] ["srv"] ["HTTP"; "DNS"]
         [] [] None None "".

Definition x_rule_host : Rule :=
  mkRule 3 "host" "allow" None true false 0 None [] [] ["lan"] ["SRV"] ["http"]
         [] [] None None "".

Definition x_config_rules : FirewallConfig :=
  mkFirewallConfig [] [] [] [] [] [x_rule_any; x_rule_net; x_rule_host] [] [] [] [] "" [].

(** Objects with pairwise different values. *)
Definition x_config_distinct : FirewallConfig :=
  mkFirewallConfig
    [mkAddress "h1" "host" "10.0.0.1" None ""; mkAddress "h2" "host" "10.0.0.2" None ""]
    [mkService "s1" "tcp" "eq 80" ""; mkService "s2" "udp" "eq 80" ""]
    [] [] [] [] [] [] [] [] "" [].

(** A rule with a port service and an ICMP service, and one with a port
    service only. *)
Definition x_rule_mixed : Rule :=
  mkRule 1 "mixed" "allow" None true false 0 None ["inside"] ["outside"] ["lan"]
         ["srv"] ["HTTP"; "ICMP-echo"] [] [] None None "".

Definition x_rule_ports : Rule :=
  mkRule 2 "ports" "allow" None true false 0 None ["inside"] ["outside"] ["lan"]
         ["srv"] ["HTTP"] [] [] None None "".

(** A policy block with two policies, the second with NAT from a pool. *)
Definition x_policy_entries : list (list string) :=
  [["edit 7"; "set srcaddr " ++ quoted "lan"; "set action accept"];
   ["edit 9"; "set nat enable"; "set poolname " ++ quoted "pool1"]].


End Samples.

(* ================================================================== *)
(** * Theorems *)
(* ================================================================== *)

(** ** Facts about the Python containers *)

Lemma mem_In x l : mem x l = true <-> In x l.
Proof.
  unfold mem. rewrite existsb_exists. split.
  - intros [y [Hy He]]. apply String.eqb_eq in He. now subst.
  - intros H. exists x. split; [assumption | apply String.eqb_refl].
Qed.

Lemma mem_lower_set x s :
  mem x (lower_set s) = true <-> exists y, In y s /\ lower y = x.
Proof.
  rewrite mem_In. unfold lower_set. rewrite in_map_iff.
  split; intros [y [H1 H2]]; exists y; tauto.
Qed.

Lemma nonempty_false {A} (l : list A) : nonempty l = false <-> l = [].
Proof. destruct l; simpl; split; congruence. Qed.

Lemma enumerate_In {A} (l : list A) i x :
  In (i, x) (enumerate l) <-> nth_error l i = Some x.
Proof.
  unfold enumerate.
  assert (G : forall (l : list A) k i x,
             In (i, x) (combine (seq k (length l)) l) <->
             (k <= i)%nat /\ nth_error l (i - k) = Some x).
  { clear. induction l as [|a l IH]; intros k i x; simpl.
    - split; [tauto|]. intros [_ H]. destruct (i - k)%nat; discriminate.
    - rewrite IH. split.
      + intros [H | [H1 H2]].
        * inversion H; subst. rewrite Nat.sub_diag. simpl. split; [lia | reflexivity].
        * split; [lia|]. replace (i - k)%nat with (S (i - S k)) by lia. exact H2.
      + intros [H1 H2]. destruct (Nat.eq_dec i k) as [->|Hne].
        * rewrite Nat.sub_diag in H2. simpl in H2. inversion H2. now left.
        * right. split; [lia|].
          replace (i - k)%nat with (S (i - S k)) in H2 by lia. exact H2. }
  rewrite G. rewrite Nat.sub_0_r. split; [tauto | intros; split; [lia | assumption]].
Qed.




(* ================================================================== *)
(** ** The analyzer *)
(* ================================================================== *)

Module AnalyzerFacts.
Import Analyzer AnalyzerSpec Samples.

Lemma lower_empty_action rule : action_lower rule = lower (rule_action rule).
Proof. unfold action_lower. destruct (rule_action rule); reflexivity. Qed.

Lemma any_or_all_in s :
  mem "any" (lower_set s) || mem "all" (lower_set s) = true <->
  exists x, In x s /\ (lower x = "any" \/ lower x = "all").
Proof.
  rewrite orb_true_iff, !mem_lower_set. split.
  - intros [[y [H1 H2]] | [y [H1 H2]]]; exists y; tauto.
  - intros [y [H1 [H2 | H2]]]; [left | right]; exists y; tauto.
Qed.

Lemma is_any_field_spec s : is_any_field s = true <-> unrestricted s.
Proof.
  unfold is_any_field, unrestricted.
  rewrite <- orb_assoc, orb_true_iff, any_or_all_in, negb_true_iff, nonempty_false.
  reflexivity.
Qed.

Lemma _is_any_any_any_spec rule :
  _is_any_any_any rule = true <->
  In (lower (rule_action rule)) allow_actions
  /\ unrestricted (rule_source rule)
  /\ unrestricted (rule_destination rule)
  /\ unrestricted (rule_service rule).
Proof.
  unfold _is_any_any_any. rewrite lower_empty_action.
  rewrite <- !is_any_field_spec, <- mem_In.
  destruct (mem (lower (rule_action rule)) allow_actions); simpl.
  - rewrite !andb_true_iff. tauto.
  - split; [discriminate | intros [H _]; discriminate].
Qed.

Lemma filter_risk_loop_other test mk rs :
  (forall r, (risk_severity (mk r) =? "critical") = false) ->
  filter (fun k => risk_severity k =? "critical") (risk_loop test mk rs) = [].
Proof.
  intros H. unfold risk_loop. induction (filter test rs) as [|r l IH]; simpl.
  - reflexivity.
  - now rewrite H.
Qed.

Lemma filter_risk_loop_critical test rs :
  filter (fun k => risk_severity k =? "critical") (risk_loop test critical_risk rs)
  = risk_loop test critical_risk rs.
Proof.
  unfold risk_loop. induction (filter test rs) as [|r l IH]; simpl.
  - reflexivity.
  - now rewrite IH.
Qed.

Lemma critical_risks_analyze config :
  critical_risks (analyze config)
  = map critical_risk (filter _is_any_any_any (rules config)).
Proof.
  unfold critical_risks, analyze. simpl. unfold _find_security_risks.
  rewrite !filter_app, filter_risk_loop_critical.
  rewrite !filter_risk_loop_other by reflexivity.
  now rewrite !app_nil_r.
Qed.

(** C9: the critical findings of the report are, in rule order, one entry
    for each rule that [_is_any_any_any] accepts and nothing else; and the
    rules it accepts are those whose action is allow, permit or accept (in
    any capitalisation) and whose source, destination and service are each
    empty or hold a member any/all. *)
Theorem C9_critical_risks_exact :
  forall config,
    critical_risks (analyze config)
    = map critical_risk (filter _is_any_any_any (rules config))
    /\ forall rule,
        _is_any_any_any rule = true <->
        In (lower (rule_action rule)) allow_actions
        /\ unrestricted (rule_source rule)
        /\ unrestricted (rule_destination rule)
        /\ unrestricted (rule_service rule).
Proof.
  intros config. split.
  - apply critical_risks_analyze.
  - apply _is_any_any_any_spec.
Qed.

(** C9, as stated, fails: a rule whose source is {any, 10.0.0.1} is not
    "contained in {any, all}", yet the report carries a critical finding
    for it. *)
Lemma C9_counterexample :
  In c9_rule (rules c9_config)
  /\ spec_any_any_any c9_rule = false
  /\ critical_risks (analyze c9_config) = [critical_risk c9_rule].
Proof. split; [now left | split; reflexivity]. Qed.

Lemma _is_subset_or_any_spec specific broader :
  _is_subset_or_any specific broader = true <-> covers specific broader.
Proof.
  unfold _is_subset_or_any, covers.
  pose proof (any_or_all_in broader) as Hany.
  destruct (mem "any" (lower_set broader) || mem "all" (lower_set broader)).
  - split; [intros _; left; now apply Hany | reflexivity].
  - assert (Hno : ~ exists y, In y broader /\ (lower y = "any" \/ lower y = "all")).
    { intros H. apply Hany in H. discriminate. }
    destruct specific as [|x xs].
    + simpl. split; [discriminate | intros [H | [H _]]; [tauto | congruence]].
    + cbn [lower_set map nonempty negb]. rewrite forallb_forall. split.
      * intros H. right. split; [discriminate|]. intros z Hz.
        apply mem_lower_set. apply H.
        change (In (lower z) (map lower (x :: xs))). now apply in_map.
      * intros [H | [_ H]]; [tauto|]. intros z Hz.
        change (In z (map lower (x :: xs))) in Hz.
        apply in_map_iff in Hz. destruct Hz as [w [<- Hw]].
        apply mem_lower_set. now apply H.
Qed.

Lemma _is_shadowing_spec rule_i rule_j :
  _is_shadowing rule_i rule_j = true <->
  rule_action rule_i = rule_action rule_j
  /\ covers (rule_source rule_j) (rule_source rule_i)
  /\ covers (rule_destination rule_j) (rule_destination rule_i)
  /\ covers (rule_service rule_j) (rule_service rule_i).
Proof.
  unfold _is_shadowing. rewrite <- !_is_subset_or_any_spec, <- String.eqb_eq.
  destruct (rule_action rule_i =? rule_action rule_j); simpl;
    [| split; [discriminate | intros [H _]; discriminate]].
  destruct (_is_subset_or_any (rule_source rule_j) (rule_source rule_i)); simpl;
    [| split; [discriminate | intros [_ [H _]]; discriminate]].
  destruct (_is_subset_or_any (rule_destination rule_j) (rule_destination rule_i)); simpl;
    [| split; [discriminate | intros [_ [_ [H _]]]; discriminate]].
  destruct (_is_subset_or_any (rule_service rule_j) (rule_service rule_i)); simpl; tauto.
Qed.

Lemma _find_overlapping_rules_In config o :
  In o (_find_overlapping_rules config) <->
  exists i j rule_i rule_j,
    nth_error (rules config) i = Some rule_i
    /\ nth_error (rules config) j = Some rule_j
    /\ (i < j)%nat
    /\ _is_shadowing rule_i rule_j = true
    /\ o = overlap_entry i rule_i j rule_j.
Proof.
  unfold _find_overlapping_rules. rewrite in_flat_map. split.
  - intros [[i r1] [Hi Ho]]. apply in_flat_map in Ho.
    destruct Ho as [[j r2] [Hj Ho]].
    apply enumerate_In in Hi, Hj.
    destruct (Nat.leb_spec j i) as [Hle | Hlt]; [destruct Ho|].
    destruct (_is_shadowing r1 r2) eqn:Hs; [| destruct Ho].
    destruct Ho as [<- | []].
    exists i, j, r1, r2. tauto.
  - intros (i & j & r1 & r2 & Hi & Hj & Hlt & Hs & ->).
    exists (i, r1). split; [now apply enumerate_In|].
    apply in_flat_map. exists (j, r2). split; [now apply enumerate_In|].
    destruct (Nat.leb_spec j i) as [Hle | _]; [lia|].
    rewrite Hs. now left.
Qed.

(** C3: the report holds an overlap entry exactly for the pairs of positions
    i < j whose rules have the same action string and for which each of
    source, destination and service of rule i covers that of rule j: rule
    i's set has a member any/all, or rule j's set is not empty and all its
    members occur in rule i's set up to case.  The entry names rule j as
    shadowed by rule i, with the positions counted from one. *)
Theorem C3_overlap_report_exact :
  forall config o,
    In o (overlapping_rules (analyze config)) <->
    exists i j rule_i rule_j,
      nth_error (rules config) i = Some rule_i
      /\ nth_error (rules config) j = Some rule_j
      /\ (i < j)%nat
      /\ rule_action rule_i = rule_action rule_j
      /\ covers (rule_source rule_j) (rule_source rule_i)
      /\ covers (rule_destination rule_j) (rule_destination rule_i)
      /\ covers (rule_service rule_j) (rule_service rule_i)
      /\ o = overlap_entry i rule_i j rule_j.
Proof.
  intros config o. unfold analyze. cbn [overlapping_rules].
  rewrite _find_overlapping_rules_In.
  split; intros (i & j & r1 & r2 & H); exists i, j, r1, r2.
  - destruct H as (Hi & Hj & Hlt & Hs & Ho). apply _is_shadowing_spec in Hs. tauto.
  - destruct H as (Hi & Hj & Hlt & Ha & H1 & H2 & H3 & Ho).
    repeat split; try assumption. apply _is_shadowing_spec. tauto.
Qed.

(** C3, as stated, fails: rule j's empty source is a subset of rule i's
    source and the other fields are equal, yet no overlap is reported. *)
Lemma C3_counterexample :
  nth_error (rules c3_config) 0 = Some c3_rule_i
  /\ nth_error (rules c3_config) 1 = Some c3_rule_j
  /\ spec_shadows c3_rule_i c3_rule_j = true
  /\ overlapping_rules (analyze c3_config) = [].
Proof. repeat split; reflexivity. Qed.

Lemma clamp_range x : (0 <= clamp x <= 100)%Z.
Proof. unfold clamp. lia. Qed.

Lemma spec_weighted_quarters a b c :
  (spec_weighted a b c == (a + 2 * b + c) # 4)%Q.
Proof. unfold spec_weighted, Qeq. cbn -[Z.mul Z.add]. lia. Qed.

Lemma py_int_weighted a b c :
  (0 <= a)%Z -> (0 <= b)%Z -> (0 <= c)%Z ->
  py_int (spec_weighted a b c) = Qfloor (spec_weighted a b c)
  /\ Qfloor (spec_weighted a b c) = ((a + 2 * b + c) / 4)%Z.
Proof.
  intros Ha Hb Hc. split.
  - unfold py_int.
    assert (H : Qle_bool 0 (spec_weighted a b c) = true).
    { apply Qle_bool_iff. rewrite spec_weighted_quarters.
      unfold Qle. cbn -[Z.mul Z.add]. lia. }
    now rewrite H.
  - rewrite (Qfloor_comp _ _ (spec_weighted_quarters a b c)). reflexivity.
Qed.

(** C4: the three sub-scores lie in [0, 100] and the overall score is the
    weighted sum 0.25 optimization + 0.50 security + 0.25 complexity with
    its fractional part dropped, that is, the integer quotient of
    optimization + 2 security + complexity by 4. *)
Theorem C4_overall_score_truncates :
  forall config,
    let r := analyze config in
    (0 <= optimization_score r <= 100)%Z
    /\ (0 <= security_score r <= 100)%Z
    /\ (0 <= complexity_score r <= 100)%Z
    /\ overall_score r
       = Qfloor (spec_weighted (optimization_score r) (security_score r)
                               (complexity_score r))
    /\ overall_score r
       = ((optimization_score r + 2 * security_score r + complexity_score r) / 4)%Z.
Proof.
  intros config r. subst r. unfold analyze, _calculate_scores.
  cbn [optimization_score security_score complexity_score overall_score
       sc_optimization sc_security sc_complexity sc_overall].
  match goal with
  | |- (_ <= clamp ?a <= _)%Z /\ (_ <= clamp ?b <= _)%Z /\ (_ <= clamp ?c <= _)%Z /\ _ =>
      pose proof (clamp_range a) as Ha; pose proof (clamp_range b) as Hb;
      pose proof (clamp_range c) as Hc;
      set (x := clamp a) in *; set (y := clamp b) in *; set (z := clamp c) in *
  end.
  change (py_int _) with (py_int (spec_weighted x y z)).
  destruct (@py_int_weighted x y z ltac:(lia) ltac:(lia) ltac:(lia)) as [H1 H2].
  split; [lia|]. split; [lia|]. split; [lia|]. split; [exact H1 | now rewrite H1, H2].
Qed.

(** C4, as stated, fails: with one duplicate object and nothing else the
    weighted sum is 98.75 and the overall score is 98, which is not an
    integer nearest to it. *)
Lemma C4_counterexample :
  let r := analyze c4_config in
  optimization_score r = 95%Z
  /\ security_score r = 100%Z
  /\ complexity_score r = 100%Z
  /\ overall_score r = 98%Z
  /\ ~ spec_is_round (spec_weighted (optimization_score r) (security_score r)
                                    (complexity_score r))
                     (overall_score r).
Proof.
  repeat split. unfold spec_is_round. vm_compute. intros H. now apply H.
Qed.

End AnalyzerFacts.

(* ================================================================== *)
(** ** The Fortinet parser *)
(* ================================================================== *)

Module FortinetParserFacts.
Import FortinetParser Samples.

Lemma prefix_app p s : String.prefix p s = true -> exists rest, s = p ++ rest.
Proof.
  revert s. induction p as [|a p IH]; intros s H.
  - now exists s.
  - destruct s as [|b s]; simpl in H; [discriminate|].
    destruct (ascii_dec a b) as [<-|]; [|discriminate].
    destruct (IH _ H) as [rest ->]. now exists rest.
Qed.

Lemma scan_policy_line_nat a l :
  is_nat_enabled (scan_policy_line a l)
  = is_nat_enabled a || startswith "set nat enable" l.
Proof.
  destruct (startswith "set nat enable" l) eqn:E.
  - apply prefix_app in E. destruct E as [rest ->].
    rewrite orb_true_r. destruct rest; reflexivity.
  - unfold scan_policy_line. rewrite E, orb_false_r.
    repeat match goal with
           | |- context [if startswith ?p l then _ else _] => destruct (startswith p l)
           end; reflexivity.
Qed.

Lemma scan_policy_line_pool a l :
  nat_pool_name (scan_policy_line a l)
  = if startswith "set poolname" l then Some (_get_set_value l) else nat_pool_name a.
Proof.
  destruct (startswith "set poolname" l) eqn:E.
  - apply prefix_app in E. destruct E as [rest ->]. destruct rest; reflexivity.
  - unfold scan_policy_line. rewrite E.
    repeat match goal with
           | |- context [if startswith ?p l then _ else _] => destruct (startswith p l)
           end; reflexivity.
Qed.

Lemma fold_policy_nat ls a :
  is_nat_enabled (fold_left scan_policy_line ls a)
  = is_nat_enabled a || existsb (startswith "set nat enable") ls.
Proof.
  revert a. induction ls as [|l ls IH]; intros a; simpl.
  - now rewrite orb_false_r.
  - now rewrite IH, scan_policy_line_nat, orb_assoc.
Qed.

Lemma fold_policy_pool_none ls a :
  (forall l, In l ls -> startswith "set poolname" l = false) ->
  nat_pool_name (fold_left scan_policy_line ls a) = nat_pool_name a.
Proof.
  revert a. induction ls as [|l ls IH]; intros a H; simpl.
  - reflexivity.
  - rewrite IH by (intros; apply H; now right).
    rewrite scan_policy_line_pool, (H l) by now left. reflexivity.
Qed.

Lemma fold_policy_pool_last pre l post a :
  startswith "set poolname" l = true ->
  (forall l', In l' post -> startswith "set poolname" l' = false) ->
  nat_pool_name (fold_left scan_policy_line (pre ++ l :: post) a)
  = Some (_get_set_value l).
Proof.
  intros Hl Hpost. rewrite fold_left_app. simpl.
  rewrite fold_policy_pool_none by assumption.
  now rewrite scan_policy_line_pool, Hl.
Qed.

Lemma is_nat_enabled_scan entry_lines :
  is_nat_enabled (scan_policy entry_lines) = true <->
  exists l, In l (tl entry_lines) /\ startswith "set nat enable" l = true.
Proof.
  unfold scan_policy. rewrite fold_policy_nat. simpl.
  apply existsb_exists.
Qed.

(** C10: a policy entry always appends one Rule.  It appends a NatRule as
    well, carrying the rule's source as original-source and the pool as
    translated-source, when a line sets [nat enable] and the last
    [set poolname] line gives a non-empty name; with no [set poolname] line,
    or with no [set nat enable] line, the NAT rule list is left as it was. *)
Theorem C10_policy_nat_rule_needs_pool :
  forall entry_lines cfg sequence_id,
    let cfg' := _parse_policy_entry entry_lines cfg sequence_id in
    rules cfg' = (rules cfg ++ [policy_rule entry_lines sequence_id])%list
    /\ (forall pre l post,
          (exists l0, In l0 (tl entry_lines) /\ startswith "set nat enable" l0 = true) ->
          tl entry_lines = (pre ++ l :: post)%list ->
          startswith "set poolname" l = true ->
          (forall l', In l' post -> startswith "set poolname" l' = false) ->
          truthy (_get_set_value l) = true ->
          exists n,
            nat_rules cfg' = (nat_rules cfg ++ [n])%list
            /\ nat_sequence_id n = sequence_id
            /\ nat_original_source n = rule_source (policy_rule entry_lines sequence_id)
            /\ nat_translated_source n = Some (_get_set_value l))
    /\ ((forall l, In l (tl entry_lines) -> startswith "set poolname" l = false) ->
        nat_rules cfg' = nat_rules cfg)
    /\ ((forall l, In l (tl entry_lines) -> startswith "set nat enable" l = false) ->
        nat_rules cfg' = nat_rules cfg).
Proof.
  intros entry_lines cfg sequence_id cfg'. subst cfg'.
  unfold _parse_policy_entry. split; [| split; [| split]].
  - destruct (is_nat_enabled _ && opt_truthy _); reflexivity.
  - intros pre l post Hnat Htl Hl Hpost Hval.
    apply is_nat_enabled_scan in Hnat.
    assert (Hpool : nat_pool_name (scan_policy entry_lines) = Some (_get_set_value l)).
    { unfold scan_policy. rewrite Htl. now apply fold_policy_pool_last. }
    rewrite Hnat, Hpool. simpl. rewrite Hval.
    exists (policy_nat_rule entry_lines sequence_id).
    repeat split. simpl. exact Hpool.
  - intros Hno.
    assert (Hpool : nat_pool_name (scan_policy entry_lines) = None).
    { unfold scan_policy. now rewrite fold_policy_pool_none. }
    rewrite Hpool. simpl. now rewrite andb_false_r.
  - intros Hno.
    assert (Hnat : is_nat_enabled (scan_policy entry_lines) = false).
    { destruct (is_nat_enabled (scan_policy entry_lines)) eqn:E; [|reflexivity].
      apply is_nat_enabled_scan in E. destruct E as [l [Hin Hl]].
      rewrite (Hno l Hin) in Hl. discriminate. }
    now rewrite Hnat.
Qed.

(** The theorem at the entry [c10_entry_pool]: the NAT rule is appended. *)
Lemma C10_witness :
  exists n,
    nat_rules (_parse_policy_entry c10_entry_pool empty_config 7) = [n]
    /\ nat_sequence_id n = 7%Z
    /\ nat_original_source n = ["lan"]
    /\ nat_translated_source n = Some "pool1".
Proof.
  destruct (C10_policy_nat_rule_needs_pool c10_entry_pool empty_config 7)
    as [_ [H _]].
  destruct (H ["set srcaddr lan"; "set action accept"; "set nat enable"]
              "set poolname pool1" [])
    as [n [H1 [H2 [H3 H4]]]].
  - exists "set nat enable". split; [simpl; tauto | reflexivity].
  - reflexivity.
  - reflexivity.
  - intros l' [].
  - reflexivity.
  - exists n. repeat split; assumption.
Defined.

(** C10, as stated, fails: the entry sets [nat enable] and no pool, and the
    parser appends the Rule but no NatRule. *)
Lemma C10_counterexample :
  In "set nat enable" (tl c10_entry_no_pool)
  /\ length (rules (_parse_policy_entry c10_entry_no_pool empty_config 1)) = 1%nat
  /\ nat_rules (_parse_policy_entry c10_entry_no_pool empty_config 1) = [].
Proof. split; [simpl; tauto | split; reflexivity]. Qed.






Lemma dict_get_set {V} k (v : V) d : dict_get k (dict_set k v d) = Some v.
Proof.
  induction d as [|[k' v'] d IH]; simpl.
  - now rewrite String.eqb_refl.
  - destruct (k =? k') eqn:E; simpl; rewrite E; [reflexivity | exact IH].
Qed.

Lemma set_add_In x s y : In y (set_add x s) <-> In y s \/ y = x.
Proof.
  unfold set_add. destruct (mem x s) eqn:E.
  - apply mem_In in E. split; [tauto | intros [H | ->]; assumption].
  - rewrite in_app_iff. simpl. split; [intros [H | [H | []]]; auto | intros [H | ->]; auto].
Qed.














End FortinetParserFacts.

(* ================================================================== *)
(** ** The Cisco ASA parser *)
(* ================================================================== *)

Module CiscoAsaParserFacts.
Import CiscoAsaParser Samples.

(** A static NAT line that ends after the mapped object gives the forward
    rule and the reverse rule with the interfaces swapped. *)
Lemma static_nat_plain :
  _parse_nat_rule_line c8_line_plain empty_config "default" [] 1
  = (with_nat_rules empty_config
       [mkNatRule 1 "StaticNAT_A" ["A"] (Some "B") [] None [] None
                  ["inside"] ["outside"] true None c8_line_plain;
        mkNatRule 2 "StaticNAT_Reverse_A" [] None ["B"] (Some "A") [] None
                  ["outside"] ["inside"] true None
                  "! Auto-generated reverse NAT for A"],
     3%Z).
Proof. vm_compute. reflexivity. Qed.

(** With [unidirectional] last on the line only the forward rule is given. *)
Lemma static_nat_unidirectional :
  _parse_nat_rule_line c8_line_unidirectional empty_config "default" [] 1
  = (with_nat_rules empty_config
       [mkNatRule 1 "StaticNAT_A" ["A"] (Some "B") [] None [] None
                  ["inside"] ["outside"] true None c8_line_unidirectional],
     2%Z).
Proof. vm_compute. reflexivity. Qed.

(** The sibling pattern for twice NAT is not anchored at the end of the
    line: a trailing [inactive] gives a disabled rule. *)
Lemma twice_nat_inactive :
  map nat_enabled
      (nat_rules (fst (_parse_nat_rule_line c8_line_twice_inactive empty_config
                                            "default" [] 1)))
  = [false].
Proof. vm_compute. reflexivity. Qed.

(** C8: on a manual static NAT line without [unidirectional] that ends in
    [inactive], the parser computes that the rule is disabled but then no
    pattern matches the line, and no NatRule at all is appended. *)
Theorem C8_static_nat_inactive_dropped :
  contains "unidirectional" c8_line_inactive = false
  /\ contains "inactive" c8_line_inactive = true
  /\ Re.search _RE_MANUAL_STATIC_NAT c8_line_inactive = None
  /\ _parse_nat_rule_line c8_line_inactive empty_config "default" [] 1
     = (empty_config, 1%Z).
Proof. repeat split; vm_compute; reflexivity. Qed.

End CiscoAsaParserFacts.

(* ================================================================== *)
(** ** The Fortinet generator *)
(* ================================================================== *)

Module FortinetGeneratorFacts.
Import FortinetGenerator Samples.

Lemma scan_services_step_nil svcs acc :
  (forall svc, In svc svcs -> not_canonical svc) ->
  fold_left
    (fun '(replacement_map, services_to_remove) svc =>
       if dict_has (svc_name svc) FORTINET_DEFAULTS
       then (replacement_map, services_to_remove)
       else
         let proto := lower (svc_protocol svc) in
         let port_norm := _normalize_port (svc_port svc) in
         match find_default FORTINET_DEFAULTS proto port_norm with
         | Some def_name =>
             (dict_set (svc_name svc) def_name replacement_map,
              set_add (svc_name svc) services_to_remove)
         | None => (replacement_map, services_to_remove)
         end)
    svcs acc = acc.
Proof.
  revert acc. induction svcs as [|svc svcs IH]; intros [rm tr] H.
  - reflexivity.
  - cbn [fold_left].
    assert (Hrest : forall s, In s svcs -> not_canonical s)
      by (intros; apply H; now right).
    destruct (H svc (or_introl eq_refl)) as [Hd | Hf].
    + rewrite Hd. now apply IH.
    + destruct (dict_has (svc_name svc) FORTINET_DEFAULTS).
      * now apply IH.
      * cbv zeta. rewrite Hf. now apply IH.
Qed.

Lemma optimize_unchanged c :
  (forall svc, In svc (services c) -> not_canonical svc) ->
  _optimize_configuration c = c.
Proof.
  intros H. unfold _optimize_configuration, scan_services.
  rewrite scan_services_step_nil by assumption. reflexivity.
Qed.









End FortinetGeneratorFacts.

(* ================================================================== *)
(** ** The Palo Alto generator *)
(* ================================================================== *)

Module PaloAltoGeneratorFacts.
Import PaloAltoGenerator Samples.

Lemma dict_get_set_other {V} k k' (v : V) d :
  k <> k' -> dict_get k (dict_set k' v d) = dict_get k d.
Proof.
  intros Hne. induction d as [|[a b] d IH]; simpl.
  - destruct (k =? k') eqn:E; [apply String.eqb_eq in E; contradiction | reflexivity].
  - destruct (k' =? a) eqn:E1; simpl.
    + apply String.eqb_eq in E1. subst a.
      destruct (k =? k') eqn:E; [apply String.eqb_eq in E; contradiction | reflexivity].
    + destruct (k =? a); [reflexivity | exact IH].
Qed.

Lemma insert_by_In {A} (key : A -> string) x l y :
  In y (insert_by key x l) <-> y = x \/ In y l.
Proof.
  induction l as [|z l IH]; simpl.
  - intuition.
  - destruct (String.leb (key x) (key z)); simpl; [intuition|].
    rewrite IH. intuition.
Qed.

Lemma sorted_by_In {A} (key : A -> string) l y :
  In y (sorted_by key l) <-> In y l.
Proof.
  unfold sorted_by. induction l as [|x l IH]; simpl.
  - tauto.
  - rewrite insert_by_In, IH. intuition.
Qed.

(** *** The order of strings and the stable sort *)

Lemma ascii_compare_trans_lt a b c :
  Ascii.compare a b = Lt -> Ascii.compare b c = Lt -> Ascii.compare a c = Lt.
Proof.
  unfold Ascii.compare. rewrite !N.compare_lt_iff. lia.
Qed.

Lemma ascii_compare_eq a b : Ascii.compare a b = Eq -> a = b.
Proof. apply Ascii.compare_eq_iff. Qed.

Lemma string_compare_trans_le a : forall b c,
  String.compare a b <> Gt -> String.compare b c <> Gt -> String.compare a c <> Gt.
Proof.
  induction a as [|x a IH]; intros [|y b] [|z c]; simpl; try congruence.
  destruct (Ascii.compare x y) eqn:Exy; try congruence.
  - apply ascii_compare_eq in Exy. subst y.
    destruct (Ascii.compare x z) eqn:Exz; try congruence. apply IH.
  - destruct (Ascii.compare y z) eqn:Eyz; try congruence.
    + apply ascii_compare_eq in Eyz. subst z. rewrite Exy. congruence.
    + rewrite (ascii_compare_trans_lt _ _ _ Exy Eyz). congruence.
Qed.

Lemma leb_trans a b c :
  String.leb a b = true -> String.leb b c = true -> String.leb a c = true.
Proof.
  unfold String.leb. intros H1 H2.
  pose proof (string_compare_trans_le a b c) as H.
  destruct (String.compare a b); destruct (String.compare b c);
    destruct (String.compare a c); try reflexivity; try discriminate;
    exfalso; apply H; congruence.
Qed.

Section Sorting.
Context {A : Type} (key : A -> string).

Lemma insert_by_perm x l : Permutation (insert_by key x l) (x :: l).
Proof.
  induction l as [|y l IH]; simpl; [reflexivity|].
  destruct (String.leb (key x) (key y)); [reflexivity|].
  rewrite IH. apply perm_swap.
Qed.

Lemma sorted_by_perm l : Permutation (sorted_by key l) l.
Proof.
  induction l as [|x l IH]; simpl; [reflexivity|].
  rewrite insert_by_perm. now constructor.
Qed.

Lemma insert_by_sorted x l :
  StronglySorted (key_le key) l -> StronglySorted (key_le key) (insert_by key x l).
Proof.
  induction l as [|y l IH]; intros Hs; simpl.
  - constructor; constructor.
  - inversion Hs as [|? ? Hs' Hall]; subst.
    destruct (String.leb (key x) (key y)) eqn:E.
    + constructor; [assumption|]. constructor; [exact E|].
      eapply Forall_impl; [|exact Hall]. intros z Hz. unfold key_le in *.
      eapply leb_trans; eassumption.
    + constructor; [now apply IH|].
      assert (Hyx : key_le key y x).
      { unfold key_le. destruct (String.leb_total (key x) (key y)); congruence. }
      eapply Permutation_Forall; [symmetry; apply insert_by_perm|].
      constructor; assumption.
Qed.

Lemma sorted_by_sorted l : StronglySorted (key_le key) (sorted_by key l).
Proof.
  induction l as [|x l IH]; simpl; [constructor | now apply insert_by_sorted].
Qed.



End Sorting.








(** On a configuration without NAT rules the wildcard FQDN is written as a
    category only: the rule to it has destination any. *)
Lemma wildcard_rule_plain :
  let (addr_out, rules_out) := addresses_then_rules plain_options c5_config_plain in
  forallb (fun chunk => negb (contains " address " chunk)) addr_out = true
  /\ In ("set profiles custom-url-category " ++ quoted "WildSite" ++ " list [ "
           ++ quoted "*.example.com" ++ " ]" ++ nl) addr_out
  /\ In ("set rulebase security rules " ++ quoted "web" ++ " destination any" ++ nl)
        rules_out
  /\ In ("set rulebase security rules " ++ quoted "web" ++ " category [ "
           ++ quoted "WildSite" ++ " ]" ++ nl) rules_out.
Proof. vm_compute. repeat split; tauto. Qed.

(** C5: in [c5_config] the wildcard FQDN WildSite is the original
    destination of a NAT rule towards X, and the rule goes to both.  No
    address object is written for WildSite and it is put in the category
    list, yet the destination list of the emitted rule names WildSite: the
    reverse map puts it back in place of X. *)
Theorem C5_wildcard_destination_reintroduced :
  let (addr_out, rules_out) := addresses_then_rules plain_options c5_config in
  In "WildSite" (rule_destination c5_rule)
  /\ forallb (fun chunk => negb (contains ("address " ++ quoted "WildSite") chunk))
             addr_out = true
  /\ In ("set rulebase security rules " ++ quoted "web" ++ " category [ "
           ++ quoted "WildSite" ++ " ]" ++ nl) rules_out
  /\ In ("set rulebase security rules " ++ quoted "web" ++ " destination [ "
           ++ quoted "WildSite" ++ " ]" ++ nl) rules_out.
Proof. vm_compute. repeat split; tauto. Qed.

(** *** The address section does not depend on the iteration order *)











End PaloAltoGeneratorFacts.

(* ================================================================== *)
(** ** Further properties of the analyzer *)
(* ================================================================== *)

Module AnalyzerMore.
Import Analyzer AnalyzerSpec Samples.

(** X1: the overall score of every report lies between 0 and 100. *)
Theorem X1_overall_score_in_range :
  forall config, (0 <= overall_score (analyze config) <= 100)%Z.
Proof.
  intros config. unfold analyze, _calculate_scores.
  cbn [overall_score sc_overall].
  match goal with
  | |- (_ <= py_int (inject_Z (clamp ?a) * _ + inject_Z (clamp ?b) * _
                     + inject_Z (clamp ?c) * _)%Q <= _)%Z =>
      pose proof (AnalyzerFacts.clamp_range a) as Ha;
      pose proof (AnalyzerFacts.clamp_range b) as Hb;
      pose proof (AnalyzerFacts.clamp_range c) as Hc;
      set (x := clamp a) in *; set (y := clamp b) in *; set (z := clamp c) in *
  end.
  change (py_int _) with (py_int (spec_weighted x y z)).
  destruct (@AnalyzerFacts.py_int_weighted x y z ltac:(lia) ltac:(lia) ltac:(lia))
    as [H1 H2].
  rewrite H1, H2. split.
  - apply Z.div_pos; lia.
  - apply Z.div_le_upper_bound; lia.
Qed.

Lemma flat_map_filter_map {A B} (test : A -> bool) (f : A -> B) (l : list A) :
  flat_map (fun x => if test x then [f x] else []) l = map f (filter test l).
Proof.
  induction l as [|x l IH]; simpl; [reflexivity|].
  destruct (test x); simpl; now rewrite IH.
Qed.

(** X2: when no rule has a positive hit count, no rule is reported as
    unused; when some rule has one, the report lists exactly the enabled
    rules whose hit count is zero, in rule order. *)
Theorem X2_unused_needs_hit_data :
  forall config,
    ((forall r, In r (rules config) -> (rule_hit_count r <= 0)%Z) ->
     _find_unused_objects config = [])
    /\ ((exists r, In r (rules config) /\ (0 < rule_hit_count r)%Z) ->
        _find_unused_objects config
        = map (fun rule => "Rule '" ++ rule_name rule ++ "' (0 hits) - Consider removing")
              (filter (fun rule => rule_enabled rule && (rule_hit_count rule =? 0)%Z)
                      (rules config))).
Proof.
  intros config. unfold _find_unused_objects. split.
  - intros H.
    destruct (existsb (fun r => (0 <? rule_hit_count r)%Z) (rules config)) eqn:E;
      [|reflexivity].
    apply existsb_exists in E. destruct E as [r [Hr Hp]].
    apply Z.ltb_lt in Hp. specialize (H r Hr). lia.
  - intros [r [Hr Hp]].
    assert (E : existsb (fun r => (0 <? rule_hit_count r)%Z) (rules config) = true).
    { apply existsb_exists. exists r. split; [assumption | now apply Z.ltb_lt]. }
    rewrite E. apply flat_map_filter_map.
Qed.

(** The theorem at a rule list with hit data: the enabled rules with no
    hit are reported. *)
Lemma X2_witness :
  _find_unused_objects x_config_rules
  = ["Rule 'wide' (0 hits) - Consider removing";
     "Rule 'host' (0 hits) - Consider removing"].
Proof.
  rewrite (proj2 (X2_unused_needs_hit_data x_config_rules)).
  - reflexivity.
  - exists x_rule_net. split; [simpl; tauto | reflexivity].
Defined.

Lemma covers_trans s1 s2 s3 : covers s2 s1 -> covers s3 s2 -> covers s3 s1.
Proof.
  intros [H1 | [Hne1 H1]] H2; [now left|].
  destruct H2 as [[y [Hy Hany]] | [Hne2 H2]].
  - left. destruct (H1 y Hy) as [z [Hz Hl]]. exists z. split; [assumption|].
    rewrite Hl. exact Hany.
  - right. split; [assumption|]. intros x Hx.
    destruct (H2 x Hx) as [y [Hy Hl]]. destruct (H1 y Hy) as [z [Hz Hl']].
    exists z. split; [assumption | congruence].
Qed.

(** X3: shadowing is transitive: when a rule shadows a second one and the
    second shadows a third, the first shadows the third. *)
Theorem X3_is_shadowing_transitive :
  forall r1 r2 r3,
    _is_shadowing r1 r2 = true -> _is_shadowing r2 r3 = true ->
    _is_shadowing r1 r3 = true.
Proof.
  intros r1 r2 r3 H12 H23.
  apply AnalyzerFacts._is_shadowing_spec in H12, H23.
  apply AnalyzerFacts._is_shadowing_spec.
  destruct H12 as (Ha & Hs & Hd & Hv). destruct H23 as (Ha' & Hs' & Hd' & Hv').
  repeat split; [congruence | | |]; eapply covers_trans; eassumption.
Qed.

(** The theorem at the chain of [x_config_rules]. *)
Lemma X3_witness : _is_shadowing x_rule_any x_rule_host = true.
Proof.
  apply (X3_is_shadowing_transitive x_rule_any x_rule_net x_rule_host); reflexivity.
Defined.

Lemma dict_append_fresh {V} k (x : V) m :
  ~ In k (map fst m) -> dict_append k x m = (m ++ [(k, [x])])%list.
Proof.
  induction m as [|[k' xs] m IH]; intros H; simpl; [reflexivity|].
  destruct (String.eqb_spec k k') as [->|Hne].
  - exfalso. apply H. now left.
  - f_equal. apply IH. intros Hin. apply H. now right.
Qed.

Lemma group_by_key_distinct {V} (key : V -> string) l :
  NoDup (map key l) ->
  group_by_key key l = map (fun x => (key x, [x])) l.
Proof.
  unfold group_by_key.
  assert (G : forall l acc,
             NoDup (map fst acc ++ map key l) ->
             fold_left (fun m x => dict_append (key x) x m) l acc
             = (acc ++ map (fun x => (key x, [x])) l)%list).
  { clear l. induction l as [|x l IH]; intros acc Hnd; cbn [fold_left map].
    - now rewrite app_nil_r.
    - cbn [map] in Hnd.
      rewrite dict_append_fresh.
      + rewrite IH.
        * now rewrite <- app_assoc.
        * rewrite map_app. cbn [map fst]. rewrite <- app_assoc. exact Hnd.
      + intros Hin. apply NoDup_remove_2 in Hnd. apply Hnd.
        apply in_or_app. now left. }
  intros H. now rewrite G.
Qed.

Lemma report_duplicates_singletons {V} ty (name : V -> string) (key : V -> string) l :
  report_duplicates ty name (map (fun x => (key x, [x])) l) = [].
Proof. induction l as [|x l IH]; simpl; [reflexivity | exact IH]. Qed.

(** X4: when the values of the addresses are pairwise different and so are
    those of the services, no duplicate object is reported. *)
Theorem X4_no_duplicates_when_keys_distinct :
  forall config,
    NoDup (map _get_address_key (addresses config)) ->
    NoDup (map _get_service_key (services config)) ->
    _find_duplicate_objects config = [].
Proof.
  intros config Ha Hs. unfold _find_duplicate_objects.
  rewrite (group_by_key_distinct _ _ Ha), (group_by_key_distinct _ _ Hs).
  now rewrite !report_duplicates_singletons.
Qed.

(** The theorem at [x_config_distinct]. *)
Lemma X4_witness : _find_duplicate_objects x_config_distinct = [].
Proof.
  apply X4_no_duplicates_when_keys_distinct.
  - repeat constructor; simpl; intuition discriminate.
  - repeat constructor; simpl; intuition discriminate.
Defined.

Lemma dict_append_groups {V} (key : V -> string) (P : V -> Prop) x m :
  P x ->
  (forall k xs, In (k, xs) m -> xs <> [] /\ forall y, In y xs -> P y /\ key y = k) ->
  forall k xs, In (k, xs) (dict_append (key x) x m) ->
               xs <> [] /\ forall y, In y xs -> P y /\ key y = k.
Proof.
  intros Hx. induction m as [|[k' xs'] m IH]; intros Hm k xs Hin; simpl in Hin.
  - destruct Hin as [Hin | []]. inversion Hin; subst.
    split; [discriminate|]. intros y [<- | []]. now split.
  - destruct (String.eqb_spec (key x) k') as [He|Hne].
    + destruct Hin as [Hin | Hin].
      * inversion Hin; subst. destruct (Hm (key x) xs' (or_introl eq_refl)) as [Hn Hall].
        split; [destruct xs'; discriminate|].
        intros y Hy. apply in_app_or in Hy. destruct Hy as [Hy | [<- | []]];
          [now apply Hall | now split].
      * apply Hm. now right.
    + destruct Hin as [Hin | Hin].
      * apply Hm. now left.
      * apply IH; [|assumption]. intros k0 xs0 H0. apply Hm. now right.
Qed.

Lemma group_by_key_groups {V} (key : V -> string) (l : list V) :
  forall k xs, In (k, xs) (group_by_key key l) ->
               xs <> [] /\ forall y, In y xs -> In y l /\ key y = k.
Proof.
  unfold group_by_key.
  assert (G : forall l0 acc (P : V -> Prop),
             (forall y, In y l0 -> P y) ->
             (forall k xs, In (k, xs) acc ->
                           xs <> [] /\ forall y, In y xs -> P y /\ key y = k) ->
             forall k xs,
               In (k, xs) (fold_left (fun m x => dict_append (key x) x m) l0 acc) ->
               xs <> [] /\ forall y, In y xs -> P y /\ key y = k).
  { induction l0 as [|x l0 IH]; intros acc P HP Hacc k xs Hin; cbn [fold_left] in Hin.
    - now apply Hacc.
    - eapply IH; [| |exact Hin].
      + intros; apply HP; now right.
      + apply dict_append_groups; [apply HP; now left | assumption]. }
  intros k xs Hin.
  apply (G l [] (fun y => In y l)); [auto | intros ? ? [] | assumption].
Qed.

Lemma report_duplicates_sound {V} ty (name key : V -> string) (l : list V) d :
  In d (report_duplicates ty name (group_by_key key l)) ->
  dup_type d = ty
  /\ dup_duplicate_names d <> []
  /\ (exists x, In x l /\ name x = dup_original_name d /\ key x = dup_value d)
  /\ forall n, In n (dup_duplicate_names d) ->
               exists y, In y l /\ name y = n /\ key y = dup_value d.
Proof.
  unfold report_duplicates. intros Hin. apply in_flat_map in Hin.
  destruct Hin as [[k xs] [Hg Hd]].
  destruct (group_by_key_groups key l _ _ Hg) as [_ Hall].
  destruct xs as [|x0 rest]; [destruct Hd|].
  destruct rest as [|x1 rest]; [destruct Hd|].
  cbn [length Nat.ltb Nat.leb] in Hd. destruct Hd as [<- | []].
  cbn [dup_type dup_duplicate_names dup_original_name dup_value].
  split; [reflexivity|]. split; [discriminate|]. split.
  - exists x0. destruct (Hall x0 (or_introl eq_refl)). tauto.
  - intros n Hn. apply in_map_iff in Hn. destruct Hn as [y [<- Hy]].
    exists y. destruct (Hall y (or_intror Hy)). tauto.
Qed.

(** X5: every reported duplicate names at least one duplicate, and the
    original and the duplicates it names are objects of the configuration
    that all have the reported value: addresses for an entry of type
    address, services for one of type service. *)
Theorem X5_duplicate_report_sound :
  forall config d,
    In d (_find_duplicate_objects config) ->
    dup_duplicate_names d <> []
    /\ ((dup_type d = "address"
         /\ (exists a, In a (addresses config) /\ addr_name a = dup_original_name d
                       /\ _get_address_key a = dup_value d)
         /\ forall n, In n (dup_duplicate_names d) ->
                      exists a, In a (addresses config) /\ addr_name a = n
                                /\ _get_address_key a = dup_value d)
        \/ (dup_type d = "service"
            /\ (exists s, In s (services config) /\ svc_name s = dup_original_name d
                          /\ _get_service_key s = dup_value d)
            /\ forall n, In n (dup_duplicate_names d) ->
                         exists s, In s (services config) /\ svc_name s = n
                                   /\ _get_service_key s = dup_value d)).
Proof.
  intros config d Hin. unfold _find_duplicate_objects in Hin.
  apply in_app_or in Hin. destruct Hin as [Hin | Hin];
    apply report_duplicates_sound in Hin; destruct Hin as (Ht & Hn & Ho & Hd);
    (split; [exact Hn|]); [left | right]; auto.
Qed.

(** The theorem at the two hosts of one value of [c4_config]. *)
Lemma X5_witness :
  exists d, In d (_find_duplicate_objects c4_config)
            /\ dup_duplicate_names d <> [] /\ dup_value d = "host:10.0.0.1".
Proof.
  exists (mkDuplicateObject "address" "h1" ["h2"] "host:10.0.0.1"
            "Keep 'h1', replace 1 duplicate reference(s)").
  assert (Hin : In (mkDuplicateObject "address" "h1" ["h2"] "host:10.0.0.1"
                      "Keep 'h1', replace 1 duplicate reference(s)")
                   (_find_duplicate_objects c4_config)) by (now left).
  split; [exact Hin|]. split; [|reflexivity].
  exact (proj1 (X5_duplicate_report_sound c4_config _ Hin)).
Defined.

End AnalyzerMore.

(* ================================================================== *)
(** ** Further properties of the Fortinet generator *)
(* ================================================================== *)

Module FortinetGeneratorMore.
Import FortinetGenerator Samples.

Lemma canonical_b_false svc : canonical_b svc = false <-> not_canonical svc.
Proof.
  unfold canonical_b, not_canonical.
  destruct (dict_has (svc_name svc) FORTINET_DEFAULTS); cbn [negb andb].
  - split; [now left | reflexivity].
  - destruct (find_default _ _ _); split; try discriminate; try reflexivity.
    + intros [H | H]; discriminate.
    + now right.
Qed.

Lemma dict_has_In {V} k (d : list (string * V)) :
  dict_has k d = true <-> In k (map fst d).
Proof.
  unfold dict_has. induction d as [|[k' v] d IH]; simpl.
  - split; [discriminate | tauto].
  - destruct (String.eqb_spec k k') as [->|Hne].
    + split; [now left | reflexivity].
    + rewrite IH. split; [now right | intros [H | H]; [congruence | assumption]].
Qed.

Lemma dict_set_keys {V} k (v : V) d x :
  In x (map fst (dict_set k v d)) <-> x = k \/ In x (map fst d).
Proof.
  induction d as [|[k' v'] d IH]; simpl.
  - intuition.
  - destruct (String.eqb_spec k k') as [->|Hne]; simpl; [intuition|].
    rewrite IH. intuition.
Qed.

Lemma dict_get_set_cases {V} k (v : V) d x w :
  dict_get x (dict_set k v d) = Some w -> (x = k /\ w = v) \/ dict_get x d = Some w.
Proof.
  destruct (String.eqb_spec x k) as [->|Hne].
  - rewrite FortinetParserFacts.dict_get_set. intros H. inversion H. now left.
  - rewrite PaloAltoGeneratorFacts.dict_get_set_other by assumption. now right.
Qed.

Lemma find_default_named defaults proto port d :
  find_default defaults proto port = Some d -> In d (map fst defaults).
Proof.
  induction defaults as [|[n [p q]] rest IH]; simpl; [discriminate|].
  destruct (p =? proto).
  - destruct q as [q|].
    + destruct (port_matches port q).
      * intros H. inversion H. now left.
      * intros H. right. now apply IH.
    + intros H. inversion H. now left.
  - intros H. right. now apply IH.
Qed.

(** What the first loop of [_optimize_configuration] computes. *)
Lemma scan_services_spec svcs :
  let '(rm, tr) := scan_services svcs in
  (forall x, In x tr <-> exists svc, In svc svcs /\ canonical_b svc = true
                                     /\ svc_name svc = x)
  /\ (forall x, In x (map fst rm) <-> In x tr)
  /\ (forall k v, dict_get k rm = Some v -> In v (map fst FORTINET_DEFAULTS)).
Proof.
  unfold scan_services.
  set (step := fun '(replacement_map, services_to_remove) svc =>
                 if dict_has (svc_name svc) FORTINET_DEFAULTS
                 then (replacement_map, services_to_remove)
                 else
                   let proto := lower (svc_protocol svc) in
                   let port_norm := _normalize_port (svc_port svc) in
                   match find_default FORTINET_DEFAULTS proto port_norm with
                   | Some def_name =>
                       (dict_set (svc_name svc) def_name replacement_map,
                        set_add (svc_name svc) services_to_remove)
                   | None => (replacement_map, services_to_remove)
                   end).
  assert (G : forall l rm0 tr0,
             (forall x, In x (map fst rm0) <-> In x tr0) ->
             (forall k v, dict_get k rm0 = Some v -> In v (map fst FORTINET_DEFAULTS)) ->
             let '(rm, tr) := fold_left step l (rm0, tr0) in
             (forall x, In x tr <-> In x tr0 \/
                                    exists svc, In svc l /\ canonical_b svc = true
                                                /\ svc_name svc = x)
             /\ (forall x, In x (map fst rm) <-> In x tr)
             /\ (forall k v, dict_get k rm = Some v -> In v (map fst FORTINET_DEFAULTS))).
  { induction l as [|svc l IH]; intros rm0 tr0 Hk Hv; cbn [fold_left].
    - split; [|split; assumption].
      intros x. split; [tauto | intros [H | [s [[] _]]]; exact H].
    - assert (Hstep : step (rm0, tr0) svc
                      = if canonical_b svc
                        then (dict_set (svc_name svc)
                                (match find_default FORTINET_DEFAULTS
                                         (lower (svc_protocol svc))
                                         (_normalize_port (svc_port svc)) with
                                 | Some d => d | None => "" end) rm0,
                              set_add (svc_name svc) tr0)
                        else (rm0, tr0)).
      { unfold step, canonical_b.
        destruct (dict_has (svc_name svc) FORTINET_DEFAULTS); cbn [negb andb];
          [reflexivity|].
        cbv zeta. destruct (find_default _ _ _); reflexivity. }
      rewrite Hstep. destruct (canonical_b svc) eqn:Ec.
      + specialize (IH (dict_set (svc_name svc)
                          (match find_default FORTINET_DEFAULTS
                                   (lower (svc_protocol svc))
                                   (_normalize_port (svc_port svc)) with
                           | Some d => d | None => "" end) rm0)
                       (set_add (svc_name svc) tr0)).
        destruct (fold_left step l _) as [rm tr].
        destruct IH as [I1 [I2 I3]].
        * intros x. rewrite dict_set_keys, FortinetParserFacts.set_add_In, Hk. tauto.
        * intros k v Hg. apply dict_get_set_cases in Hg.
          destruct Hg as [[-> ->] | Hg]; [|eapply Hv; eassumption].
          unfold canonical_b in Ec. apply andb_true_iff in Ec. destruct Ec as [_ Ec].
          destruct (find_default _ _ _) eqn:Ef; [|discriminate].
          eapply find_default_named; eassumption.
        * split; [|split; assumption].
          intros x. rewrite I1, FortinetParserFacts.set_add_In. split.
          -- intros [[H | ->] | [s [Hs Hr]]];
               [now left | right; exists svc; simpl; tauto
                | right; exists s; simpl; tauto].
          -- intros [H | [s [[<- | Hs] [Hc Hn]]]];
               [left; now left | left; right; now symmetry | right; exists s; tauto].
      + specialize (IH rm0 tr0 Hk Hv).
        destruct (fold_left step l (rm0, tr0)) as [rm tr].
        destruct IH as [I1 [I2 I3]]. split; [|split; assumption].
        intros x. rewrite I1. split.
        * intros [H | [s [Hs Hr]]]; [now left | right; exists s; simpl; tauto].
        * intros [H | [s [[<- | Hs] [Hc Hn]]]];
            [now left | congruence | right; exists s; tauto]. }
  specialize (G svcs [] []).
  destruct (fold_left step svcs ([], [])) as [rm tr].
  destruct G as [G1 [G2 G3]]; [simpl; tauto | intros k v H; discriminate|].
  split; [|split; assumption].
  intros x. rewrite G1. simpl. tauto.
Qed.

Lemma optimize_postcondition c :
  forall svc, In svc (services (_optimize_configuration c)) -> not_canonical svc.
Proof.
  intros svc Hin. unfold _optimize_configuration in Hin.
  pose proof (scan_services_spec (services c)) as Hspec.
  destruct (scan_services (services c)) as [rm tr].
  destruct Hspec as [H1 [H2 _]].
  apply canonical_b_false. destruct (canonical_b svc) eqn:Ec; [|reflexivity].
  exfalso. destruct (nonempty rm) eqn:Ene; cbn [negb] in Hin.
  - cbn [services with_services] in Hin. apply filter_In in Hin.
    destruct Hin as [Hin Hnot]. apply negb_true_iff in Hnot.
    assert (Ht : In (svc_name svc) tr) by (apply H1; exists svc; tauto).
    apply mem_In in Ht. congruence.
  - assert (Ht : In (svc_name svc) tr) by (apply H1; exists svc; tauto).
    apply H2 in Ht. destruct rm; [destruct Ht | discriminate].
Qed.

(** X6: service canonicalization is idempotent: after one run no remaining
    custom service equals a default, and a second run leaves the
    configuration as the first one left it. *)
Theorem X6_optimize_idempotent :
  forall c,
    (forall svc, In svc (services (_optimize_configuration c)) -> not_canonical svc)
    /\ _optimize_configuration (_optimize_configuration c) = _optimize_configuration c.
Proof.
  intros c. split.
  - apply optimize_postcondition.
  - apply FortinetGeneratorFacts.optimize_unchanged, optimize_postcondition.
Qed.

Lemma replace_in_collection_In rm col x :
  In x (replace_in_collection rm col) ->
  exists item, In item col
               /\ x = match dict_get item rm with Some d => d | None => item end.
Proof.
  unfold replace_in_collection.
  assert (G : forall l acc,
             In x (fold_left
                     (fun new_col item =>
                        match dict_get item rm with
                        | Some d => set_add d new_col
                        | None => set_add item new_col
                        end) l acc) ->
             In x acc \/
             exists item, In item l
                          /\ x = match dict_get item rm with Some d => d | None => item end).
  { induction l as [|i l IH]; intros acc H; cbn [fold_left] in H; [now left|].
    apply IH in H. destruct H as [H | [item [Hi Hx]]].
    - destruct (dict_get i rm) eqn:E; apply FortinetParserFacts.set_add_In in H;
        destruct H as [H | ->]; try (now left);
        right; exists i; rewrite E; (split; [now left | reflexivity]).
    - right. exists item. split; [now right | assumption]. }
  intros H. apply G in H. destruct H as [[] | H]. exact H.
Qed.

Lemma replaced_not_removed c x col :
  let '(rm, tr) := scan_services (services c) in
  In x (replace_in_collection rm col) -> ~ In x tr.
Proof.
  pose proof (scan_services_spec (services c)) as Hspec.
  destruct (scan_services (services c)) as [rm tr].
  destruct Hspec as [H1 [H2 H3]].
  intros Hin Ht. apply replace_in_collection_In in Hin.
  destruct Hin as [item [_ Hx]].
  destruct (dict_get item rm) as [d|] eqn:E.
  - subst x. apply H3 in E. apply H1 in Ht. destruct Ht as [svc [_ [Hc Hn]]].
    unfold canonical_b in Hc. apply andb_true_iff in Hc. destruct Hc as [Hc _].
    apply negb_true_iff in Hc. rewrite Hn in Hc.
    apply dict_has_In in E. congruence.
  - subst x. apply H2 in Ht. apply dict_has_In in Ht.
    unfold dict_has in Ht. rewrite E in Ht. discriminate.
Qed.

Lemma replaced_name_not_removed c item :
  let '(rm, tr) := scan_services (services c) in
  ~ In (match dict_get item rm with Some d => d | None => item end) tr.
Proof.
  pose proof (scan_services_spec (services c)) as Hspec.
  destruct (scan_services (services c)) as [rm tr].
  destruct Hspec as [H1 [H2 H3]]. intros Ht.
  destruct (dict_get item rm) as [d|] eqn:E.
  - apply H3 in E. apply H1 in Ht. destruct Ht as [svc [_ [Hc Hn]]].
    unfold canonical_b in Hc. apply andb_true_iff in Hc. destruct Hc as [Hc _].
    apply negb_true_iff in Hc. rewrite Hn in Hc.
    apply dict_has_In in E. congruence.
  - apply H2 in Ht. apply dict_has_In in Ht.
    unfold dict_has in Ht. rewrite E in Ht. discriminate.
Qed.

(** X7: no reference is left to a removed service: when running the
    generator removes a custom service from the configuration, no rule, no
    NAT rule and no service group of the resulting configuration names it
    among its services or members, and no NAT rule has it as its translated
    service (an empty translated service is no reference: the generator
    tests it before it looks it up). *)
Theorem X7_no_reference_to_removed_service :
  forall c svc,
    In svc (services c) ->
    ~ In svc (services (generate_config c)) ->
    (forall rule, In rule (rules (generate_config c)) ->
                  ~ In (svc_name svc) (rule_service rule))
    /\ (forall nat, In nat (nat_rules (generate_config c)) ->
                    ~ In (svc_name svc) (nat_original_service nat))
    /\ (forall nat ts, In nat (nat_rules (generate_config c)) ->
                       nat_translated_service nat = Some ts ->
                       truthy ts = true -> ts <> svc_name svc)
    /\ (forall grp, In grp (service_groups (generate_config c)) ->
                    ~ In (svc_name svc) (sgrp_members grp)).
Proof.
  intros c svc Hin Hgone. unfold generate_config in *.
  pose proof (fun col x => replaced_not_removed c x col) as Hrep.
  pose proof (replaced_name_not_removed c) as Hname.
  unfold _optimize_configuration in *.
  destruct (scan_services (services c)) as [rm tr].
  destruct (nonempty rm); cbn [negb] in *; [|contradiction].
  cbn [services rules nat_rules service_groups with_services with_rules
       with_nat_rules with_service_groups] in *.
  assert (Ht : In (svc_name svc) tr).
  { destruct (mem (svc_name svc) tr) eqn:E; [now apply mem_In|].
    exfalso. apply Hgone. apply filter_In. split; [assumption | now rewrite E]. }
  split; [|split; [|split]].
  - intros rule Hr Hx. apply in_map_iff in Hr. destruct Hr as [r [<- _]].
    cbn [rule_service with_rule_service] in Hx. exact (Hrep _ _ Hx Ht).
  - intros nat Hn Hx. apply in_map_iff in Hn. destruct Hn as [n [<- _]].
    cbn [nat_original_service with_nat_services] in Hx. exact (Hrep _ _ Hx Ht).
  - intros nat ts Hn Hts Htruthy Heq. apply in_map_iff in Hn.
    destruct Hn as [n [<- _]]. cbn [nat_translated_service with_nat_services] in Hts.
    destruct (nat_translated_service n) as [ts0|]; [|discriminate].
    destruct (truthy ts0) eqn:E0.
    + specialize (Hname ts0). destruct (dict_get ts0 rm) as [d|];
        injection Hts as <-; apply Hname; now rewrite Heq.
    + injection Hts as <-. congruence.
  - intros grp Hg Hx. apply in_map_iff in Hg. destruct Hg as [g [<- _]].
    cbn [sgrp_members with_sgrp_members] in Hx. exact (Hrep _ _ Hx Ht).
Qed.

(** The theorem at [c2_config]: the removed service WEB is named by no rule
    of the resulting configuration. *)
Lemma X7_witness :
  In (mkService "WEB" "tcp" "eq 80" "") (services c2_config)
  /\ Forall (fun rule => mem "WEB" (rule_service rule) = false)
            (rules (generate_config c2_config)).
Proof.
  split; [left; reflexivity|]. apply Forall_forall. intros rule Hr.
  assert (Hgone : ~ In (mkService "WEB" "tcp" "eq 80" "")
                       (services (generate_config c2_config))).
  { vm_compute. tauto. }
  pose proof (proj1 (@X7_no_reference_to_removed_service c2_config
                       (mkService "WEB" "tcp" "eq 80" "") (or_introl eq_refl) Hgone)
                rule Hr) as Hno.
  destruct (mem "WEB" (rule_service rule)) eqn:E; [|reflexivity].
  exfalso. apply Hno. apply mem_In. exact E.
Defined.

(** X8: a range whose start and end are the same address is written like a
    host: the text is that of the host object of that name and address. *)
Theorem X8_single_address_range_as_host :
  forall name ip text text',
    address_block (mkAddress name "range" ip (Some ip) text)
    = address_block (mkAddress name "host" ip None text').
Proof.
  intros name ip text text'. unfold address_block.
  cbn [addr_name addr_type addr_value1 addr_value2].
  change ("range" =? "host") with false. change ("range" =? "network") with false.
  change ("range" =? "range") with true. change ("host" =? "host") with true.
  cbv iota. now rewrite String.eqb_refl.
Qed.

End FortinetGeneratorMore.

(* ================================================================== *)
(** ** The netmask helpers of the base classes *)
(* ================================================================== *)

Module BaseMore.
Import Base.

(** X9: turning a prefix length between 0 and 32 into a dotted netmask with
    [_cidr_to_mask] and back with [_mask_to_cidr] gives the prefix length
    again. *)
Theorem X9_cidr_mask_round_trip :
  forall n : nat,
    (n <= 32)%nat ->
    _mask_to_cidr (_cidr_to_mask (str_of_nat n)) = str_of_nat n.
Proof.
  intros n H.
  do 33 (destruct n as [|n]; [vm_compute; reflexivity|]).
  lia.
Qed.

(** The theorem at the prefix length 24. *)
Lemma X9_witness :
  _cidr_to_mask "24" = "255.255.255.0" /\ _mask_to_cidr "255.255.255.0" = "24".
Proof.
  split; [reflexivity|].
  exact (@X9_cidr_mask_round_trip 24 ltac:(repeat constructor)).
Defined.

End BaseMore.

(* ================================================================== *)
(** ** Further properties of the Palo Alto generator *)
(* ================================================================== *)

Module PaloAltoGeneratorMore.
Import PaloAltoGenerator Samples.







Lemma set_add_NoDup x s : NoDup s -> NoDup (set_add x s).
Proof.
  intros H. unfold set_add. destruct (mem x s) eqn:E; [assumption|].
  apply NoDup_app; [assumption | repeat constructor; intros [] |].
  intros y Hy [<- | []]. apply mem_In in Hy. congruence.
Qed.

Lemma get_target_zone_nonempty o z : truthy (get_target_zone o z) = true.
Proof.
  unfold get_target_zone. destruct (truthy z) eqn:Ez; cbn [negb]; [|reflexivity].
  destruct (truthy (strip _)) eqn:Es; assumption.
Qed.

(** X12: the zones that [_resolve_zones] returns are in ascending order
    without repetition, none of them is the empty name, and no interface
    gives no zone. *)
Theorem X12_resolve_zones_sorted_distinct :
  forall o g ifaces,
    StronglySorted (key_le (fun z : string => z)) (_resolve_zones o g ifaces)
    /\ NoDup (_resolve_zones o g ifaces)
    /\ (forall z, In z (_resolve_zones o g ifaces) -> truthy z = true)
    /\ _resolve_zones o g [] = [].
Proof.
  intros o g ifaces. unfold _resolve_zones.
  set (step := fun zones i =>
                 let i_clean := strip i in
                 let candidate :=
                   match dict_get i_clean (intf_to_zone_map g) with
                   | Some z => z
                   | None =>
                       match dict_get (lower i_clean) (intf_to_zone_map g) with
                       | Some z => z
                       | None => i_clean
                       end
                   end in
                 set_add (get_target_zone o (strip candidate)) zones).
  assert (G : forall l acc,
             NoDup acc -> (forall z, In z acc -> truthy z = true) ->
             NoDup (fold_left step l acc)
             /\ forall z, In z (fold_left step l acc) -> truthy z = true).
  { induction l as [|i l IH]; intros acc Hnd Hne; cbn [fold_left]; [now split|].
    apply IH.
    - unfold step. cbv zeta. now apply set_add_NoDup.
    - intros z Hz. unfold step in Hz. cbv zeta in Hz.
      apply FortinetParserFacts.set_add_In in Hz.
      destruct Hz as [Hz | ->]; [now apply Hne | apply get_target_zone_nonempty]. }
  destruct (G ifaces [] (NoDup_nil _) (fun z (H : In z []) => match H with end))
    as [Hnd Hne].
  split; [apply PaloAltoGeneratorFacts.sorted_by_sorted|]. split; [|split].
  - eapply Permutation_NoDup; [|exact Hnd].
    symmetry. apply PaloAltoGeneratorFacts.sorted_by_perm.
  - intros z Hz. apply Hne. now apply PaloAltoGeneratorFacts.sorted_by_In in Hz.
  - reflexivity.
Qed.

Lemma split_services_spec rule :
  fst (split_services rule)
  = filter (fun svc => negb (is_icmp_like svc)) (rule_service rule)
  /\ nonempty (snd (split_services rule))
     = nonempty (rule_application rule) || existsb is_icmp_like (rule_service rule).
Proof.
  unfold split_services.
  set (step := fun '(regular_svcs, icmp_apps) svc =>
                 let svc_upper := upper svc in
                 if existsb (fun k => contains k svc_upper) icmp_keywords then
                   if contains "TRACEROUTE" svc_upper
                   then (regular_svcs, set_add "traceroute" icmp_apps)
                   else if contains "PING" svc_upper
                        then (regular_svcs, set_add "ping" icmp_apps)
                        else (regular_svcs, set_add "ping" (set_add "icmp" icmp_apps))
                 else ((regular_svcs ++ [svc])%list, icmp_apps)).
  assert (Hadd : forall x s, nonempty (set_add x s) = true).
  { intros x s. unfold set_add. destruct (mem x s) eqn:E.
    - destruct s; [discriminate | reflexivity].
    - destruct s; reflexivity. }
  assert (G : forall l reg apps,
             fst (fold_left step l (reg, apps))
             = (reg ++ filter (fun svc => negb (is_icmp_like svc)) l)%list
             /\ nonempty (snd (fold_left step l (reg, apps)))
                = nonempty apps || existsb is_icmp_like l).
  { induction l as [|svc l IH]; intros reg apps; cbn [fold_left filter existsb].
    - cbn [fst snd]. now rewrite app_nil_r, orb_false_r.
    - unfold step at 2 4. cbv zeta. fold (is_icmp_like svc).
      destruct (is_icmp_like svc); cbn [negb].
      + destruct (contains "TRACEROUTE" (upper svc));
          [|destruct (contains "PING" (upper svc))];
          destruct (IH reg (set_add "traceroute" apps)) as [A1 A2];
          destruct (IH reg (set_add "ping" apps)) as [B1 B2];
          destruct (IH reg (set_add "ping" (set_add "icmp" apps))) as [C1 C2];
          (split; [assumption|]);
          rewrite ?A2, ?B2, ?C2, !Hadd, orb_true_r; reflexivity.
      + destruct (IH (reg ++ [svc])%list apps) as [H1 H2].
        split; [now rewrite H1, <- app_assoc | now rewrite H2]. }
  destruct (G (rule_service rule) [] (set_update (rule_application rule) []))
    as [H1 H2].
  split; [exact H1|]. rewrite H2. f_equal.
  unfold set_update. destruct (rule_application rule) as [|a l]; [reflexivity|].
  cbn [fold_left nonempty].
  assert (F : forall l0 acc, nonempty acc = true ->
                nonempty (fold_left (fun acc x => set_add x acc) l0 acc) = true).
  { induction l0 as [|y l0 IHl]; intros acc Hacc; cbn [fold_left]; [assumption|].
    apply IHl, Hadd. }
  apply F, Hadd.
Qed.

(** X13: a rule is written as one security rule, under its own name, unless
    it has both a service that is not ICMP-like and an ICMP-like service or
    an application: then it is written as two, with the suffixes _svc and
    _app.  The explicit services of an entry are the services of the rule
    that are not ICMP-like, in the iteration order of the rule's set. *)
Theorem X13_rule_split_in_one_or_two :
  forall rule,
    let regular := filter (fun svc => negb (is_icmp_like svc)) (rule_service rule) in
    let has_app := nonempty (rule_application rule)
                   || existsb is_icmp_like (rule_service rule) in
    map suffix (rules_to_generate rule)
    = (if nonempty regular && has_app then ["_svc"; "_app"] else [""])
    /\ forall rc, In rc (rules_to_generate rule) ->
                  service_setting rc = "explicit" -> rc_services rc = regular.
Proof.
  intros rule regular has_app. unfold rules_to_generate.
  destruct (split_services_spec rule) as [H1 H2].
  destruct (split_services rule) as [reg apps]. cbn [fst snd] in H1, H2.
  subst regular has_app. rewrite <- H1, <- H2.
  destruct reg as [|r reg]; destruct apps as [|a apps]; cbn;
    (split; [reflexivity|]); intros rc Hin Hs;
    repeat (destruct Hin as [<- | Hin]; [try reflexivity; try discriminate|]);
    try destruct Hin.
Qed.

Lemma length_app_str (a b : string) :
  String.length (a ++ b) = (String.length a + String.length b)%nat.
Proof. induction a as [|c a IH]; cbn; [reflexivity | now rewrite IH]. Qed.

Lemma length_substring_le n m (s : string) :
  (String.length (substring n m s) <= m)%nat.
Proof.
  revert n m. induction s as [|c s IH]; intros [|n] [|m]; cbn; try lia.
  - specialize (IH 0%nat m). lia.
  - apply (IH n 0%nat).
  - apply (IH n (S m)).
Qed.

Lemma prefix_append (p rest : string) : String.prefix p (p ++ rest) = true.
Proof.
  induction p as [|c p IH]; cbn; [now destruct rest|].
  destruct (ascii_dec c c); [assumption | congruence].
Qed.

Lemma append_inj_l (p a b : string) : p ++ a = p ++ b -> a = b.
Proof. induction p as [|c p IH]; cbn; [trivial | intros [= H]; auto]. Qed.

Lemma rules_to_generate_suffix rule rc :
  In rc (rules_to_generate rule) -> In (suffix rc) [""; "_svc"; "_app"].
Proof.
  unfold rules_to_generate. destruct (split_services rule) as [reg apps].
  destruct reg, apps; cbn; intros H;
    repeat (destruct H as [<- | H]; [cbn; tauto|]); destruct H.
Qed.

Ltac starts_with_base :=
  repeat first
    [ apply Forall_nil
    | apply Forall_cons; [try apply prefix_append|]
    | apply Forall_app; split
    | match goal with
      | |- Forall _ (profile_cmd _ _ ?n) =>
          unfold profile_cmd; destruct n as [p|]; [destruct (truthy p)|]
      | |- Forall _ (if ?b then _ else _) => destruct b
      | |- Forall _ (match ?x with Some _ => _ | None => _ end) => destruct x
      end ].

(** X14: every security rule that [_generate_rules] writes for a rule has a
    name of at most 63 characters, every command of the entry starts with
    the same rule path under that name, and the entries written for one
    rule have different names. *)
Theorem X14_emitted_rule_names :
  forall o g dnat rule,
    NoDup (map (emitted_rule_name rule) (rules_to_generate rule))
    /\ forall rc, In rc (rules_to_generate rule) ->
         (String.length (emitted_rule_name rule rc) <= 63)%nat
         /\ Forall (fun cmd => startswith (rule_base_cmd o rule rc) cmd = true)
                   (rule_cmds o g dnat rule rc).
Proof.
  intros o g dnat rule. split.
  - unfold rules_to_generate. destruct (split_services rule) as [reg apps].
    destruct reg, apps; cbn [nonempty orb andb negb app map];
      repeat constructor; cbn [In]; try tauto.
    intros [H | []]. unfold emitted_rule_name in H. cbn [suffix String.length] in H.
    apply append_inj_l in H. discriminate.
  - intros rc Hin. split.
    + unfold emitted_rule_name. rewrite length_app_str.
      pose proof (length_substring_le 0 (63 - String.length (suffix rc))
                    (_sanitize_name (rule_name rule))) as Hs.
      apply rules_to_generate_suffix in Hin.
      destruct Hin as [E | [E | [E | []]]]; rewrite <- E in *;
        cbn [String.length] in *; lia.
    + unfold rule_cmds, startswith, rule_base_cmd, emitted_rule_name. cbv zeta.
      set (base := (_get_cmd_prefix o "rule" ++ " security rules " ++ _)%string).
      starts_with_base;
        try match goal with
            | |- String.prefix _ (if ?b then _ else _) = true =>
                destruct b; apply prefix_append
            end.
Qed.

Lemma pool_source_grows pfx nat existing :
  exists added,
    snd (pool_source pfx nat existing) = (existing ++ added)%list
    /\ length (fst (pool_source pfx nat existing)) = length added
    /\ (NoDup existing -> NoDup (existing ++ added)%list).
Proof.
  assert (Hnew : forall x, negb (mem x existing) = true ->
            set_add x existing = (existing ++ [x])%list
            /\ (NoDup existing -> NoDup (existing ++ [x])%list)).
  { intros x Hx. apply negb_true_iff in Hx. unfold set_add. rewrite Hx.
    split; [reflexivity|]. intros Hnd.
    pose proof (@set_add_NoDup x existing Hnd) as H.
    unfold set_add in H. now rewrite Hx in H. }
  assert (Hnone : exists added : list string,
            existing = (existing ++ added)%list
            /\ length (@nil string) = length added
            /\ (NoDup existing -> NoDup (existing ++ added)%list)).
  { exists []. rewrite app_nil_r. auto. }
  unfold pool_source. destruct (nat_translated_source nat) as [ts|]; [|exact Hnone].
  destruct (truthy ts && _); [|exact Hnone]. cbv zeta.
  destruct (negb (mem (_sanitize_name ts) existing)) eqn:E; [|exact Hnone].
  destruct (Hnew _ E) as [-> Hnd].
  destruct (is_match ip_pattern ts); [exists [_sanitize_name ts]; auto|].
  destruct (is_match range_pattern ts); [exists [_sanitize_name ts]; auto|].
  destruct (Re.search ip_anywhere ts); [exists [_sanitize_name ts]; auto | exact Hnone].
Qed.

Lemma pool_destination_grows pfx nat existing :
  exists added,
    snd (pool_destination pfx nat existing) = (existing ++ added)%list
    /\ length (fst (pool_destination pfx nat existing)) = length added
    /\ (NoDup existing -> NoDup (existing ++ added)%list).
Proof.
  assert (Hnone : exists added : list string,
            existing = (existing ++ added)%list
            /\ length (@nil string) = length added
            /\ (NoDup existing -> NoDup (existing ++ added)%list)).
  { exists []. rewrite app_nil_r. auto. }
  unfold pool_destination. destruct (nat_translated_destination nat) as [td|];
    [|exact Hnone].
  destruct (truthy td && _); [|exact Hnone]. cbv zeta.
  destruct (negb (mem (_sanitize_name td) existing)) eqn:E; [|exact Hnone].
  destruct (is_match ip_pattern td); [|exact Hnone].
  exists [_sanitize_name td]. cbn [fst snd length].
  apply negb_true_iff in E.
  pose proof (@set_add_NoDup (_sanitize_name td) existing) as H.
  unfold set_add in *. rewrite E in *. auto.
Qed.

(** X15: the NAT pool loop of [_generate_addresses] only adds names to the
    set of known address names, writes exactly one address command for each
    name it adds, and never adds a name that is already known: a set of
    names without repetition stays so. *)
Theorem X15_pool_objects_created_once :
  forall pfx nats existing,
    exists added,
      snd (pool_loop pfx nats existing) = (existing ++ added)%list
      /\ length (fst (pool_loop pfx nats existing)) = length added
      /\ (NoDup existing -> NoDup (existing ++ added)%list).
Proof.
  intros pfx nats. induction nats as [|nat rest IH]; intros existing.
  - exists []. cbn. rewrite app_nil_r. auto.
  - cbn [pool_loop].
    destruct (pool_source_grows pfx nat existing) as (a1 & E1 & L1 & N1).
    destruct (pool_source pfx nat existing) as [out1 e1]. cbn [fst snd] in *.
    destruct (pool_destination_grows pfx nat e1) as (a2 & E2 & L2 & N2).
    destruct (pool_destination pfx nat e1) as [out2 e2]. cbn [fst snd] in *.
    destruct (IH e2) as (a3 & E3 & L3 & N3).
    destruct (pool_loop pfx rest e2) as [out3 e3]. cbn [fst snd] in *.
    exists (a1 ++ a2 ++ a3)%list. subst e1 e2 e3.
    rewrite !length_app, L1, L2, L3, <- !app_assoc.
    split; [reflexivity|]. split; [reflexivity|].
    intros Hnd. rewrite <- !app_assoc in N3. rewrite <- app_assoc in N2. auto.
Qed.

End PaloAltoGeneratorMore.
(* ------------------------------------------------------------------ *)
(** ** The Fortinet parser: blocks, values and names *)
(* ------------------------------------------------------------------ *)

Module FortinetParserMore.
Import Py FortinetParser Samples.

Section BlockFacts.

Variable St : Type.
Variable f : list string -> St -> option Z -> St.

Lemma advance_succ c a : advance c (a + 1) = advance c (S a).
Proof. now rewrite Nat.add_1_r. Qed.

Lemma process_entry_spec c a cur st :
  process_entry f cur st (advance c a)
  = if nonempty cur then (f cur st (advance c a), advance c (S a))
    else (st, advance c a).
Proof.
  unfold process_entry. destruct cur as [|l cur]; cbn [nonempty negb]; [reflexivity|].
  destruct c as [k|]; cbn [advance option_map]; [|reflexivity].
  do 2 f_equal. lia.
Qed.

Lemma block_loop_spec c :
  forall rest i cur st a,
    exists entries i',
      block_loop f rest i cur st (advance c a)
      = (i', advance c (a + length entries),
         fold_left (fun s '(n, e) => f e s (advance c n))
                   (combine (seq a (length entries)) entries) st)
      /\ (i <= i' <= i + length rest)%nat
      /\ (rest <> [] -> (i < i')%nat)
      /\ Forall (fun e => e <> []) entries
      /\ Forall (fun e => incl e (cur ++ rest)) entries.
Proof.
  assert (Hend : forall i i' (n : nat) cur st a,
             (i <= i' <= i + n)%nat ->
             exists entries i'',
               (let (st0, sc) := process_entry f cur st (advance c a) in (i', sc, st0))
               = (i'', advance c (a + length entries),
                  fold_left (fun s '(n, e) => f e s (advance c n))
                            (combine (seq a (length entries)) entries) st)
               /\ (i <= i'' <= i + n)%nat /\ i'' = i'
               /\ Forall (fun e => e <> []) entries
               /\ Forall (fun e => incl e cur) entries).
  { intros i i' n cur st a Hi. rewrite process_entry_spec.
    destruct cur as [|l cur]; cbn [nonempty].
    - exists [], i'. cbn [length combine seq fold_left]. rewrite Nat.add_0_r.
      repeat split; auto; lia.
    - exists [l :: cur], i'. cbn [length combine seq fold_left].
      rewrite Nat.add_1_r. repeat split; try lia.
      + constructor; [discriminate | constructor].
      + constructor; [apply incl_refl | constructor]. }
  induction rest as [|line rest IH]; intros i cur st a.
  - cbn [block_loop].
    destruct (Hend i i 0%nat cur st a ltac:(lia)) as (es & i' & E & Hi & _ & Hne & Hin).
    exists es, i'. rewrite app_nil_r. cbn [length] in *.
    repeat split; try assumption; try lia. congruence.
  - cbn [block_loop length]. destruct (line =? "end").
    { destruct (Hend i (i + 1)%nat (S (length rest)) cur st a ltac:(lia))
        as (es & i' & E & Hi & Hi' & Hne & Hin).
      exists es, i'. repeat split; try assumption; try lia.
      eapply Forall_impl; [|exact Hin]. intros e He. now apply incl_appl. }
    assert (Hstep : forall cur',
               incl cur' [line] ->
               exists entries i',
                 (let (st0, sc) := process_entry f cur st (advance c a) in
                  block_loop f rest (i + 1) cur' st0 sc)
                 = (i', advance c (a + length entries),
                    fold_left (fun s '(n, e) => f e s (advance c n))
                              (combine (seq a (length entries)) entries) st)
                 /\ (i <= i' <= i + S (length rest))%nat
                 /\ (line :: rest <> [] -> (i < i')%nat)
                 /\ Forall (fun e => e <> []) entries
                 /\ Forall (fun e => incl e (cur ++ line :: rest)) entries).
    { intros cur' Hcur'. rewrite process_entry_spec.
      assert (Hsub : forall e, incl e (cur' ++ rest) -> incl e (cur ++ line :: rest)).
      { intros e He x Hx. apply He in Hx. apply in_app_or in Hx. apply in_or_app.
        right. destruct Hx as [Hx | Hx]; [apply Hcur' in Hx; destruct Hx as [<- | []];
                                           now left | now right]. }
      destruct cur as [|l cur]; cbn [nonempty].
      - destruct (IH (i + 1)%nat cur' st a) as (es & i' & E & Hi & _ & Hne & Hin).
        exists es, i'. rewrite E. repeat split; try assumption; try lia.
        eapply Forall_impl; [|exact Hin]. exact Hsub.
      - destruct (IH (i + 1)%nat cur' (f (l :: cur) st (advance c a)) (S a))
          as (es & i' & E & Hi & _ & Hne & Hin).
        exists ((l :: cur) :: es), i'. rewrite E. cbn [length combine seq fold_left].
        replace (a + S (length es))%nat with (S a + length es)%nat by lia.
        repeat split; try lia.
        + constructor; [discriminate | assumption].
        + constructor; [now apply incl_appl|].
          eapply Forall_impl; [|exact Hin]. intros e He x Hx. apply He in Hx.
          apply in_app_or in Hx. apply in_or_app. right.
          destruct Hx as [Hx | Hx]; [apply Hcur' in Hx; destruct Hx as [<- | []];
                                     now left | now right]. }
    destruct (startswith "edit " line); [apply Hstep, incl_refl|].
    destruct (startswith "next" line); [apply Hstep; intros x []|].
    destruct (IH (i + 1)%nat (cur ++ [line])%list st a) as (es & i' & E & Hi & _ & Hne & Hin).
    exists es, i'. rewrite E. rewrite <- app_assoc in Hin.
    repeat split; try assumption; lia.
Qed.

Lemma block_loop_inner c :
  forall body rest i cur st,
    forallb inner_line body = true ->
    block_loop f (body ++ rest) i cur st c
    = block_loop f rest (i + length body) (cur ++ body) st c.
Proof.
  induction body as [|l body IH]; intros rest i cur st H.
  - cbn [app length]. now rewrite Nat.add_0_r, app_nil_r.
  - cbn [forallb] in H. apply andb_true_iff in H. destruct H as [Hl Hb].
    unfold inner_line in Hl. apply andb_true_iff in Hl. destruct Hl as [Hl H3].
    apply andb_true_iff in Hl. destruct Hl as [H1 H2].
    apply negb_true_iff in H1, H2, H3.
    cbn [app block_loop length]. rewrite H1, H2, H3, IH by assumption.
    rewrite <- app_assoc. cbn [app]. f_equal. lia.
Qed.

Lemma block_loop_entries c :
  forall entries rest i st a,
    forallb block_entry entries = true ->
    block_loop f (flat_map (fun e => (e ++ ["next"])%list) entries ++ rest) i [] st
               (advance c a)
    = block_loop f rest (i + length (flat_map (fun e => (e ++ ["next"])%list) entries)) []
                 (fold_left (fun s '(n, e) => f e s (advance c n))
                            (combine (seq a (length entries)) entries) st)
                 (advance c (a + length entries)).
Proof.
  induction entries as [|e entries IH]; intros rest i st a H.
  - cbn [flat_map app length combine seq fold_left]. now rewrite !Nat.add_0_r.
  - cbn [forallb] in H. apply andb_true_iff in H. destruct H as [He Hes].
    destruct e as [|edit_line body]; [discriminate|]. cbn [block_entry] in He.
    apply andb_true_iff in He. destruct He as [Hedit Hbody].
    assert (Hend : (edit_line =? "end") = false).
    { apply FortinetParserFacts.prefix_app in Hedit. destruct Hedit as [r ->].
      reflexivity. }
    cbn [flat_map]. rewrite <- !app_assoc. cbn [app block_loop].
    rewrite Hend, Hedit, process_entry_spec. cbn [nonempty].
    rewrite block_loop_inner by assumption. cbn [app block_loop].
    change ("next" =? "end") with false.
    change (startswith "edit " "next") with false.
    change (startswith "next" "next") with true. cbv iota.
    rewrite process_entry_spec. cbn [nonempty].
    rewrite (IH rest _ _ (S a)) by assumption.
    cbn [length combine seq fold_left]. rewrite !length_app. cbn [length].
    replace (S a + length entries)%nat with (a + S (length entries))%nat by lia.
    f_equal. lia.
Qed.

(** X16: [_parse_block] always returns an index beyond the one it was
    called with, and at most the number of lines when it was called inside
    them.  The entries it hands to the entry parser are non-empty lists of
    lines of the input, handed over in order, and the counter it passes
    with them goes up by one per entry: the returned counter is the given
    one plus the number of entries. *)
Theorem X16_parse_block_numbers_entries :
  forall index lines st sequence_counter,
    exists entries,
      let r := _parse_block f index lines st sequence_counter in
      (index < fst (fst r) <= Nat.max (index + 1) (length lines))%nat
      /\ snd (fst r) = advance sequence_counter (length entries)
      /\ snd r = parse_entries f sequence_counter entries st
      /\ Forall (fun e => e <> []) entries
      /\ Forall (fun e => incl e lines) entries.
Proof.
  intros index lines st c. unfold _parse_block.
  assert (H0 : advance c 0 = c).
  { destruct c as [k|]; cbn; [f_equal; lia | reflexivity]. }
  destruct (block_loop_spec c (skipn (index + 1) lines) (index + 1) [] st 0)
    as (es & i' & E & Hi & _ & Hne & Hin).
  rewrite H0 in E. exists es. cbv zeta. rewrite E. cbn [fst snd].
  rewrite length_skipn in Hi. repeat split; try lia; try assumption.
  eapply Forall_impl; [|exact Hin]. intros e He x Hx. apply He in Hx.
  cbn [app] in Hx. rewrite <- (firstn_skipn (index + 1) lines).
  apply in_or_app. now right.
Qed.

End BlockFacts.

Lemma skipn_past_header (pre : list string) header tail :
  skipn (length pre + 1) (pre ++ header :: tail) = tail.
Proof. rewrite Nat.add_1_r. induction pre as [|x pre IH]; [reflexivity | exact IH]. Qed.

Lemma policy_entries_exact k :
  forall entries a cfg,
    let cfg' := fold_left (fun s '(n, e) => policy_entry_parser e s (advance (Some k) n))
                          (combine (seq a (length entries)) entries) cfg in
    rules cfg'
    = (rules cfg ++ map (fun '(n, e) => policy_rule e (k + Z.of_nat n))
                        (combine (seq a (length entries)) entries))%list
    /\ nat_rules cfg'
       = (nat_rules cfg ++ flat_map (fun '(n, e) => policy_nat_rules e (k + Z.of_nat n))
                                    (combine (seq a (length entries)) entries))%list
    /\ same_but_rules cfg cfg'.
Proof.
  induction entries as [|e entries IH]; intros a cfg.
  - cbn. rewrite !app_nil_r. repeat split.
  - cbn [length seq combine fold_left map flat_map].
    set (cfg1 := policy_entry_parser e cfg (advance (Some k) a)).
    destruct (IH (S a) cfg1) as (Hr & Hn & Hframe). cbv zeta in *.
    assert (H1 : rules cfg1 = (rules cfg ++ [policy_rule e (k + Z.of_nat a)])%list
                 /\ nat_rules cfg1
                    = (nat_rules cfg ++ policy_nat_rules e (k + Z.of_nat a))%list
                 /\ same_but_rules cfg cfg1).
    { unfold cfg1. cbn [policy_entry_parser advance option_map].
      unfold _parse_policy_entry, policy_nat_rules. cbv zeta.
      destruct (is_nat_enabled (scan_policy e) && opt_truthy (nat_pool_name (scan_policy e)));
        cbn [rules nat_rules with_rules with_nat_rules]; rewrite ?app_nil_r;
        repeat split. }
    destruct H1 as (R1 & N1 & F1).
    rewrite Hr, Hn, R1, N1, <- !app_assoc. cbn [app].
    split; [reflexivity|]. split; [reflexivity|].
    unfold same_but_rules in *.
    repeat match goal with H : _ /\ _ |- _ => destruct H end.
    repeat split; congruence.
Qed.

(** X17: a policy block that lists its entries one after the other, each
    from its [edit] line to its [next], is read up to its closing [end]; it
    appends one rule per entry, in the order of the block, built from the
    lines of that entry and numbered counter, counter + 1, ..., and returns
    the counter after the last one.  The NAT rules it appends are those of
    the entries with NAT enabled and a pool, each with the sequence id of
    the rule of its entry and that rule's name after the prefix NAT_;
    nothing but the rules and the NAT rules of the configuration changes. *)
Theorem X17_policy_block_numbering :
  forall pre header entries post cfg k,
    forallb block_entry entries = true ->
    let lines := (pre ++ block_lines header entries ++ post)%list in
    let r := _parse_block policy_entry_parser (length pre) lines cfg (Some k) in
    fst (fst r) = (length pre + length (block_lines header entries))%nat
    /\ snd (fst r) = Some (k + Z.of_nat (length entries))%Z
    /\ rules (snd r)
       = (rules cfg ++ map (fun '(n, e) => policy_rule e (k + Z.of_nat n))
                           (enumerate entries))%list
    /\ nat_rules (snd r)
       = (nat_rules cfg ++ flat_map (fun '(n, e) => policy_nat_rules e (k + Z.of_nat n))
                                    (enumerate entries))%list
    /\ map rule_sequence_id (rules (snd r))
       = (map rule_sequence_id (rules cfg)
          ++ map (fun n => (k + Z.of_nat n)%Z) (seq 0 (length entries)))%list
    /\ (forall n, In n (nat_rules (snd r)) ->
                  In n (nat_rules cfg)
                  \/ exists r0, In r0 (rules (snd r))
                                /\ nat_sequence_id n = rule_sequence_id r0
                                /\ nat_name n = "NAT_" ++ rule_name r0)
    /\ same_but_rules cfg (snd r).
Proof.
  intros pre header entries post cfg k Hok lines r. subst lines r.
  unfold _parse_block, block_lines. cbn [app].
  rewrite <- !app_assoc. cbn [app]. rewrite skipn_past_header.
  pose proof (@block_loop_entries _ policy_entry_parser (Some k) entries
                ("end" :: post) (length pre + 1) cfg 0 Hok) as E.
  replace (advance (Some k) 0) with (Some k) in E by (cbn; f_equal; lia).
  rewrite E. cbn [block_loop]. change ("end" =? "end") with true. cbv iota.
  unfold process_entry. cbn [nonempty negb fst snd].
  destruct (policy_entries_exact k entries 0 cfg) as (Hr & Hn & Hframe).
  cbv zeta in *. fold (enumerate entries) in *.
  set (cfg' := fold_left _ (enumerate entries) cfg) in *.
  split; [cbn [length]; rewrite length_app; cbn [length]; lia|].
  split; [reflexivity|]. split; [exact Hr|]. split; [exact Hn|].
  assert (Hids : forall (l : list (list string)) a,
             map rule_sequence_id
                 (map (fun '(n, e) => policy_rule e (k + Z.of_nat n))
                      (combine (seq a (length l)) l))
             = map (fun n => (k + Z.of_nat n)%Z) (seq a (length l))).
  { induction l as [|e l IH]; intros a; [reflexivity|].
    cbn [length seq combine map]. now rewrite IH. }
  split; [rewrite Hr, map_app; f_equal; apply Hids|].
  split; [|exact Hframe].
  intros n Hin. rewrite Hn in Hin. apply in_app_or in Hin.
  destruct Hin as [Hin | Hin]; [now left | right].
  apply in_flat_map in Hin. destruct Hin as ([j e] & Hje & Hin).
  unfold policy_nat_rules in Hin.
  destruct (is_nat_enabled (scan_policy e) && opt_truthy (nat_pool_name (scan_policy e)));
    [|destruct Hin]. destruct Hin as [<- | []].
  exists (policy_rule e (k + Z.of_nat j)). split; [|split; reflexivity].
  rewrite Hr. apply in_or_app. right.
  apply in_map_iff. exists (j, e). split; [reflexivity | exact Hje].
Qed.

(** The theorem at a block of two policies read with the counter at 1: two
    rules numbered 1 and 2, and the NAT rule of the second policy. *)
Lemma X17_witness :
  forallb block_entry x_policy_entries = true
  /\ (let r := _parse_block policy_entry_parser 0
                  (block_lines "config firewall policy" x_policy_entries)
                  empty_config (Some 1%Z) in
      fst (fst r) = 10%nat
      /\ snd (fst r) = Some 3%Z
      /\ map rule_sequence_id (rules (snd r)) = [1%Z; 2%Z]
      /\ map nat_sequence_id (nat_rules (snd r)) = [2%Z]).
Proof.
  split; [reflexivity|].
  destruct (@X17_policy_block_numbering [] "config firewall policy" x_policy_entries
              [] empty_config 1%Z eq_refl)
    as (H1 & H2 & _ & H4 & H5 & _).
  cbv zeta in *. cbn [app] in *. rewrite app_nil_r in *.
  split; [exact H1|]. split; [exact H2|]. split; [exact H5|].
  exact (f_equal (map nat_sequence_id) H4).
Defined.

Lemma has_char_remove_same c s : has_char c (remove_char c s) = false.
Proof.
  induction s as [|a s IH]; cbn; [reflexivity|].
  destruct (Ascii.eqb a c) eqn:E; [assumption | cbn; now rewrite E].
Qed.

Lemma has_char_remove_other c d s :
  has_char c s = false -> has_char c (remove_char d s) = false.
Proof.
  induction s as [|a s IH]; cbn; [reflexivity|]. intros H.
  apply orb_false_iff in H. destruct H as [H1 H2].
  destruct (Ascii.eqb a d); [auto | cbn; rewrite H1; auto].
Qed.

Lemma has_char_lstrip p c s :
  has_char c s = false -> has_char c (lstrip_by p s) = false.
Proof.
  induction s as [|a s IH]; cbn; [reflexivity|]. intros H.
  destruct (p a); [apply orb_false_iff in H; now apply IH | exact H].
Qed.

Lemma has_char_existsb c s :
  has_char c s = existsb (fun a => Ascii.eqb a c) (list_ascii_of_string s).
Proof. induction s as [|a s IH]; cbn; [reflexivity | now rewrite IH]. Qed.

Lemma existsb_rev_eq {A} (f : A -> bool) l : existsb f (rev l) = existsb f l.
Proof.
  induction l as [|a l IH]; cbn; [reflexivity|].
  now rewrite existsb_app, IH; cbn; rewrite orb_false_r, orb_comm.
Qed.

Lemma has_char_rev c s : has_char c (string_rev s) = has_char c s.
Proof.
  unfold string_rev. rewrite !has_char_existsb, list_ascii_of_string_of_list_ascii.
  apply existsb_rev_eq.
Qed.

Lemma has_char_rstrip p c s :
  has_char c s = false -> has_char c (rstrip_by p s) = false.
Proof.
  intros H. unfold rstrip_by. rewrite has_char_rev.
  apply has_char_lstrip. now rewrite has_char_rev.
Qed.

Lemma has_char_replace c d s :
  Ascii.eqb d c = false -> has_char c (replace_char c d s) = false.
Proof.
  intros Hd. induction s as [|a s IH]; cbn; [reflexivity|].
  destruct (Ascii.eqb a c) eqn:E; rewrite ?Hd, ?E; exact IH.
Qed.

Lemma has_char_replace_other c d e s :
  Ascii.eqb e c = false -> has_char c s = false ->
  has_char c (replace_char d e s) = false.
Proof.
  intros He. induction s as [|a s IH]; cbn; [reflexivity|]. intros H.
  apply orb_false_iff in H. destruct H as [H1 H2].
  destruct (Ascii.eqb a d); rewrite ?He, ?H1; auto.
Qed.

(** X20: the name that [_clean_service_name] returns is empty only for the
    empty name, and holds neither a slash nor a backslash. *)
Theorem X20_clean_service_name_usable :
  forall name,
    truthy (_clean_service_name name) = truthy name
    /\ has_char (ch 47) (_clean_service_name name) = false
    /\ has_char (ch 92) (_clean_service_name name) = false.
Proof.
  intros name. unfold _clean_service_name. cbv zeta.
  set (stripped := strip_mixed_prefix name).
  set (clean := strip (lstrip_by _ (remove_char (ch 92) (remove_char (ch 47) stripped)))).
  assert (H47 : has_char (ch 47) clean = false).
  { unfold clean, strip. apply has_char_rstrip. do 2 apply has_char_lstrip.
    apply has_char_remove_other, has_char_remove_same. }
  assert (H92 : has_char (ch 92) clean = false).
  { unfold clean, strip. apply has_char_rstrip. do 2 apply has_char_lstrip.
    apply has_char_remove_same. }
  destruct (truthy clean) eqn:E; cbn [negb].
  - split; [|now split]. rewrite E. destruct name; [|reflexivity].
    vm_compute in E. discriminate.
  - split; [now destruct name|]. split.
    + apply has_char_replace_other; [reflexivity|].
      apply has_char_replace. reflexivity.
    + apply has_char_replace. reflexivity.
Qed.

Lemma default_to_nonempty x s : nonempty (default_to x s) = true.
Proof. destruct s; reflexivity. Qed.

Lemma scan_policy_action lines :
  forall a, (p_action a = "allow" \/ p_action a = "deny") ->
            p_action (fold_left scan_policy_line lines a) = "allow"
            \/ p_action (fold_left scan_policy_line lines a) = "deny".
Proof.
  induction lines as [|line lines IH]; intros a Ha; cbn [fold_left]; [assumption|].
  apply IH. unfold scan_policy_line.
  repeat match goal with
         | |- context [if startswith ?p line then _ else _] =>
             destruct (startswith p line); [cbn [p_action]; try assumption|]
         end; try assumption.
  destruct (_get_set_value line =? "accept"); auto.
Qed.

(** X21: every rule that [_parse_policy_entry] builds has the action allow
    or deny, and a source, a destination and a service set that are not
    empty (all, all and ALL stand in for an empty one). *)
Theorem X21_policy_rule_well_formed :
  forall entry_lines sequence_id,
    let rule := policy_rule entry_lines sequence_id in
    (rule_action rule = "allow" \/ rule_action rule = "deny")
    /\ nonempty (rule_source rule) = true
    /\ nonempty (rule_destination rule) = true
    /\ nonempty (rule_service rule) = true.
Proof.
  intros entry_lines k. cbv zeta. unfold policy_rule. cbv zeta.
  cbn [rule_action rule_source rule_destination rule_service].
  split; [|repeat split; apply default_to_nonempty].
  unfold scan_policy. apply scan_policy_action. now right.
Qed.

Lemma append_assoc_str (a b c : string) : (a ++ b) ++ c = a ++ (b ++ c).
Proof. induction a as [|x a IH]; cbn; [reflexivity | now rewrite IH]. Qed.

Lemma list_of_append (a b : string) :
  list_ascii_of_string (a ++ b)
  = (list_ascii_of_string a ++ list_ascii_of_string b)%list.
Proof. induction a as [|x a IH]; cbn; [reflexivity | now rewrite IH]. Qed.

Lemma string_of_app (l1 l2 : list ascii) :
  string_of_list_ascii (l1 ++ l2)%list
  = string_of_list_ascii l1 ++ string_of_list_ascii l2.
Proof. induction l1 as [|x l1 IH]; cbn; [reflexivity | now rewrite IH]. Qed.

Lemma string_rev_append (a b : string) :
  string_rev (a ++ b) = string_rev b ++ string_rev a.
Proof. unfold string_rev. now rewrite list_of_append, rev_app_distr, string_of_app. Qed.

Lemma string_rev_involutive (s : string) : string_rev (string_rev s) = s.
Proof.
  unfold string_rev.
  now rewrite list_ascii_of_string_of_list_ascii, rev_involutive,
    string_of_list_ascii_of_string.
Qed.

Lemma string_rev_cons c (s : string) :
  string_rev (String c s) = string_rev s ++ String c "".
Proof.
  change (String c s) with (String c "" ++ s). now rewrite string_rev_append.
Qed.

Lemma string_rev_quoted (v : string) : string_rev (quoted v) = quoted (string_rev v).
Proof.
  unfold quoted. rewrite string_rev_append, !string_rev_cons. reflexivity.
Qed.

Lemma strip_quoted (v : string) : strip (quoted v) = quoted v.
Proof.
  unfold strip, rstrip_by. change (lstrip_by is_space (quoted v)) with (quoted v).
  rewrite string_rev_quoted.
  change (lstrip_by is_space (quoted (string_rev v))) with (quoted (string_rev v)).
  now rewrite string_rev_quoted, string_rev_involutive.
Qed.

Lemma unquote_quoted (v : string) : unquote (quoted v) = v.
Proof.
  unfold unquote, ends_with_char. rewrite string_rev_quoted.
  change (startswith (String (ascii_of_nat 34) "") (quoted v)
          && match quoted (string_rev v) with
             | String a _ => Ascii.eqb a (ascii_of_nat 34)
             | EmptyString => false
             end)
    with (startswith "" (v ++ String (ascii_of_nat 34) "") && true).
  assert (H : startswith "" (v ++ String (ascii_of_nat 34) "") = true).
  { unfold startswith. now destruct v. }
  rewrite H. cbn [andb]. unfold quoted, drop_first_last.
  change (String (ascii_of_nat 34) (v ++ String (ascii_of_nat 34) ""))
    with (String (ascii_of_nat 34) (v ++ String (ascii_of_nat 34) "")).
  cbn [append]. rewrite string_rev_append.
  change (string_rev (String (ascii_of_nat 34) "")) with (String (ascii_of_nat 34) "").
  cbn [append]. apply string_rev_involutive.
Qed.

Lemma break_at_append c key rest :
  has_char c key = false ->
  break_at c (key ++ String c rest) = Some (key, rest).
Proof.
  induction key as [|a key IH]; cbn; intros H.
  - now rewrite Ascii.eqb_refl.
  - apply orb_false_iff in H. destruct H as [H1 H2]. now rewrite H1, IH.
Qed.

Lemma split_set_line key content :
  has_char space key = false ->
  split_max space 2 ("set " ++ key ++ " " ++ content) = ["set"; key; content].
Proof.
  intros H. change ("set " ++ key ++ " " ++ content)
    with ("set" ++ String space (key ++ String space content)).
  cbn [split_max]. rewrite break_at_append by reflexivity.
  now rewrite break_at_append.
Qed.

(** X18: a value written between double quotes is read back unchanged: the
    name of [edit "name"] by [_get_edit_value], and the value of
    [set key "value"] by [_get_set_value] when the key holds no space. *)
Theorem X18_quoted_value_round_trip :
  forall key v,
    has_char space key = false ->
    _get_edit_value ("edit " ++ quoted v) = v
    /\ _get_set_value ("set " ++ key ++ " " ++ quoted v) = v.
Proof.
  intros key v Hkey. split.
  - unfold _get_edit_value.
    change ("edit " ++ quoted v) with ("edit" ++ String space (quoted v)).
    cbn [split_max]. rewrite break_at_append by reflexivity.
    now rewrite strip_quoted, unquote_quoted.
  - unfold _get_set_value. rewrite split_set_line by assumption.
    now rewrite strip_quoted, unquote_quoted.
Qed.

Lemma X18_witness :
  has_char space "comments" = false
  /\ _get_edit_value ("edit " ++ quoted "to web srv") = "to web srv"
  /\ _get_set_value ("set comments " ++ quoted "to web srv") = "to web srv".
Proof.
  split; [reflexivity|].
  exact (X18_quoted_value_round_trip "comments" "to web srv" eq_refl).
Defined.

Lemma quoted_token_quoted n tail :
  truthy n = true -> has_char dquote n = false ->
  quoted_token (quoted n ++ tail) = Some (n, tail).
Proof.
  intros Hn Hq. unfold quoted.
  change ((String (ascii_of_nat 34) n ++ String (ascii_of_nat 34) "") ++ tail)
    with (String dquote ((n ++ String dquote "") ++ tail)).
  rewrite append_assoc_str. cbn [append quoted_token].
  change (Ascii.eqb dquote dquote) with true. cbv iota.
  now rewrite break_at_append, Hn.
Qed.

Lemma findall_quoted_names :
  forall names fuel,
    Forall (fun n => truthy n = true /\ has_char dquote n = false) names ->
    (String.length (join_space (map quoted names)) < fuel)%nat ->
    findall_values fuel (join_space (map quoted names)) = names.
Proof.
  induction names as [|n names IH]; intros fuel Hall Hfuel.
  - destruct fuel; reflexivity.
  - inversion Hall as [|? ? [Hn Hq] Hrest]; subst.
    assert (Hjoin : join_space (map quoted (n :: names))
                    = quoted n ++ match names with
                                  | [] => ""
                                  | _ => String space (join_space (map quoted names))
                                  end).
    { unfold join_space. cbn [map String.concat].
      destruct names as [|m names]; cbn [map]; [|reflexivity].
      clear. induction (quoted n) as [|c s IHs]; cbn; [reflexivity | now rewrite <- IHs]. }
    rewrite Hjoin in *. rewrite PaloAltoGeneratorMore.length_app_str in Hfuel.
    destruct fuel as [|fuel]; [lia|]. cbn [findall_values].
    assert (Hq0 : exists c r, quoted n ++ match names with
                                          | [] => ""
                                          | _ => String space (join_space (map quoted names))
                                          end = String c r).
    { unfold quoted. cbn [append]. eauto. }
    destruct Hq0 as (c & r & Hcr).
    pose proof (@quoted_token_quoted n
                  (match names with
                   | [] => ""
                   | _ => String space (join_space (map quoted names))
                   end) Hn Hq) as Htok.
    rewrite Hcr in *. rewrite Htok. f_equal.
    destruct names as [|m names]; [destruct fuel; reflexivity|].
    cbn [String.length] in Hfuel.
    assert (Hlen : (2 <= String.length (quoted n))%nat).
    { unfold quoted. rewrite PaloAltoGeneratorMore.length_app_str. cbn. lia. }
    destruct fuel as [|fuel]; [lia|]. cbn [findall_values quoted_token span_nonspace].
    change (Ascii.eqb space dquote) with false.
    change (is_space space) with true. cbv iota. cbn [truthy].
    apply IH; [assumption | lia].
Qed.

(** X19: a list of names written between double quotes, one space apart,
    after [set key] is read back by [_extract_multi_values] as the same
    list, when the key holds no space and every name is not empty and holds
    no double quote. *)
Theorem X19_member_list_round_trip :
  forall key names,
    has_char space key = false ->
    Forall (fun n => truthy n = true /\ has_char dquote n = false) names ->
    _extract_multi_values ("set " ++ key ++ " " ++ join_space (map quoted names)) = names.
Proof.
  intros key names Hkey Hall. unfold _extract_multi_values.
  rewrite split_set_line by assumption.
  apply findall_quoted_names; [assumption | lia].
Qed.

Lemma X19_witness :
  _extract_multi_values
    ("set member " ++ join_space (map quoted ["web srv"; "DNS"; "10.0.0.0/8"]))
  = ["web srv"; "DNS"; "10.0.0.0/8"].
Proof.
  apply (@X19_member_list_round_trip "member" ["web srv"; "DNS"; "10.0.0.0/8"]).
  - reflexivity.
  - repeat constructor.
Defined.

End FortinetParserMore.
(* ------------------------------------------------------------------ *)
(** ** The Cisco ASA parser: manual NAT lines *)
(* ------------------------------------------------------------------ *)

Module CiscoAsaParserMore.
Import Py Re CiscoAsaParser.

(** X22: [_parse_nat_rule_line] only appends to the NAT rules of the
    configuration, at most two rules per line; the rules appended carry the
    sequence numbers counter, counter + 1, the returned counter is the given
    one plus the number of rules appended, and each of them is enabled
    exactly when the line does not hold the word inactive. *)
Theorem X22_nat_line_appends_numbered_rules :
  forall line cfg context_name duplicates nat_seq_counter,
    exists new_nats,
      let r := _parse_nat_rule_line line cfg context_name duplicates nat_seq_counter in
      nat_rules (fst r) = (nat_rules cfg ++ new_nats)%list
      /\ (length new_nats <= 2)%nat
      /\ map nat_sequence_id new_nats
         = map (fun j => (nat_seq_counter + Z.of_nat j)%Z) (seq 0 (length new_nats))
      /\ snd r = (nat_seq_counter + Z.of_nat (length new_nats))%Z
      /\ Forall (fun n => nat_enabled n = negb (contains "inactive" line)) new_nats
      /\ with_nat_rules (fst r) (nat_rules cfg) = cfg.
Proof.
  intros line cfg ctx dups k. unfold _parse_nat_rule_line. cbv zeta.
  destruct (search _RE_MANUAL_TWICE_NAT line) as [m|].
  { eexists [_]. cbn [fst snd length map seq nat_sequence_id nat_rules with_nat_rules].
    rewrite Z.add_0_r. repeat split; auto; try (now destruct cfg).
    all: repeat constructor. }
  destruct (search _RE_MANUAL_STATIC_NAT line) as [m|].
  { destruct (negb (opt_truthy (group 5 m))).
    - eexists [_; _].
      cbn [fst snd length map seq nat_sequence_id nat_rules with_nat_rules].
      rewrite Z.add_0_r, <- app_assoc. cbn [app].
      repeat split; auto; try (now destruct cfg); try lia.
      all: repeat constructor.
    - eexists [_]. cbn [fst snd length map seq nat_sequence_id nat_rules with_nat_rules].
      rewrite Z.add_0_r. repeat split; auto; try (now destruct cfg).
      all: repeat constructor. }
  destruct (search _RE_MANUAL_DYNAMIC_PAT line) as [m|].
  { eexists [_]. cbn [fst snd length map seq nat_sequence_id nat_rules with_nat_rules].
    rewrite Z.add_0_r. repeat split; auto; try (now destruct cfg).
    all: repeat constructor. }
  destruct (search _RE_MANUAL_DYNAMIC_NAT line) as [m|].
  { eexists [_]. cbn [fst snd length map seq nat_sequence_id nat_rules with_nat_rules].
    rewrite Z.add_0_r. repeat split; auto; try (now destruct cfg).
    all: repeat constructor. }
  exists []. cbn. rewrite app_nil_r, Z.add_0_r. repeat split; auto; now destruct cfg.
Qed.

End CiscoAsaParserMore.

(* ------------------------------------------------------------------ *)
(** ** The names the generators write *)
(* ------------------------------------------------------------------ *)

Module SanitizeMore.
Import Py.

Lemma all_chars_append p (a b : string) :
  all_chars p (a ++ b) = all_chars p a && all_chars p b.
Proof.
  induction a as [|c a IH]; cbn; [reflexivity | now rewrite IH, andb_assoc].
Qed.

Lemma all_chars_drop p n : forall s, all_chars p s = true -> all_chars p (drop n s) = true.
Proof.
  induction n as [|n IH]; intros [|c s]; cbn; auto.
  intros H. apply andb_true_iff in H. now apply IH.
Qed.

Lemma all_chars_replace_fuel p pat repl :
  all_chars p repl = true ->
  forall fuel s, all_chars p s = true ->
                 all_chars p (replace_fuel fuel pat repl s) = true.
Proof.
  intros Hrepl. induction fuel as [|fuel IH]; intros s Hs; cbn [replace_fuel];
    [assumption|].
  destruct s as [|c r]; [reflexivity|].
  destruct (String.prefix pat (String c r)).
  - rewrite all_chars_append, Hrepl. cbn [andb]. now apply IH, all_chars_drop.
  - cbn [all_chars] in *. apply andb_true_iff in Hs. destruct Hs as [Hc Hr].
    now rewrite Hc, IH.
Qed.

Lemma all_chars_replace p pat repl s :
  all_chars p repl = true -> all_chars p s = true ->
  all_chars p (replace pat repl s) = true.
Proof. intros. unfold replace. now apply all_chars_replace_fuel. Qed.

Lemma all_chars_lstrip p q : forall s,
  all_chars p s = true -> all_chars p (lstrip_by q s) = true.
Proof.
  induction s as [|c s IH]; cbn; [reflexivity|]. intros H.
  destruct (q c); [apply andb_true_iff in H; now apply IH | exact H].
Qed.

Lemma all_chars_forallb p s : all_chars p s = forallb p (list_ascii_of_string s).
Proof. induction s as [|c s IH]; cbn; [reflexivity | now rewrite IH]. Qed.

Lemma all_chars_rev p s : all_chars p (string_rev s) = all_chars p s.
Proof.
  unfold string_rev. rewrite !all_chars_forallb, list_ascii_of_string_of_list_ascii.
  induction (list_ascii_of_string s) as [|a l IH]; cbn; [reflexivity|].
  now rewrite forallb_app, IH; cbn; rewrite andb_true_r, andb_comm.
Qed.

Lemma all_chars_rstrip p q s :
  all_chars p s = true -> all_chars p (rstrip_by q s) = true.
Proof.
  intros H. unfold rstrip_by. rewrite all_chars_rev.
  apply all_chars_lstrip. now rewrite all_chars_rev.
Qed.

Lemma all_chars_substring p : forall s n m,
  all_chars p s = true -> all_chars p (substring n m s) = true.
Proof.
  induction s as [|c s IH]; intros [|n] [|m] H; cbn in *; try reflexivity;
    apply andb_true_iff in H; destruct H as [Hc Hs].
  - now rewrite Hc, IH.
  - now apply IH.
  - now apply IH.
Qed.

Lemma has_char_all_chars c s :
  has_char c s = negb (all_chars (fun a => negb (Ascii.eqb a c)) s).
Proof.
  induction s as [|a s IH]; cbn; [reflexivity|].
  rewrite IH. now destruct (Ascii.eqb a c); cbn.
Qed.

Lemma drop_append (p rest : string) : drop (String.length p) (p ++ rest) = rest.
Proof. induction p as [|c p IH]; cbn; [now destruct rest | exact IH]. Qed.

Lemma replace_fuel_le pat repl :
  (String.length repl <= String.length pat)%nat ->
  forall fuel s,
    (String.length (replace_fuel fuel pat repl s) <= String.length s)%nat.
Proof.
  intros Hlen. induction fuel as [|fuel IH]; intros s; cbn [replace_fuel]; [lia|].
  destruct s as [|c r]; [cbn; lia|].
  destruct (String.prefix pat (String c r)) eqn:E.
  - apply FortinetParserFacts.prefix_app in E. destruct E as [rest ->].
    rewrite drop_append, !PaloAltoGeneratorMore.length_app_str.
    specialize (IH rest). lia.
  - cbn [String.length]. specialize (IH r). lia.
Qed.

Lemma replace_fuel_lt pat repl :
  (String.length repl < String.length pat)%nat ->
  forall fuel s,
    contains pat s = true -> (String.length s < fuel)%nat ->
    (String.length (replace_fuel fuel pat repl s) < String.length s)%nat.
Proof.
  intros Hlen. induction fuel as [|fuel IH]; intros s Hc Hf; [lia|].
  cbn [replace_fuel]. destruct s as [|c r].
  - destruct pat; [cbn in Hlen; lia | discriminate].
  - cbn [contains] in Hc. destruct (String.prefix pat (String c r)) eqn:E.
    + apply FortinetParserFacts.prefix_app in E. destruct E as [rest ->].
      rewrite drop_append, !PaloAltoGeneratorMore.length_app_str.
      pose proof (@replace_fuel_le pat repl ltac:(lia) fuel rest). lia.
    + cbn [orb] in Hc. cbn [String.length] in *.
      specialize (IH r Hc ltac:(lia)). lia.
Qed.

Lemma replace_single_gone c repl :
  has_char c repl = false ->
  forall fuel s, (String.length s < fuel)%nat ->
                 has_char c (replace_fuel fuel (String c "") repl s) = false.
Proof.
  intros Hrepl. induction fuel as [|fuel IH]; intros s Hf; [lia|].
  cbn [replace_fuel]. destruct s as [|a r]; [reflexivity|].
  cbn [String.length] in Hf. cbn [String.prefix].
  destruct (ascii_dec c a) as [<- | Hne].
  - replace (String.prefix "" r) with true by (now destruct r).
    cbn [String.length drop]. rewrite has_char_all_chars, all_chars_append.
    rewrite has_char_all_chars in Hrepl. apply negb_false_iff in Hrepl.
    rewrite Hrepl. cbn [andb]. rewrite <- has_char_all_chars. apply IH. lia.
  - cbn [has_char]. rewrite IH by lia.
    destruct (Ascii.eqb a c) eqn:E; [|reflexivity].
    apply Ascii.eqb_eq in E. congruence.
Qed.

Lemma has_char_replace_keeps c pat repl s :
  has_char c repl = false -> has_char c s = false ->
  has_char c (replace pat repl s) = false.
Proof.
  rewrite !has_char_all_chars. intros H1 H2.
  apply negb_false_iff in H1, H2. apply negb_false_iff.
  now apply all_chars_replace.
Qed.

Section Dashes.

Variable collapse : nat -> string -> string.
Hypothesis collapse_O : forall s, collapse 0 s = s.
Hypothesis collapse_S :
  forall fuel s, collapse (S fuel) s
                 = if contains "--" s then collapse fuel (replace "--" "-" s) else s.

Lemma collapse_no_double_dash :
  forall fuel s, (String.length s <= fuel)%nat ->
                 contains "--" (collapse fuel s) = false.
Proof.
  induction fuel as [|fuel IH]; intros s Hlen.
  - rewrite collapse_O. destruct s; [reflexivity | cbn in Hlen; lia].
  - rewrite collapse_S. destruct (contains "--" s) eqn:E; [|exact E].
    apply IH. unfold replace.
    pose proof (@replace_fuel_lt "--" "-" ltac:(cbn; lia) (S (String.length s)) s E
                  ltac:(lia)). lia.
Qed.

Lemma collapse_all_chars p :
  p (ascii_of_nat 45) = true ->
  forall fuel s, all_chars p s = true -> all_chars p (collapse fuel s) = true.
Proof.
  intros Hp. induction fuel as [|fuel IH]; intros s Hs.
  - now rewrite collapse_O.
  - rewrite collapse_S. destruct (contains "--" s); [|exact Hs].
    apply IH, all_chars_replace; [|exact Hs].
    change (p (ascii_of_nat 45) && true = true). now rewrite Hp.
Qed.

End Dashes.

(** X23: a name sanitized for Palo Alto holds no slash, no ampersand and no
    two dashes in a row: the loop that collapses dashes runs until none is
    left. *)
Theorem X23_palo_alto_sanitized_name :
  forall name,
    has_char (ascii_of_nat 47) (PaloAltoGenerator._sanitize_name name) = false
    /\ has_char (ascii_of_nat 38) (PaloAltoGenerator._sanitize_name name) = false
    /\ contains "--" (PaloAltoGenerator._sanitize_name name) = false.
Proof.
  intros name. unfold PaloAltoGenerator._sanitize_name.
  destruct (negb (truthy name)); [repeat split|]. cbv zeta.
  set (n1 := replace "/" "n" name).
  set (n2 := replace "&" "n" n1).
  set (n3 := replace "-eq" "" (replace "_eq" "" n2)).
  assert (H1 : has_char (ascii_of_nat 47) n1 = false).
  { unfold n1, replace. apply replace_single_gone; [reflexivity | lia]. }
  assert (H2 : has_char (ascii_of_nat 47) n2 = false
               /\ has_char (ascii_of_nat 38) n2 = false).
  { split.
    - unfold n2. now apply has_char_replace_keeps.
    - unfold n2, replace. apply replace_single_gone; [reflexivity | lia]. }
  destruct H2 as [H2 H2'].
  assert (H3 : has_char (ascii_of_nat 47) n3 = false
               /\ has_char (ascii_of_nat 38) n3 = false).
  { unfold n3. split; do 2 (apply has_char_replace_keeps; [reflexivity|]); assumption. }
  destruct H3 as [H3 H3'].
  assert (Hkeep : forall c, c <> ascii_of_nat 45 -> has_char c n3 = false ->
             has_char c (PaloAltoGenerator.collapse_dashes (String.length n3) n3) = false).
  { intros c Hc H. rewrite has_char_all_chars in *. apply negb_false_iff in H.
    apply negb_false_iff.
    apply (@collapse_all_chars PaloAltoGenerator.collapse_dashes
             (fun s => eq_refl) (fun fuel s => eq_refl)); [|exact H].
    apply negb_true_iff. destruct (Ascii.eqb_spec (ascii_of_nat 45) c); congruence. }
  split; [apply Hkeep; [discriminate | exact H3]|].
  split; [apply Hkeep; [discriminate | exact H3']|].
  apply (@collapse_no_double_dash PaloAltoGenerator.collapse_dashes
           (fun s => eq_refl) (fun fuel s => eq_refl)). lia.
Qed.

(** X24: a name sanitized for FortiOS has at most 79 characters, and each
    of them is a character that the substitution of [_sanitize_name] keeps:
    a word character of [\w] (a letter or a digit, ASCII or not, or the
    underscore), a dot or a dash. *)
Theorem X24_fortinet_sanitized_name :
  forall name,
    (String.length (FortinetGenerator._sanitize_name name) <= 79)%nat
    /\ all_chars FortinetGenerator.is_safe (FortinetGenerator._sanitize_name name) = true.
Proof.
  intros name. unfold FortinetGenerator._sanitize_name.
  destruct (negb (truthy name)); [split; [cbn; lia | reflexivity]|]. cbv zeta.
  split; [apply PaloAltoGeneratorMore.length_substring_le|].
  apply all_chars_substring, all_chars_rstrip, all_chars_lstrip.
  apply (@collapse_all_chars FortinetGenerator.collapse_dashes
           (fun s => eq_refl) (fun fuel s => eq_refl)); [reflexivity|].
  repeat (apply all_chars_replace; [reflexivity|]).
  induction name as [|c name IH]; [reflexivity|].
  cbn [FortinetGenerator.sub_unsafe all_chars]. rewrite IH, andb_true_r.
  fold (FortinetGenerator.is_safe c).
  destruct (FortinetGenerator.is_safe c) eqn:E; [exact E | reflexivity].
Qed.

End SanitizeMore.
